(** * Testomat.io reporter client: the request queue and the report payload

    A shallow embedding of [src/lib/client.js] (class [TestomatClient]):
    the promise chain [this.queue] that serialises every request of one
    client, the diagnostic text built by [addTestRun], and the three public
    operations [createRun], [addTestRun] and [updateRunStatus].

    JavaScript is single threaded: a call runs its synchronous part to the
    end, and the reactions of a promise chain run one at a time between
    calls.  The model is a small-step machine over an explicit state: a
    call appends a task to the chain, a tick of the event loop either starts
    the next task or settles the suspended one.  A schedule interleaves
    calls and ticks in any order, so it covers every order in which callers
    and the event loop can take turns.

    What stays outside: the transport, the uploader, [chalk], the stack
    renderer and the URL parser are parameters ([Env]) or inputs of a tick;
    a promise of theirs is represented by the way it settles.  The caller
    hands over objects of the documented shapes, and the methods the client
    calls on them ([error.inspect()], [toString()]) return.

    What belongs to the language is written out: a string is the UTF-8
    encoding of its text, a number is a double and is turned into text as
    [Number::toString] does it, and the payload is written as
    [JSON.stringify] writes it and read back as [JSON.parse] reads it. *)

From stdpp Require Import gmap strings list.
From Stdlib Require Import ZArith Lia Ascii DecimalString.
From Stdlib Require DecimalN DecimalNat DecimalFacts.

Set Default Proof Using "Type".

(* ================================================================== *)
(** * Strings: the few [String.prototype] operations the client uses *)
(* ================================================================== *)

Module Str.

Definition LF : ascii := "010"%char.
Definition nl : string := String LF "".

(** [s.split(sep)] for a one-character separator. *)
Fixpoint split (sep : ascii) (s : string) : list string :=
  match s with
  | EmptyString => [EmptyString]
  | String c s' =>
      if Ascii.eqb c sep then EmptyString :: split sep s'
      else match split sep s' with
           | [] => [String c EmptyString]
           | w :: ws => String c w :: ws
           end
  end.

(** [l.join(sep)]. *)
Fixpoint join (sep : string) (l : list string) : string :=
  match l with
  | [] => ""
  | [x] => x
  | x :: rest => x +:+ sep +:+ join sep rest
  end.

(** [l.splice(n)] returns the elements from index [n] on. *)
Definition splice_from {A} (n : nat) (l : list A) : list A := drop n l.

Definition lines (s : string) : list string := split LF s.

(** A string is the UTF-8 encoding of its text.  The white space of one
    byte: tab, line feed, vertical tab, form feed, carriage return and
    space. *)
Definition is_space (c : ascii) : bool :=
  let n := nat_of_ascii c in
  (Nat.eqb n 32) || ((9 <=? n)%nat && (n <=? 13)%nat).

(** The white space of two bytes: U+00A0. *)
Definition is_space2 (c d : ascii) : bool :=
  Nat.eqb (nat_of_ascii c) 194 && Nat.eqb (nat_of_ascii d) 160.

(** The white space of three bytes: U+1680, U+2000 to U+200A, U+2028,
    U+2029, U+202F, U+205F, U+3000 and U+FEFF. *)
Definition is_space3 (c d e : ascii) : bool :=
  let '(c, d, e) := (nat_of_ascii c, nat_of_ascii d, nat_of_ascii e) in
  (Nat.eqb c 225 && Nat.eqb d 154 && Nat.eqb e 128)
  || (Nat.eqb c 226 && Nat.eqb d 128
      && (((128 <=? e)%nat && (e <=? 138)%nat)
          || Nat.eqb e 168 || Nat.eqb e 169 || Nat.eqb e 175))
  || (Nat.eqb c 226 && Nat.eqb d 129 && Nat.eqb e 159)
  || (Nat.eqb c 227 && Nat.eqb d 128 && Nat.eqb e 128)
  || (Nat.eqb c 239 && Nat.eqb d 187 && Nat.eqb e 191).

Fixpoint trim_start (s : string) : string :=
  match s with
  | EmptyString => EmptyString
  | String c s1 =>
      if is_space c then trim_start s1
      else
        match s1 with
        | String d s2 =>
            if is_space2 c d then trim_start s2
            else
              match s2 with
              | String e s3 => if is_space3 c d e then trim_start s3 else s
              | EmptyString => s
              end
        | EmptyString => s
        end
  end.

(** The string is made of white space only. *)
Definition blank (s : string) : bool :=
  match trim_start s with EmptyString => true | _ => false end.

Fixpoint trim_end (s : string) : string :=
  match s with
  | EmptyString => EmptyString
  | String c s' => if blank s then EmptyString else String c (trim_end s')
  end.

(** [s.trim()]. *)
Definition trim (s : string) : string := trim_end (trim_start s).

Fixpoint has_prefix (p s : string) : bool :=
  match p, s with
  | EmptyString, _ => true
  | String a p', String b s' => Ascii.eqb a b && has_prefix p' s'
  | String _ _, EmptyString => false
  end.

(** [s.indexOf(p) > -1]. *)
Fixpoint contains (p s : string) : bool :=
  has_prefix p s ||
  match s with
  | EmptyString => false
  | String _ s' => contains p s'
  end.

Definition free_of (c : ascii) (s : string) : Prop := split c s = [s].

(** [s] without the prefix [p], when it starts with it. *)
Fixpoint strip (p s : string) : option string :=
  match p, s with
  | EmptyString, _ => Some s
  | String a p', String b s' => if Ascii.eqb a b then strip p' s' else None
  | String _ _, EmptyString => None
  end.

End Str.

(* ================================================================== *)
(** * Numbers: how the language writes them *)
(* ================================================================== *)

(** A number is a double.  The client never computes with one; it only
    tests whether one is zero or [NaN] and turns it into text, with
    [toString()], in a template literal, or in the JSON payload.  The
    text is that of [Number::toString]: the shortest digits that read
    back as the same double. *)
Module Num.

#[local] Open Scope Z_scope.

(** A number that is no integer: [NaN], an infinity, or the fraction
    [m / 2^k], negated when [neg] is set.  The fractions that are
    numbers of the language have [m] odd and below [2^53], and [k] at
    most 1074. *)
Inductive Float : Type :=
| FNaN
| FInf (neg : bool)
| FDyadic (neg : bool) (m k : positive).

#[global] Instance Float_eq_dec : EqDecision Float.
Proof. solve_decision. Defined.

(** *** Rounding to a double *)

(** The nearest integer to [p / q], the even one on a tie
    ([0 <= p], [0 < q]). *)
Definition nearest_even (p q : Z) : Z :=
  let n := p / q in
  let r := p mod q in
  if 2 * r <? q then n
  else if q <? 2 * r then n + 1
  else if Z.even n then n else n + 1.

(** [p / q * 2^e] as a fraction. *)
Definition shift2 (p q e : Z) : Z * Z :=
  if 0 <=? e then (p * 2 ^ e, q) else (p, q * 2 ^ (- e)).

(** [p / q * 10^e] as a fraction. *)
Definition shift10 (p q e : Z) : Z * Z :=
  if 0 <=? e then (p * 10 ^ e, q) else (p, q * 10 ^ (- e)).

(** The largest [e] with [2^e <= p / q] ([0 < p], [0 < q]). *)
Definition binade (p q : Z) : Z :=
  let e := Z.log2 p - Z.log2 q in
  let '(a, b) := shift2 p q (- e) in
  if b <=? a then e else e - 1.

(** A finite double [n * 2^e] that is not negative, or what lies beyond
    the largest of them. *)
Inductive Double : Type :=
| Finite (n e : Z)
| Overflow.

(** The double nearest to [p / q], the one with the even significand on
    a tie: 53 bits in the normal range, multiples of [2^-1074] below
    it. *)
Definition to_double (p q : Z) : Double :=
  if p =? 0 then Finite 0 0
  else
    let e := Z.max (binade p q) (-1022) - 52 in
    let '(a, b) := shift2 p q (- e) in
    let n := nearest_even a b in
    if 2 ^ 1024 <=? (if 0 <=? e then n * 2 ^ e else 0) then Overflow
    else Finite n e.

(** Two doubles have the same value. *)
Definition same (x y : Double) : bool :=
  match x, y with
  | Finite n e, Finite n' e' =>
      let m := Z.min e e' in n * 2 ^ (e - m) =? n' * 2 ^ (e' - m)
  | Overflow, Overflow => true
  | _, _ => false
  end.

Definition fraction (x : Double) : Z * Z :=
  match x with
  | Finite n e => shift2 n 1 e
  | Overflow => (0, 1)
  end.

(** *** The shortest digits *)

(** The number [d] of decimal digits before the point,
    [10^(d-1) <= p / q < 10^d], searched upwards from [d]. *)
Fixpoint digits_from (fuel : nat) (p q d : Z) : Z :=
  match fuel with
  | O => d
  | S fuel' =>
      let '(a, b) := shift10 p q (- d) in
      if a <? b then d else digits_from fuel' p q (d + 1)
  end.

(** The search starts two below an estimate from the binary
    logarithms, which is off by less than one. *)
Definition magnitude (p q : Z) : Z :=
  digits_from 8 p q ((Z.log2 p - Z.log2 q) * 30103 / 100000 - 2).

(** [s * 10^(n-k)] rounds to [x]. *)
Definition reads_as (x : Double) (s n k : Z) : bool :=
  let '(a, b) := shift10 s 1 (n - k) in same (to_double a b) x.

(** The integers [s], [n] and [k] of [Number::toString]: [s] has [k]
    digits, [s * 10^(n-k)] rounds to [x], [k] is as small as possible,
    and of the values of that length [s] is the closest to [x], the even
    one on a tie.  [p / q] is [x] and [d] its magnitude.  For each
    length the two values next to [x] are tried, the one below and the
    one above. *)
Fixpoint shortest (fuel : nat) (x : Double) (p q d k : Z) : Z * Z * Z :=
  let '(a, b) := shift10 p q (k - d) in
  let lo := a / b in
  let hi := if a mod b =? 0 then lo else lo + 1 in
  let '(s_hi, n_hi) := if hi =? 10 ^ k then (10 ^ (k - 1), d + 1) else (hi, d) in
  let closer_lo :=
    let below := 2 * a - 2 * lo * b in
    let above := 2 * hi * b - 2 * a in
    if below <? above then true
    else if above <? below then false
    else Z.even lo in
  match fuel with
  | O => (lo, d, k)
  | S fuel' =>
      match reads_as x lo d k, reads_as x s_hi n_hi k with
      | true, true => if closer_lo then (lo, d, k) else (s_hi, n_hi, k)
      | true, false => (lo, d, k)
      | false, true => (s_hi, n_hi, k)
      | false, false => shortest fuel' x p q d (k + 1)
      end
  end.

(** *** Numerals *)

(** A decimal numeral as it is written: the digits before the point,
    those behind it (none when there is no point), and the exponent
    with its sign (set: minus), if there is one. *)
Record Numeral : Type := {
  n_neg : bool;
  n_int : Decimal.uint;
  n_frac : Decimal.uint;
  n_exp : option (bool * Decimal.uint);
}.

Definition print_frac (f : Decimal.uint) : string :=
  match f with
  | Decimal.Nil => ""
  | _ => "." +:+ NilEmpty.string_of_uint f
  end.

Definition print_exp (e : option (bool * Decimal.uint)) : string :=
  match e with
  | None => ""
  | Some (minus, d) =>
      "e" +:+ (if minus then "-" else "+") +:+ NilEmpty.string_of_uint d
  end.

Definition print (n : Numeral) : string :=
  (if n_neg n then "-" else "")
  +:+ NilEmpty.string_of_uint (n_int n)
  +:+ print_frac (n_frac n)
  +:+ print_exp (n_exp n).

Definition digit (d : Z) : Decimal.uint -> Decimal.uint :=
  match d with
  | 0 => Decimal.D0 | 1 => Decimal.D1 | 2 => Decimal.D2 | 3 => Decimal.D3
  | 4 => Decimal.D4 | 5 => Decimal.D5 | 6 => Decimal.D6 | 7 => Decimal.D7
  | 8 => Decimal.D8 | _ => Decimal.D9
  end.

(** The last [len] decimal digits of [x] in front of [acc]. *)
Fixpoint fixed (len : nat) (x : Z) (acc : Decimal.uint) : Decimal.uint :=
  match len with
  | O => acc
  | S len' => fixed len' (x / 10) (digit (x mod 10) acc)
  end.

Definition dec (z : Z) : Decimal.uint := N.to_uint (Z.to_N z).

(** [Number::toString] of a positive finite double: the digits [s]
    with [n - k] zeros behind them when [k <= n <= 21]; with a point
    behind the first [n] of them when [0 < n <= 21]; behind [0.] and
    [-n] zeros when [-6 < n <= 0]; and otherwise the first digit, the
    others behind a point, and the exponent [n - 1] with its sign. *)
Definition numeral_of (neg : bool) (x : Double) : Numeral :=
  let '(p, q) := fraction x in
  let '(s, n, k) := shortest 17 x p q (magnitude p q) 1 in
  if (k <=? n) && (n <=? 21) then
    {| n_neg := neg; n_int := dec (s * 10 ^ (n - k));
       n_frac := Decimal.Nil; n_exp := None |}
  else if (0 <? n) && (n <=? 21) then
    {| n_neg := neg; n_int := dec (s / 10 ^ (k - n));
       n_frac := fixed (Z.to_nat (k - n)) s Decimal.Nil; n_exp := None |}
  else if (-6 <? n) && (n <=? 0) then
    {| n_neg := neg; n_int := dec 0;
       n_frac := fixed (Z.to_nat (k - n)) s Decimal.Nil; n_exp := None |}
  else
    {| n_neg := neg; n_int := dec (s / 10 ^ (k - 1));
       n_frac := fixed (Z.to_nat (k - 1)) s Decimal.Nil;
       n_exp := Some (n - 1 <? 0, dec (Z.abs (n - 1))) |}.

Definition zero : Numeral :=
  {| n_neg := false; n_int := dec 0; n_frac := Decimal.Nil; n_exp := None |}.

(** A number from the point of view of its text: not a number, an
    infinity, or a numeral. *)
Inductive Shown : Type :=
| SNaN
| SInfinity (neg : bool)
| SNumeral (n : Numeral).

(** The number nearest to [p / q], negated when [neg] is set
    ([0 <= p], [0 < q]); zero has no sign in its text. *)
Definition shown_fraction (neg : bool) (p q : Z) : Shown :=
  match to_double p q with
  | Overflow => SInfinity neg
  | Finite 0 _ => SNumeral zero
  | x => SNumeral (numeral_of neg x)
  end.

Definition shown_int (z : Z) : Shown := shown_fraction (z <? 0) (Z.abs z) 1.

Definition shown_float (x : Float) : Shown :=
  match x with
  | FNaN => SNaN
  | FInf neg => SInfinity neg
  | FDyadic neg m k => shown_fraction neg (Z.pos m) (2 ^ Z.pos k)
  end.

(** [Number::toString]. *)
Definition show (x : Shown) : string :=
  match x with
  | SNaN => "NaN"
  | SInfinity neg => if neg then "-Infinity" else "Infinity"
  | SNumeral n => print n
  end.

Definition show_int (z : Z) : string := show (shown_int z).
Definition show_float (x : Float) : string := show (shown_float x).

(** *** Reading a numeral *)

(** The digit a character stands for, as the step it adds in front of
    the digits behind it. *)
Definition digit_of (c : ascii) : option (Decimal.uint -> Decimal.uint) :=
  if Ascii.eqb c "0" then Some Decimal.D0
  else if Ascii.eqb c "1" then Some Decimal.D1
  else if Ascii.eqb c "2" then Some Decimal.D2
  else if Ascii.eqb c "3" then Some Decimal.D3
  else if Ascii.eqb c "4" then Some Decimal.D4
  else if Ascii.eqb c "5" then Some Decimal.D5
  else if Ascii.eqb c "6" then Some Decimal.D6
  else if Ascii.eqb c "7" then Some Decimal.D7
  else if Ascii.eqb c "8" then Some Decimal.D8
  else if Ascii.eqb c "9" then Some Decimal.D9
  else None.

(** The longest run of digits at the start of [s], and what follows. *)
Fixpoint read_digits (s : string) : Decimal.uint * string :=
  match s with
  | String c s' =>
      match digit_of c with
      | Some d => let '(u, r) := read_digits s' in (d u, r)
      | None => (Decimal.Nil, s)
      end
  | EmptyString => (Decimal.Nil, EmptyString)
  end.

(** The digits before the point of a numeral: at least one, and no zero
    in front of another digit. *)
Definition int_ok (u : Decimal.uint) : bool :=
  match u with
  | Decimal.Nil => false
  | Decimal.D0 Decimal.Nil => true
  | Decimal.D0 _ => false
  | _ => true
  end.

(** There is at least one digit. *)
Definition some_digits (u : Decimal.uint) : bool :=
  match u with Decimal.Nil => false | _ => true end.

(** The fraction of a numeral: nothing, or a point and at least one
    digit. *)
Definition read_frac (s : string) : option (Decimal.uint * string) :=
  match Str.strip "." s with
  | Some r =>
      let '(f, r') := read_digits r in
      if some_digits f then Some (f, r') else None
  | None => Some (Decimal.Nil, s)
  end.

(** The exponent of a numeral: nothing, or [e] or [E], a sign or none,
    and at least one digit. *)
Definition read_exp (s : string) : option (option (bool * Decimal.uint) * string) :=
  match s with
  | String c r =>
      if Ascii.eqb c "e" || Ascii.eqb c "E" then
        let '(minus, r) :=
          match Str.strip "-" r, Str.strip "+" r with
          | Some r', _ => (true, r')
          | None, Some r' => (false, r')
          | None, None => (false, r)
          end in
        let '(e, r') := read_digits r in
        if some_digits e then Some (Some (minus, e), r') else None
      else Some (None, s)
  | EmptyString => Some (None, s)
  end.

(** The numeral at the start of [s], by the grammar of JSON numbers, and
    what follows it. *)
Definition read (s : string) : option (Numeral * string) :=
  let '(neg, s) :=
    match Str.strip "-" s with Some r => (true, r) | None => (false, s) end in
  let '(i, s) := read_digits s in
  if int_ok i then
    match read_frac s with
    | Some (f, s) =>
        match read_exp s with
        | Some (e, s) =>
            Some ({| n_neg := neg; n_int := i; n_frac := f; n_exp := e |}, s)
        | None => None
        end
    | None => None
    end
  else None.

(** A numeral that [print] writes by the grammar. *)
Definition wf (n : Numeral) : Prop :=
  int_ok (n_int n) = true /\
  match n_exp n with Some (_, e) => some_digits e = true | None => True end.

(** What may follow a numeral: nothing that would continue it. *)
Definition ends_number (r : string) : Prop :=
  match r with
  | EmptyString => True
  | String c _ =>
      digit_of c = None /\ Ascii.eqb c "." = false
      /\ Ascii.eqb c "e" = false /\ Ascii.eqb c "E" = false
      /\ Ascii.eqb c "-" = false /\ Ascii.eqb c "+" = false
  end.

(** What may follow a run of digits. *)
Definition no_digit (r : string) : Prop :=
  match r with
  | EmptyString => True
  | String c _ => digit_of c = None
  end.

End Num.

(* ================================================================== *)
(** * JavaScript values as the client sees them *)
(* ================================================================== *)

(** Values that travel through the client unchanged (test ids, titles,
    step traces, file references, artifacts).  [JNum z] is the number
    whose value is the integer [z], the double nearest to it when [z] is
    none ([-0] is [JNum 0]: the client cannot tell it from [0]);
    [JFloat x] is a number that is no integer.  [JObj a] is a reference
    to an object or array of the caller's heap. *)
Inductive jsval : Type :=
| JUndefined
| JNull
| JBool (b : bool)
| JNum (z : Z)
| JFloat (x : Num.Float)
| JStr (s : string)
| JObj (a : nat).

#[global] Instance jsval_eq_dec : EqDecision jsval.
Proof. solve_decision. Defined.

(** ToBoolean, as used by [if (x)], [!x], [x && y] and [x || y]. *)
Definition truthy (v : jsval) : bool :=
  match v with
  | JUndefined | JNull => false
  | JBool b => b
  | JNum z => negb (Z.eqb z 0)
  | JFloat x => match x with Num.FNaN => false | _ => true end
  | JStr s => negb (String.eqb s "")
  | JObj _ => true
  end.

(** Properties of [process.env] and the string fields of the client are
    either absent or strings. *)
Definition truthy_str (o : option string) : bool :=
  match o with
  | Some s => negb (String.eqb s "")
  | None => false
  end.

(** [a || b] on such properties. *)
Definition or_else (a b : option string) : option string :=
  if truthy_str a then a else b.

(** Template-literal interpolation of an optional string. *)
Definition interp (o : option string) : string :=
  match o with
  | Some s => s
  | None => "undefined"
  end.

(** [x === y] on values (no object is compared by the client); [NaN]
    is equal to nothing. *)
Definition strict_eq (x y : jsval) : bool :=
  match x with
  | JFloat Num.FNaN => false
  | _ => bool_decide (x = y)
  end.

(** A promise is represented by the way it eventually settles. *)
Inductive Settled (A E : Type) : Type :=
| Resolves (a : A)
| Rejects (e : E).
Arguments Resolves {A E} a.
Arguments Rejects {A E} e.

(* ================================================================== *)
(** * Errors and transport responses *)
(* ================================================================== *)

(** [err.response] of a rejected axios request: the status code and
    what the handlers read of [err.response.data].  [None]: the body is
    [null] or [undefined], and reading its [message] throws.  [Some m]:
    [m] is the text a handler prints for the message of the body, that
    is [data.message] in a template literal, taken from the stand-in
    [{ message: '' }] when the status is 400 or more and the body is
    falsy. *)
Record ErrResponse : Type := {
  er_status : Z;
  er_data : option string;
}.

Inductive JsError : Type :=
| AxiosError (response : option ErrResponse)
| TypeError (what : string)
| OtherError (what : string).

Definition err_response (e : JsError) : option ErrResponse :=
  match e with
  | AxiosError r => r
  | TypeError _ | OtherError _ => None
  end.

(** [resp.data] of a fulfilled request; only the create request reads it. *)
Record RunData : Type := {
  rd_uid : option string;
  rd_url : option string;
}.

Record Response : Type := {
  r_status : Z;
  r_data : option RunData;
}.

Definition Outcome : Type := Settled Response JsError.

(* ================================================================== *)
(** * The environment of the module *)
(* ================================================================== *)

(** [chalk]: the five styles used for the diagnostic text. *)
Record Chalk : Type := {
  bold : string -> string;
  bold_green : string -> string;
  bold_red : string -> string;
  red : string -> string;
  green : string -> string;
}.

(** chalk without colour support leaves the text as it is. *)
Definition plain_chalk : Chalk :=
  {| bold := id; bold_green := id; bold_red := id; red := id; green := id |}.

(** The error object of a failed test, as far as [addTestRun] reads it:
    [message], the result of [inspect()] when the error has that method,
    and the properties [actual] and [expected]. *)
Record ErrorObj : Type := {
  e_message : string;
  e_inspect : option string;
  e_actual : jsval;
  e_expected : jsval;
}.

(** What [createCallsiteRecord({forError})] followed by [renderSync] does. *)
Inductive Callsite : Type :=
| CsNone                      (* no record for this error *)
| CsRendered (text : string)  (* the rendered, filtered stack *)
| CsThrows (e : JsError).     (* creating or rendering the record throws *)

(** Collaborators and module-level constants.  [PASSED] and [FAILED] come
    from [./constants], [uploadFile] from [./fileUploader]. *)
Record Env : Type := {
  TESTOMATIO_URL : option string;
  TESTOMATIO_RUNGROUP_TITLE : option string;
  TESTOMATIO_ENV : option string;
  TESTOMATIO_RUN : option string;
  TESTOMATIO : option string;
  TESTOMATIO_TITLE : option string;
  ENV_runId : option string;              (* [process.env.runId] at start-up *)
  url_parses : string -> bool;            (* [new URL(s)] does not throw *)
  chalk : Chalk;
  callsiteRecord : ErrorObj -> Callsite;
  uploadFile : jsval -> string -> Settled jsval JsError;
  obj_toString : nat -> string;           (* [String(o)] of a heap object *)
}.

(** Modelled from the spec: the constant [PASSED] of [./constants], a file
    that is not among the sources at hand; the spec names the enumerated
    statuses [passed] and [failed]. *)
Definition PASSED : jsval := JStr "passed".

(** Modelled from the spec: the constant [FAILED] of [./constants], as for
    [PASSED]. *)
Definition FAILED : jsval := JStr "failed".

(* ================================================================== *)
(** * Data of the client *)
(* ================================================================== *)

(** [params] of the constructor. *)
Record Params : Type := {
  p_apiKey : option string;
  p_title : option string;
  p_parallel : jsval;
}.

(** Body of the create and of the resume request ([runParams]). *)
Record RunParams : Type := {
  rp_api_key : string;
  rp_title : option string;
  rp_parallel : jsval;
  rp_group_title : option string;
  rp_env : option string;
}.

(** [testData], the result descriptor handed to [addTestRun], before the
    defaults of the destructuring pattern are applied. *)
Record TestData : Type := {
  td_message : option string;
  td_error : option ErrorObj;
  td_time : jsval;
  td_example : jsval;
  td_files : option (list jsval);
  td_steps : jsval;
  td_title : jsval;
  td_suite_title : jsval;
  td_suite_id : jsval;
  td_test_id : jsval;
}.

(** The object handed to [JsonCycle.stringify]. *)
Record Payload : Type := {
  api_key : option string;
  files : list jsval;
  steps : jsval;
  status : jsval;
  stack : jsval;
  example : jsval;
  title : jsval;
  suite_title : jsval;
  suite_id : jsval;
  test_id : jsval;
  message : string;
  run_time : jsval;
  artifacts : list jsval;
}.

Record StatusBody : Type := {
  sb_api_key : option string;
  sb_status_event : option string;
  sb_status : jsval;
}.

(** Requests handed to the transport (axios). *)
Inductive Request : Type :=
| PutRun (url : string) (body : RunParams)
| PostRun (url : string) (body : RunParams)
| PostTestrun (url : string) (body : Payload)
| PutStatus (url : string) (body : StatusBody).

(** The variables an [addTestRun] task closes over. *)
Record AddClosure : Type := {
  cl_files : list jsval;
  cl_steps : jsval;
  cl_status : jsval;
  cl_stack : jsval;
  cl_example : jsval;
  cl_title : jsval;
  cl_suite_title : jsval;
  cl_suite_id : jsval;
  cl_test_id : jsval;
  cl_message : string;
  cl_time : jsval;
  cl_uploadedFiles : list (Settled jsval JsError);
}.

(** One link pair of the chain: the reaction passed to [then], with the
    [catch] that follows it for every task but [TUpdateRun]. *)
Inductive Task : Type :=
| TUpdateRun (rid : string) (runParams : RunParams)
| TCreateRun (runParams : RunParams)
| TAddTestRun (cl : AddClosure)
| TUpdateStatus (status isParallel : jsval).

(** A task suspended at an [await] or on the promise it returned. *)
Inductive Running : Type :=
| AwaitUploads (cl : AddClosure)
| AwaitResponse (t : Task).

Inductive Settlement : Type :=
| Fulfilled
| Rejected (e : JsError).

Inductive LogMsg : Type :=
| LogInvalidUrl
| LogReportCreated (rid : option string)
| LogCreateError
| LogCallsite (e : JsError)
| LogNotProcessedStatus (title : jsval) (status : Z) (msg : string)
| LogNotProcessedMessage (title : jsval) (msg : string)
| LogNotProcessed (title : jsval) (e : JsError)
| LogReportSaved (url : string)
| LogStatusError (e : JsError).

(** What the outside world observes, in the order it happens. *)
Inductive Event : Type :=
| ELog (m : LogMsg)
| EUpload (file : jsval) (rid : string)
| ESend (req : Request)
| ERecv (o : Outcome).

(** What a call gives back to its caller. *)
Inductive Ret : Type :=
| RetThrows (e : JsError)
| RetUndefined
| RetResolved (v : string)     (* [Promise.resolve(v)] *)
| RetQueue (n : nat).          (* the chain after the [n]th task *)

(** [this] *)
Record Client : Type := {
  apiKey : option string;
  c_title : option string;
  parallel : jsval;
  runId : option string;
  runUrl : option string;
}.

Record State : Type := {
  this : Client;
  proc_runId : option string;        (* [process.env.runId] *)
  results : list Settlement;         (* how each finished task left the chain *)
  running : option Running;
  pending : list Task;
  trace : list Event;                (* newest first *)
  returned : list Ret;               (* newest first *)
}.

Definition with_runId (c : Client) (r : option string) : Client :=
  {| apiKey := apiKey c; c_title := c_title c; parallel := parallel c;
     runId := r; runUrl := runUrl c |}.

Definition with_runUrl (c : Client) (u : option string) : Client :=
  {| apiKey := apiKey c; c_title := c_title c; parallel := parallel c;
     runId := runId c; runUrl := u |}.

Definition set_this (c : Client) (s : State) : State :=
  {| this := c; proc_runId := proc_runId s; results := results s;
     running := running s; pending := pending s; trace := trace s;
     returned := returned s |}.

Definition set_proc_runId (r : option string) (s : State) : State :=
  {| this := this s; proc_runId := r; results := results s;
     running := running s; pending := pending s; trace := trace s;
     returned := returned s |}.

Definition emit (e : Event) (s : State) : State :=
  {| this := this s; proc_runId := proc_runId s; results := results s;
     running := running s; pending := pending s; trace := e :: trace s;
     returned := returned s |}.

Definition give (r : Ret) (s : State) : State :=
  {| this := this s; proc_runId := proc_runId s; results := results s;
     running := running s; pending := pending s; trace := trace s;
     returned := r :: returned s |}.

Definition set_pending (p : list Task) (s : State) : State :=
  {| this := this s; proc_runId := proc_runId s; results := results s;
     running := running s; pending := p; trace := trace s;
     returned := returned s |}.

Definition set_running (r : option Running) (s : State) : State :=
  {| this := this s; proc_runId := proc_runId s; results := results s;
     running := r; pending := pending s; trace := trace s;
     returned := returned s |}.

(** The running task settles the chain. *)
Definition settle (st : Settlement) (s : State) : State :=
  {| this := this s; proc_runId := proc_runId s; results := results s ++ [st];
     running := None; pending := pending s; trace := trace s;
     returned := returned s |}.

(** Number of tasks enqueued so far. *)
Definition ntasks (s : State) : nat :=
  length (results s) + (match running s with Some _ => 1 | None => 0 end)
  + length (pending s).

(** [this.queue = this.queue.then(...)]: the new task goes to the tail. *)
Definition enqueue (t : Task) (s : State) : State :=
  set_pending (pending s ++ [t]) s.

(** State of the tail promise once every task before it has settled
    ([Promise.resolve()] for a new client). *)
Definition chain (s : State) : Settlement := default Fulfilled (last (results s)).

(* ================================================================== *)
(** * The client *)
(* ================================================================== *)

Section Client.

Context (env : Env).

(** [process.env.TESTOMATIO_URL || "https://app.testomat.io"] *)
Definition TESTOMAT_URL : string :=
  default "https://app.testomat.io"
    (or_else (TESTOMATIO_URL env) (Some "https://app.testomat.io")).

Definition isValidUrl (s : string) : bool := url_parses env s.

(** [String(v)], as a template literal and [toString()] compute it. *)
Definition to_string (v : jsval) : string :=
  match v with
  | JUndefined => "undefined"
  | JNull => "null"
  | JBool true => "true"
  | JBool false => "false"
  | JNum z => Num.show_int z
  | JFloat x => Num.show_float x
  | JStr s => s
  | JObj a => obj_toString env a
  end.

(** [process.env.runId] once the module is loaded:
    [if (TESTOMATIO_RUN) process.env.runId = TESTOMATIO_RUN]. *)
Definition loaded_runId : option string :=
  if truthy_str (TESTOMATIO_RUN env) then TESTOMATIO_RUN env else ENV_runId env.

(** The constructor. *)
Definition new_client (params : Params) : State :=
  {| this := {| apiKey := or_else (p_apiKey params) (TESTOMATIO env);
                c_title := or_else (p_title params) (TESTOMATIO_TITLE env);
                parallel := p_parallel params;
                runId := loaded_runId;
                runUrl := None |};
     proc_runId := loaded_runId;
     results := [];
     running := None;
     pending := [];
     trace := [];
     returned := [] |}.

(** ** createRun *)

Definition run_url (rid : string) : string :=
  Str.trim TESTOMAT_URL +:+ "/api/reporter/" +:+ rid.

Definition create_url : string := Str.trim TESTOMAT_URL +:+ "/api/reporter".

Definition createRun (s : State) : State :=
  match apiKey (this s) with
  | None =>
      give (RetThrows (TypeError "Cannot read properties of undefined (reading 'trim')")) s
  | Some key =>
      let runParams :=
        {| rp_api_key := Str.trim key;
           rp_title := c_title (this s);
           rp_parallel := parallel (this s);
           rp_group_title := TESTOMATIO_RUNGROUP_TITLE env;
           rp_env := TESTOMATIO_ENV env |} in
      if negb (isValidUrl (Str.trim TESTOMAT_URL)) then
        give RetUndefined (emit (ELog LogInvalidUrl) s)
      else if truthy_str (proc_runId s) then
        let rid := interp (proc_runId s) in
        give (RetResolved rid)
          (enqueue (TUpdateRun rid runParams)
             (set_this (with_runId (this s) (Some rid)) s))
      else
        let n := ntasks s in
        give (RetQueue n) (enqueue (TCreateRun runParams) s)
  end.

(** ** addTestRun: the diagnostic text *)

Definition diff_block (actual expected : jsval) : string :=
  (Str.nl +:+ Str.nl +:+ bold_green (chalk env) "+ expected" +:+ " "
     +:+ bold_red (chalk env) "- actual")
  +:+ (Str.nl +:+ red (chalk env)
         ("- " +:+ Str.join (Str.nl +:+ "- ") (Str.split Str.LF (to_string actual))))
  +:+ (Str.nl +:+ green (chalk env)
         ("+ " +:+ Str.join (Str.nl +:+ "+ ") (Str.split Str.LF (to_string expected))))
  +:+ (Str.nl +:+ Str.nl).

(** The [if (error) { ... }] block: the final [message], the text of
    [stack] and what was logged. *)
Definition format_error (message : string) (error : ErrorObj)
  : string * string * list Event :=
  let message := if String.eqb message "" then e_message error else message in
  let message := match e_inspect error with Some m => m | None => message end in
  let stack := Str.nl +:+ bold (chalk env) message +:+ Str.nl in
  let stack :=
    if truthy (e_actual error) && truthy (e_expected error)
    then stack +:+ diff_block (e_actual error) (e_expected error)
    else stack in
  match callsiteRecord env error with
  | CsNone => (message, stack, [])
  | CsRendered text => (message, stack +:+ text, [])
  | CsThrows e => (message, stack, [ELog (LogCallsite e)])
  end.

Definition failure_banner : string :=
  "################[ Failure ]################".

(** The [if (steps) { ... }] block. *)
Definition with_steps (steps : jsval) (stack : string) : jsval :=
  if truthy steps then
    if negb (String.eqb stack "") then
      JStr (to_string steps +:+ Str.nl +:+ Str.nl
            +:+ bold_red (chalk env) failure_banner +:+ Str.nl +:+ stack)
    else steps
  else JStr stack.

(** Defaults of the destructuring pattern. *)
Definition default_val (d v : jsval) : jsval :=
  match v with JUndefined => d | _ => v end.

(** [testData.test_id = testId] when [testId] is truthy. *)
Definition assign_test_id (testId : jsval) (td : TestData) : TestData :=
  if truthy testId then
    {| td_message := td_message td; td_error := td_error td;
       td_time := td_time td; td_example := td_example td;
       td_files := td_files td; td_steps := td_steps td;
       td_title := td_title td; td_suite_title := td_suite_title td;
       td_suite_id := td_suite_id td; td_test_id := testId |}
  else td.

(** The synchronous part of [addTestRun], up to the point where the task
    is appended: the closure of the task, the result descriptor as the
    caller sees it afterwards, and the events (logs, uploads). *)
Definition addTestRun_prepare (c : Client) (testId status : jsval) (td : TestData)
  : AddClosure * TestData * list Event :=
  let message := default "" (td_message td) in
  let files := default [] (td_files td) in
  let test_id := td_test_id td in
  let td' := assign_test_id testId td in
  let '(message, stack, logs) :=
    match td_error td with
    | Some error => format_error message error
    | None => (message, "", [])
    end in
  let stack := with_steps (td_steps td) stack in
  let rid := interp (runId c) in
  let uploads :=
    if truthy_str (runId c) then files else [] in
  ({| cl_files := files;
      cl_steps := td_steps td;
      cl_status := status;
      cl_stack := stack;
      cl_example := default_val JNull (td_example td);
      cl_title := td_title td;
      cl_suite_title := td_suite_title td;
      cl_suite_id := td_suite_id td;
      cl_test_id := test_id;
      cl_message := message;
      cl_time := default_val (JStr "") (td_time td);
      cl_uploadedFiles := (fun f => uploadFile env f rid) <$> uploads |},
   td',
   logs ++ ((fun f => EUpload f rid) <$> uploads)).

Definition emit_all (evs : list Event) (s : State) : State :=
  foldl (fun s e => emit e s) s evs.

Definition addTestRun (testId status : jsval) (td : TestData) (s : State) : State :=
  let '(cl, _, evs) := addTestRun_prepare (this s) testId status td in
  let s := emit_all evs s in
  let n := ntasks s in
  give (RetQueue n) (enqueue (TAddTestRun cl) s).

(** ** updateRunStatus *)

Definition updateRunStatus (status isParallel : jsval) (s : State) : State :=
  let n := ntasks s in
  give (RetQueue n) (enqueue (TUpdateStatus status isParallel) s).

(** ** The tasks, once the chain reaches them *)

Definition testrun_url (rid : option string) : string :=
  TESTOMAT_URL +:+ "/api/reporter/" +:+ interp rid +:+ "/testrun".

Definition status_url (rid : option string) : string :=
  TESTOMAT_URL +:+ "/api/reporter/" +:+ interp rid.

(** The status-event tag of [updateRunStatus]; [+=] on an undefined tag
    concatenates the text [undefined]. *)
Definition statusEvent (status isParallel : jsval) : option string :=
  let ev := None in
  let ev := if strict_eq status PASSED then Some "pass" else ev in
  let ev := if strict_eq status FAILED then Some "fail" else ev in
  if truthy isParallel then Some (interp ev +:+ "_parallel") else ev.

(** [Promise.all]: the values in order, or the first rejection. *)
Fixpoint promise_all (l : list (Settled jsval JsError)) : Settled (list jsval) JsError :=
  match l with
  | [] => Resolves []
  | Rejects e :: _ => Rejects e
  | Resolves a :: rest =>
      match promise_all rest with
      | Resolves vs => Resolves (a :: vs)
      | Rejects e => Rejects e
      end
  end.

Definition payload_of (c : Client) (cl : AddClosure) (arts : list jsval) : Payload :=
  {| api_key := apiKey c;
     files := cl_files cl;
     steps := cl_steps cl;
     status := cl_status cl;
     stack := cl_stack cl;
     example := cl_example cl;
     title := cl_title cl;
     suite_title := cl_suite_title cl;
     suite_id := cl_suite_id cl;
     test_id := cl_test_id cl;
     message := cl_message cl;
     run_time := cl_time cl;
     artifacts := arts |}.

(** The [catch] of [createRun]: what it logs and how it leaves the
    chain. *)
Definition catch_create : list Event * Settlement :=
  ([ELog LogCreateError], Fulfilled).

(** The [catch] of [addTestRun]; reading [message] of an absent body
    throws inside the handler when the status is below 400. *)
Definition catch_add (title : jsval) (err : JsError) : list Event * Settlement :=
  match err_response err with
  | Some r =>
      if (400 <=? er_status r)%Z then
        ([ELog (LogNotProcessedStatus title (er_status r) (default "" (er_data r)))],
         Fulfilled)
      else
        match er_data r with
        | Some m => ([ELog (LogNotProcessedMessage title m)], Fulfilled)
        | None =>
            ([], Rejected
                   (TypeError "Cannot read properties of undefined (reading 'message')"))
        end
  | None => ([ELog (LogNotProcessed title err)], Fulfilled)
  end.

(** The [catch] of [updateRunStatus]. *)
Definition catch_status (err : JsError) : list Event * Settlement :=
  ([ELog (LogStatusError err)], Fulfilled).

(** The handler that meets a rejection at task [t]: its [catch], or
    nothing at all for the resume request of [createRun], which has
    none. *)
Definition handler (t : Task) (err : JsError) : list Event * Settlement :=
  match t with
  | TUpdateRun _ _ => ([], Rejected err)
  | TCreateRun _ => catch_create
  | TAddTestRun cl => catch_add (cl_title cl) err
  | TUpdateStatus _ _ => catch_status err
  end.

(** The promise in front of the handler of [t] is rejected with [err]. *)
Definition rejected (t : Task) (err : JsError) (s : State) : State :=
  settle (handler t err).2 (emit_all (handler t err).1 s).

(** The reaction of [createRun] to the response of the create request;
    an exception thrown here is met by the [catch] that follows. *)
Definition created (t : Task) (resp : Response) (s : State) : State :=
  match r_data resp with
  | None =>
      rejected t (TypeError "Cannot read properties of undefined (reading 'uid')") s
  | Some d =>
      let s := set_this (with_runId (this s) (rd_uid d)) s in
      match rd_url d with
      | None =>
          rejected t
            (TypeError "Cannot read properties of undefined (reading 'split')") s
      | Some u =>
          let url := TESTOMAT_URL +:+ "/"
                     +:+ Str.join "/" (Str.splice_from 3 (Str.split "/" u)) in
          let s := set_this (with_runUrl (this s) (Some url)) s in
          let s := emit (ELog (LogReportCreated (runId (this s)))) s in
          let s := set_proc_runId (Some (interp (runId (this s)))) s in
          settle Fulfilled s
      end
  end.

(** The request of task [t] is fulfilled with [resp]. *)
Definition fulfilled (t : Task) (resp : Response) (s : State) : State :=
  match t with
  | TCreateRun _ => created t resp s
  | TUpdateStatus _ _ =>
      settle Fulfilled
        (if truthy_str (runUrl (this s))
         then emit (ELog (LogReportSaved (interp (runUrl (this s))))) s
         else s)
  | TUpdateRun _ _ | TAddTestRun _ => settle Fulfilled s
  end.

Definition send (req : Request) (t : Task) (s : State) : State :=
  set_running (Some (AwaitResponse t)) (emit (ESend req) s).

(** The [then] reaction of task [t] starts. *)
Definition reaction (t : Task) (s : State) : State :=
  match t with
  | TUpdateRun rid runParams => send (PutRun (run_url rid) runParams) t s
  | TCreateRun runParams => send (PostRun create_url runParams) t s
  | TAddTestRun cl =>
      if negb (truthy_str (runId (this s))) then settle Fulfilled s
      else set_running (Some (AwaitUploads cl)) s
  | TUpdateStatus status isParallel =>
      if truthy_str (runId (this s)) then
        send (PutStatus (status_url (runId (this s)))
                {| sb_api_key := apiKey (this s);
                   sb_status_event := statusEvent status isParallel;
                   sb_status := status |}) t s
      else settle Fulfilled s
  end.

(** The chain reaches task [t]: a rejected chain skips the [then]
    reaction and goes to the handler. *)
Definition start_task (t : Task) (s : State) : State :=
  match chain s with
  | Rejected e => rejected t e s
  | Fulfilled => reaction t s
  end.

(** [await Promise.all(uploadedFiles)] returns or throws. *)
Definition uploads_settled (cl : AddClosure) (s : State) : State :=
  match promise_all (cl_uploadedFiles cl) with
  | Resolves arts =>
      send (PostTestrun (testrun_url (runId (this s))) (payload_of (this s) cl arts))
        (TAddTestRun cl) s
  | Rejects e => rejected (TAddTestRun cl) e s
  end.

(** The transport settles the request of task [t]. *)
Definition response_arrives (t : Task) (o : Outcome) (s : State) : State :=
  match o with
  | Resolves resp => fulfilled t resp s
  | Rejects e => rejected t e s
  end.

(** One turn of the event loop.  [o] is how the transport settles the
    request in flight, when this turn is the one that settles it. *)
Definition tick (o : Outcome) (s : State) : State :=
  match running s with
  | Some (AwaitUploads cl) => uploads_settled cl s
  | Some (AwaitResponse t) => response_arrives t o (emit (ERecv o) s)
  | None =>
      match pending s with
      | [] => s
      | t :: rest => start_task t (set_pending rest s)
      end
  end.

(** ** Schedules *)

Inductive Call : Type :=
| CreateRun
| AddTestRun (testId status : jsval) (td : TestData)
| UpdateRunStatus (status isParallel : jsval).

Inductive Step : Type :=
| Do (c : Call)
| Tick (o : Outcome).

Definition call (c : Call) (s : State) : State :=
  match c with
  | CreateRun => createRun s
  | AddTestRun testId status td => addTestRun testId status td s
  | UpdateRunStatus status isParallel => updateRunStatus status isParallel s
  end.

Definition step (s : State) (x : Step) : State :=
  match x with
  | Do c => call c s
  | Tick o => tick o s
  end.

Definition run (sched : list Step) (s : State) : State := foldl step s sched.

(** The calls of a schedule, in order. *)
Definition calls_of (sched : list Step) : list Call :=
  omap (fun x => match x with Do c => Some c | Tick _ => None end) sched.

(** ** Observations *)

(** The events in the order they happened. *)
Definition history (s : State) : list Event := reverse (trace s).

Definition sends (evs : list Event) : list Request :=
  omap (fun e => match e with ESend r => Some r | _ => None end) evs.

Definition uploads (evs : list Event) : list (jsval * string) :=
  omap (fun e => match e with EUpload f r => Some (f, r) | _ => None end) evs.

(** Requests handed to the transport and not yet settled. *)
Fixpoint in_flight (evs : list Event) : Z :=
  match evs with
  | [] => 0
  | ESend _ :: evs => in_flight evs + 1
  | ERecv _ :: evs => in_flight evs - 1
  | _ :: evs => in_flight evs
  end.

Definition drained (s : State) : Prop := running s = None /\ pending s = [].

(** How the future a call returned has settled, if it has. *)
Definition future_state (s : State) (r : Ret) : option Settlement :=
  match r with
  | RetThrows _ | RetUndefined => None
  | RetResolved _ => Some Fulfilled
  | RetQueue n => results s !! n
  end.

End Client.

(* ================================================================== *)
(** * Cycle-safe serialisation of the payload *)
(* ================================================================== *)

(** [JsonCycle.stringify] belongs to the package [json-cycle], which the
    client only calls.  Its pass over the object graph follows the
    description the specification gives of it; the text it returns is
    that of [JSON.stringify], and [JSON.parse] is what a consumer reads
    it with. *)
Module JsonCycle.

(** An object of the caller's heap: an array, or a record of named
    fields, in the order in which the language enumerates them
    ([Object.keys]), each key once.  A value [JObj a] refers to the
    object at address [a], and nothing prevents an object from reaching
    itself. *)
Inductive node : Type :=
| NArr (elems : list jsval)
| NObj (fields : list (string * jsval)).

#[global] Instance node_eq_dec : EqDecision node.
Proof. solve_decision. Defined.

Abbreviation heap := (gmap nat node).

(** One step from an object to a member. *)
Inductive seg : Type :=
| Idx (i : nat)
| Key (k : string).

#[global] Instance seg_eq_dec : EqDecision seg.
Proof. solve_decision. Defined.

Abbreviation path := (list seg).

(** The finite tree that is written out.  [TRef p] is the reference
    marker: it stands for the object first met at path [p] from the
    root. *)
#[warnings="-register-all"]
Inductive tree : Type :=
| TUndefined
| TNull
| TBool (b : bool)
| TNum (z : Z)
| TFloat (x : Num.Float)
| TStr (s : string)
| TNode (is_array : bool) (kids : list (seg * tree))
| TRef (p : path).

Definition children (n : node) : list (seg * jsval) :=
  match n with
  | NArr elems => imap (fun i v => (Idx i, v)) elems
  | NObj fields => (fun kv => (Key kv.1, kv.2)) <$> fields
  end.

Definition is_arr (n : node) : bool :=
  match n with NArr _ => true | NObj _ => false end.

Definition prim (v : jsval) : tree :=
  match v with
  | JUndefined => TUndefined
  | JNull => TNull
  | JBool b => TBool b
  | JNum z => TNum z
  | JFloat x => TFloat x
  | JStr s => TStr s
  | JObj _ => TUndefined
  end.

(** The members of one object, left to right, threading the table of the
    objects already visited. *)
Fixpoint derez_kids
  (rec : gmap nat path -> jsval -> path -> option (gmap nat path * tree))
  (p : path) (kids : list (seg * jsval)) (seen : gmap nat path)
  : option (gmap nat path * list (seg * tree)) :=
  match kids with
  | [] => Some (seen, [])
  | (sg, v) :: rest =>
      match rec seen v (p ++ [sg]) with
      | None => None
      | Some (seen1, t) =>
          match derez_kids rec p rest seen1 with
          | None => None
          | Some (seen2, ts) => Some (seen2, (sg, t) :: ts)
          end
      end
  end.

(** Modelled from the spec: the pass of [json-cycle] that replaces repeat
    visits; that package is not among the sources at hand.  The spec: a
    serialization pass that tracks visited object identity and replaces
    repeat visits with a stable reference token.  [seen] maps each visited
    address to the path of its first visit; [None] is returned when the
    fuel runs out or an address is not in the heap. *)
Fixpoint derez (fuel : nat) (h : heap) (seen : gmap nat path) (v : jsval) (p : path)
  : option (gmap nat path * tree) :=
  match v with
  | JObj a =>
      match seen !! a with
      | Some q => Some (seen, TRef q)
      | None =>
          match fuel, h !! a with
          | S fuel', Some n =>
              match derez_kids (derez fuel' h) p (children n) (<[a := p]> seen) with
              | Some (seen', ts) => Some (seen', TNode (is_arr n) ts)
              | None => None
              end
          | _, _ => None
          end
      end
  | _ => Some (seen, prim v)
  end.

(** Modelled from the spec: the pass started at the root with nothing
    visited; it gives the table of first visits and the tree.  One unit
    of fuel per object of the heap, and one more, is enough. *)
Definition decycle_table (h : heap) (v : jsval) : option (gmap nat path * tree) :=
  derez (S (size h)) h ∅ v [].

(** Modelled from the spec: [decycle] of [json-cycle]. *)
Definition decycle (h : heap) (v : jsval) : option tree :=
  snd <$> decycle_table h v.

(** *** JSON values and their text *)

(** A value of JSON; a number is the numeral that stands for it. *)
#[warnings="-register-all"]
Inductive json : Type :=
| JsonNull
| JsonBool (b : bool)
| JsonNumber (n : Num.Numeral)
| JsonString (s : string)
| JsonArray (l : list json)
| JsonObject (l : list (string * json)).

(** The double quote and the backslash. *)
Definition dquote : ascii := ascii_of_nat 34.
Definition backslash : ascii := ascii_of_nat 92.

Definition hexdigit (n : N) : ascii :=
  if (n <? 10)%N then ascii_of_N (48 + n) else ascii_of_N (87 + n).

(** [QuoteJSONString] on one character: the quote and the backslash
    behind a backslash, the short escapes of backspace, tab, line feed,
    form feed and carriage return, [\u00xx] for every other control
    character, and any other character as it is. *)
Definition quote_char (c : ascii) : string :=
  let n := N_of_ascii c in
  if Ascii.eqb c dquote then String backslash (String dquote "")
  else if Ascii.eqb c backslash then String backslash (String backslash "")
  else if N.eqb n 8 then String backslash "b"
  else if N.eqb n 9 then String backslash "t"
  else if N.eqb n 10 then String backslash "n"
  else if N.eqb n 12 then String backslash "f"
  else if N.eqb n 13 then String backslash "r"
  else if (n <? 32)%N then
    String backslash
      (String "u" (String "0" (String "0"
         (String (hexdigit (n / 16)) (String (hexdigit (n mod 16)) "")))))
  else String c "".

Fixpoint escape (s : string) : string :=
  match s with
  | EmptyString => EmptyString
  | String c s' => quote_char c +:+ escape s'
  end.

Definition quote (s : string) : string :=
  String dquote (escape s +:+ String dquote "").

(** [JSON.stringify] of a value of JSON, without indentation. *)
Fixpoint write (j : json) : string :=
  match j with
  | JsonNull => "null"
  | JsonBool true => "true"
  | JsonBool false => "false"
  | JsonNumber n => Num.print n
  | JsonString s => quote s
  | JsonArray l => "[" +:+ Str.join "," (List.map write l) +:+ "]"
  | JsonObject l =>
      "{" +:+ Str.join ","
                (List.map (fun kv => quote kv.1 +:+ ":" +:+ write kv.2) l) +:+ "}"
  end.

(** The number as JSON has it: [null] for what is no finite number. *)
Definition number (x : Num.Shown) : json :=
  match x with
  | Num.SNumeral n => JsonNumber n
  | Num.SNaN | Num.SInfinity _ => JsonNull
  end.

Definition seg_key (sg : seg) : string :=
  match sg with
  | Idx i => NilZero.string_of_uint (Nat.to_uint i)
  | Key k => k
  end.

Definition show_seg (sg : seg) : string :=
  match sg with
  | Idx i => "[" +:+ NilZero.string_of_uint (Nat.to_uint i) +:+ "]"
  | Key k => "[" +:+ quote k +:+ "]"
  end.

Fixpoint show_segs (p : path) : string :=
  match p with
  | [] => ""
  | sg :: p' => show_seg sg +:+ show_segs p'
  end.

(** Modelled from the spec: the reference token.  The path as the
    marker of [json-cycle] carries it: [$] for the root, then every step
    between brackets, an index in digits and a key as a JSON string. *)
Definition show_path (p : path) : string := "$" +:+ show_segs p.

(** The elements of an array, each as [f] gives it. *)
Definition elems_of (f : tree -> json) (kids : list (seg * tree)) : list json :=
  List.map (fun kid => f kid.2) kids.

(** The members of an object, each as [f] gives it, without those whose
    value is [undefined]. *)
Fixpoint members_of (f : tree -> json) (kids : list (seg * tree))
  : list (string * json) :=
  match kids with
  | [] => []
  | (sg, t) :: l =>
      match t with
      | TUndefined => members_of f l
      | _ => (seg_key sg, f t) :: members_of f l
      end
  end.

(** What [JSON.stringify] makes of the tree: a member whose value is
    [undefined] is left out of an object and is [null] in an array, and
    a number that is not finite is [null].  The marker is, as in
    [json-cycle], an object with the one member [$ref]. *)
Fixpoint plain (t : tree) : json :=
  match t with
  | TUndefined | TNull => JsonNull
  | TBool b => JsonBool b
  | TNum z => number (Num.shown_int z)
  | TFloat x => number (Num.shown_float x)
  | TStr s => JsonString s
  | TRef p => JsonObject [("$ref", JsonString (show_path p))]
  | TNode true kids => JsonArray (elems_of plain kids)
  | TNode false kids => JsonObject (members_of plain kids)
  end.

Definition to_json (t : tree) : string := write (plain t).

(** Modelled from the spec: [JsonCycle.stringify], the cycle-safe pass
    followed by the ordinary serialisation; [json-cycle] is not among the
    sources at hand.  No text is returned for [undefined]. *)
Definition stringify (h : heap) (v : jsval) : option string :=
  match decycle h v with
  | Some TUndefined | None => None
  | Some t => Some (to_json t)
  end.

(** *** Reading JSON *)

Definition hex_val (c : ascii) : option N :=
  let n := N_of_ascii c in
  if (48 <=? n)%N && (n <=? 57)%N then Some (n - 48)%N
  else if (97 <=? n)%N && (n <=? 102)%N then Some (n - 87)%N
  else if (65 <=? n)%N && (n <=? 70)%N then Some (n - 55)%N
  else None.

(** The code unit that four hexadecimal digits stand for. *)
Definition hex4 (a b c d : ascii) : option N :=
  match hex_val a, hex_val b, hex_val c, hex_val d with
  | Some x, Some y, Some z, Some w => Some (((x * 16 + y) * 16 + z) * 16 + w)%N
  | _, _, _, _ => None
  end.

(** The UTF-8 encoding of a code point. *)
Definition utf8 (cp : N) : string :=
  if (cp <? 128)%N then String (ascii_of_N cp) ""
  else if (cp <? 2048)%N then
    String (ascii_of_N (192 + cp / 64))
      (String (ascii_of_N (128 + cp mod 64)) "")
  else if (cp <? 65536)%N then
    String (ascii_of_N (224 + cp / 4096))
      (String (ascii_of_N (128 + (cp / 64) mod 64))
         (String (ascii_of_N (128 + cp mod 64)) ""))
  else
    String (ascii_of_N (240 + cp / 262144))
      (String (ascii_of_N (128 + (cp / 4096) mod 64))
         (String (ascii_of_N (128 + (cp / 64) mod 64))
            (String (ascii_of_N (128 + cp mod 64)) ""))).

(** The characters of a JSON string behind its opening quote, up to the
    closing quote, and what follows it.  A control character must be
    escaped; an escape [\uxxxx] stands for a code unit, two of them for
    one code point when they are a surrogate pair. *)
Fixpoint parse_chars (s : string) : option (string * string) :=
  match s with
  | EmptyString => None
  | String c s1 =>
      if Ascii.eqb c dquote then Some (EmptyString, s1)
      else if Ascii.eqb c backslash then
        match s1 with
        | EmptyString => None
        | String e s2 =>
            let simple (x : ascii) :=
              match parse_chars s2 with
              | Some (t, r) => Some (String x t, r)
              | None => None
              end in
            if Ascii.eqb e dquote then simple dquote
            else if Ascii.eqb e backslash then simple backslash
            else if Ascii.eqb e "/" then simple "/"%char
            else if Ascii.eqb e "b" then simple (ascii_of_nat 8)
            else if Ascii.eqb e "f" then simple (ascii_of_nat 12)
            else if Ascii.eqb e "n" then simple (ascii_of_nat 10)
            else if Ascii.eqb e "r" then simple (ascii_of_nat 13)
            else if Ascii.eqb e "t" then simple (ascii_of_nat 9)
            else if Ascii.eqb e "u" then
              match s2 with
              | String h1 (String h2 (String h3 (String h4 s6))) =>
                  match hex4 h1 h2 h3 h4 with
                  | None => None
                  | Some hi =>
                      let single :=
                        match parse_chars s6 with
                        | Some (t, r) => Some (utf8 hi +:+ t, r)
                        | None => None
                        end in
                      if (55296 <=? hi)%N && (hi <? 56320)%N then
                        match s6 with
                        | String b (String u (String l1 (String l2 (String l3 (String l4 s12))))) =>
                            if Ascii.eqb b backslash && Ascii.eqb u "u" then
                              match hex4 l1 l2 l3 l4 with
                              | Some lo =>
                                  if (56320 <=? lo)%N && (lo <? 57344)%N then
                                    match parse_chars s12 with
                                    | Some (t, r) =>
                                        Some (utf8 (65536 + (hi - 55296) * 1024
                                                    + (lo - 56320))%N +:+ t, r)
                                    | None => None
                                    end
                                  else single
                              | None => None
                              end
                            else single
                        | _ => single
                        end
                      else single
                  end
              | _ => None
              end
            else None
        end
      else if (N_of_ascii c <? 32)%N then None
      else
        match parse_chars s1 with
        | Some (t, r) => Some (String c t, r)
        | None => None
        end
  end.

(** A value of JSON at the start of [s], and what follows it; the
    grammar of JSON without white space between the tokens, which
    [JSON.stringify] does not write. *)
Fixpoint parse_value (fuel : nat) (s : string) {struct fuel} : option (json * string) :=
  match fuel with
  | O => None
  | S fuel' =>
      match Str.strip "null" s, Str.strip "true" s, Str.strip "false" s with
      | Some r, _, _ => Some (JsonNull, r)
      | None, Some r, _ => Some (JsonBool true, r)
      | None, None, Some r => Some (JsonBool false, r)
      | None, None, None =>
          match Str.strip (String dquote "") s, Str.strip "[" s, Str.strip "{" s with
          | Some r, _, _ =>
              match parse_chars r with
              | Some (x, r') => Some (JsonString x, r')
              | None => None
              end
          | None, Some r, _ =>
              match Str.strip "]" r with
              | Some r' => Some (JsonArray [], r')
              | None =>
                  match parse_elems fuel' r with
                  | Some (l, r') => Some (JsonArray l, r')
                  | None => None
                  end
              end
          | None, None, Some r =>
              match Str.strip "}" r with
              | Some r' => Some (JsonObject [], r')
              | None =>
                  match parse_members fuel' r with
                  | Some (l, r') => Some (JsonObject l, r')
                  | None => None
                  end
              end
          | None, None, None =>
              match Num.read s with
              | Some (n, r) => Some (JsonNumber n, r)
              | None => None
              end
          end
      end
  end

with parse_elems (fuel : nat) (s : string) {struct fuel} : option (list json * string) :=
  match fuel with
  | O => None
  | S fuel' =>
      match parse_value fuel' s with
      | Some (v, r) =>
          match Str.strip "," r, Str.strip "]" r with
          | Some r', _ =>
              match parse_elems fuel' r' with
              | Some (l, r'') => Some (v :: l, r'')
              | None => None
              end
          | None, Some r' => Some ([v], r')
          | None, None => None
          end
      | None => None
      end
  end

with parse_members (fuel : nat) (s : string) {struct fuel}
  : option (list (string * json) * string) :=
  match fuel with
  | O => None
  | S fuel' =>
      match Str.strip (String dquote "") s with
      | Some r =>
          match parse_chars r with
          | Some (k, r1) =>
              match Str.strip ":" r1 with
              | Some r2 =>
                  match parse_value fuel' r2 with
                  | Some (v, r3) =>
                      match Str.strip "," r3, Str.strip "}" r3 with
                      | Some r', _ =>
                          match parse_members fuel' r' with
                          | Some (l, r'') => Some ((k, v) :: l, r'')
                          | None => None
                          end
                      | None, Some r' => Some ([(k, v)], r')
                      | None, None => None
                      end
                  | None => None
                  end
              | None => None
              end
          | None => None
          end
      | None => None
      end
  end.

(** [JSON.parse]: the whole text is one value. *)
Definition parse (s : string) : option json :=
  match parse_value (String.length s) s with
  | Some (v, EmptyString) => Some v
  | _ => None
  end.

(** *** What a consumer does with a marker *)

(** The steps of a path behind [$]: an index in digits or a key as a
    JSON string, each between brackets. *)
Fixpoint parse_segs (fuel : nat) (s : string) : option path :=
  let done := match s with EmptyString => Some [] | _ => None end in
  match fuel with
  | O => done
  | S fuel' =>
      match Str.strip "[" s with
      | None => done
      | Some r =>
          match Str.strip (String dquote "") r with
          | Some r1 =>
              match parse_chars r1 with
              | Some (k, r2) =>
                  match Str.strip "]" r2 with
                  | Some r3 => cons (Key k) <$> parse_segs fuel' r3
                  | None => None
                  end
              | None => None
              end
          | None =>
              let '(u, r1) := Num.read_digits r in
              if Num.some_digits u then
                match Str.strip "]" r1 with
                | Some r2 => cons (Idx (Nat.of_uint u)) <$> parse_segs fuel' r2
                | None => None
                end
              else None
          end
      end
  end.

(** Modelled from the spec: what a compatible deserializer makes of the
    text a marker carries, the path it stands for. *)
Definition parse_path (s : string) : option path :=
  match Str.strip "$" s with
  | Some r => parse_segs (String.length r) r
  | None => None
  end.

Fixpoint field {A} (k : string) (l : list (string * A)) : option A :=
  match l with
  | [] => None
  | (k', v) :: rest => if String.eqb k' k then Some v else field k rest
  end.

(** Following a path from the root of the value that was read. *)
Fixpoint resolve (j : json) (p : path) : option json :=
  match p with
  | [] => Some j
  | Idx i :: p' =>
      match j with
      | JsonArray l => match l !! i with Some j' => resolve j' p' | None => None end
      | _ => None
      end
  | Key k :: p' =>
      match j with
      | JsonObject l => match field k l with Some j' => resolve j' p' | None => None end
      | _ => None
      end
  end.

Fixpoint assoc {A} (sg : seg) (kids : list (seg * A)) : option A :=
  match kids with
  | [] => None
  | (sg', t) :: rest => if decide (sg' = sg) then Some t else assoc sg rest
  end.

(** Following a path from the root of the written tree. *)
Fixpoint lookup_path (t : tree) (p : path) : option tree :=
  match p with
  | [] => Some t
  | sg :: p' =>
      match t with
      | TNode _ kids =>
          match assoc sg kids with
          | Some t' => lookup_path t' p'
          | None => None
          end
      | _ => None
      end
  end.

(** Following a path through the heap, from the value [v]. *)
Fixpoint walk (h : heap) (v : jsval) (p : path) : option jsval :=
  match p with
  | [] => Some v
  | sg :: p' =>
      match v with
      | JObj a =>
          match h !! a with
          | Some n =>
              match assoc sg (children n) with
              | Some v' => walk h v' p'
              | None => None
              end
          | None => None
          end
      | _ => None
      end
  end.

(** The markers of a tree, left to right. *)
Fixpoint refs_of (t : tree) : list path :=
  match t with
  | TRef p => [p]
  | TNode _ kids =>
      (fix go (l : list (seg * tree)) : list path :=
         match l with
         | [] => []
         | (_, t) :: l => refs_of t ++ go l
         end) kids
  | _ => []
  end.

(** The members [ks] of a written object are those of the object, [cs],
    one for one and under the same names, and [R] holds of each pair. *)
Fixpoint all_kids (R : seg -> jsval -> tree -> Prop)
  (cs : list (seg * jsval)) (ks : list (seg * tree)) {struct ks} : Prop :=
  match ks, cs with
  | [], [] => True
  | (sg', t') :: ks', (sg, v') :: cs' => sg' = sg /\ R sg v' t' /\ all_kids R cs' ks'
  | _, _ => False
  end.

(** The tree [t] is what the pass writes for the value [v] met at path
    [p], [tbl] being the table of first visits: a value that is no
    object is written as it is; an object is written out where the
    table has its path, with its members in their order and each as
    the pass writes it one step further; anywhere else it is the marker
    that carries its path in the table. *)
Fixpoint agrees (h : heap) (tbl : gmap nat path) (p : path) (v : jsval) (t : tree)
  {struct t} : Prop :=
  match t with
  | TRef q => exists a, v = JObj a /\ tbl !! a = Some q
  | TNode arr kids =>
      exists a n,
        v = JObj a /\ tbl !! a = Some p /\ h !! a = Some n /\ arr = is_arr n /\
        all_kids (fun sg v' t' => agrees h tbl (p ++ [sg]) v' t') (children n) kids
  | _ => t = prim v /\ match v with JObj _ => False | _ => True end
  end.

(** *** Heaps *)

Definition closed (h : heap) (v : jsval) : Prop :=
  match v with
  | JObj a => is_Some (h !! a)
  | _ => True
  end.

(** What the heap of a running program looks like: no dangling
    reference, and every key once in an object. *)
Definition wf_heap (h : heap) : Prop :=
  forall a n, h !! a = Some n ->
    Forall (fun kid => closed h kid.2) (children n) /\ NoDup (children n).*1.

(** Objects of the heap that the pass has not visited yet. *)
Definition unseen (h : heap) (seen : gmap nat path) : nat :=
  size (dom h ∖ dom seen).

(** *** The payload of [addTestRun] as an object *)

Definition opt_str (o : option string) : jsval :=
  match o with Some s => JStr s | None => JUndefined end.

(** The members of the object literal of [addTestRun], in the order in
    which it writes them. *)
Definition payload_fields (p : Payload) (a_files a_artifacts : nat)
  : list (string * jsval) :=
  [("api_key", opt_str (api_key p)); ("files", JObj a_files);
   ("steps", steps p); ("status", status p); ("stack", stack p);
   ("example", example p); ("title", title p);
   ("suite_title", suite_title p); ("suite_id", suite_id p);
   ("test_id", test_id p); ("message", JStr (message p));
   ("run_time", run_time p); ("artifacts", JObj a_artifacts)].

(** The object literal of [addTestRun].  [files] is the caller's own
    array when the result descriptor has one, at the address [files_at]
    of the caller's heap; otherwise it is the empty array of the
    destructuring pattern.  That array, the array of artifacts that
    [Promise.all] returns and the object itself are allocated at
    addresses the caller's heap does not use. *)
Definition payload_object (h : heap) (p : Payload) (files_at : option nat)
  : heap * jsval :=
  let '(h, a_files) :=
    match files_at with
    | Some a => (h, a)
    | None => (<[fresh (dom h) := NArr (files p)]> h, fresh (dom h))
    end in
  let a_artifacts := fresh (dom h) in
  let h := <[a_artifacts := NArr (artifacts p)]> h in
  let a_root := fresh (dom h) in
  (<[a_root := NObj (payload_fields p a_files a_artifacts)]> h, JObj a_root).

(** The caller's array of files is where the caller says it is. *)
Definition files_held (h : heap) (p : Payload) (files_at : option nat) : Prop :=
  match files_at with
  | Some a => h !! a = Some (NArr (files p))
  | None => True
  end.

Definition payload_values (p : Payload) : list jsval :=
  [steps p; status p; stack p; example p; title p; suite_title p;
   suite_id p; test_id p; run_time p] ++ files p ++ artifacts p.

(** Every reference of the payload points into the heap. *)
Definition payload_closed (h : heap) (p : Payload) : Prop :=
  Forall (closed h) (payload_values p).

(** [JsonCycle.stringify({ api_key: ..., artifacts: ... })] *)
Definition stringify_payload (h : heap) (p : Payload) (files_at : option nat)
  : option string :=
  stringify (payload_object h p files_at).1 (payload_object h p files_at).2.

Definition decycle_payload (h : heap) (p : Payload) (files_at : option nat)
  : option (gmap nat path * tree) :=
  decycle_table (payload_object h p files_at).1 (payload_object h p files_at).2.

(** What one call of the pass guarantees, started on the value [v] at
    path [p] with the table [seen]: the table only grows; every object
    it adds was first met below [p], at a path that leads to that
    object in the heap and, in the tree returned, to where it is
    written out; the tree is what the pass writes for [v] under any
    table that extends the one returned; and every marker of the tree
    names an entry of the table. *)
Definition derez_post (h : heap)
  (seen : gmap nat path) (p : path) (v : jsval) (seen' : gmap nat path) (t : tree)
  : Prop :=
  seen ⊆ seen' /\
  (forall a q, seen' !! a = Some q -> seen !! a = None ->
     exists suf n kids,
       q = p ++ suf /\ walk h v suf = Some (JObj a) /\ h !! a = Some n /\
       lookup_path t suf = Some (TNode (is_arr n) kids)) /\
  (forall tbl, seen' ⊆ tbl -> agrees h tbl p v t) /\
  (forall q, q ∈ refs_of t -> exists a, seen' !! a = Some q).

(** A traversal function meets this guarantee on every input that leaves
    fewer than [bound] objects unvisited. *)
Definition rec_spec (h : heap) (bound : nat)
  (rec : gmap nat path -> jsval -> path -> option (gmap nat path * tree)) : Prop :=
  forall seen v p,
    closed h v -> unseen h seen < bound ->
    exists seen' t, rec seen v p = Some (seen', t) /\ derez_post h seen p v seen' t.

(** *** Vocabulary of the round trip *)

(** Every numeral of the value is written by the grammar. *)
Fixpoint json_wf (j : json) : Prop :=
  match j with
  | JsonNumber n => Num.wf n
  | JsonArray l =>
      (fix all (l : list json) : Prop :=
         match l with
         | [] => True
         | x :: l => json_wf x /\ all l
         end) l
  | JsonObject l =>
      (fix all (l : list (string * json)) : Prop :=
         match l with
         | [] => True
         | (_, v) :: l => json_wf v /\ all l
         end) l
  | _ => True
  end.

(** The first character of a value. *)
Definition value_head (c : ascii) : bool :=
  Ascii.eqb c "n" || Ascii.eqb c "t" || Ascii.eqb c "f" || Ascii.eqb c dquote
  || Ascii.eqb c "[" || Ascii.eqb c "{" || Ascii.eqb c "-"
  || bool_decide (is_Some (Num.digit_of c)).

(** The first character of a numeral. *)
Definition number_head (c : ascii) : bool :=
  Ascii.eqb c "-" || bool_decide (is_Some (Num.digit_of c)).

(** Reading what was written for [j] gives [j] back, whatever follows
    that may follow a value. *)
Definition parses (j : json) : Prop :=
  forall fuel r,
    String.length (write j) <= fuel -> Num.ends_number r ->
    parse_value fuel (write j +:+ r) = Some (j, r).

#[global] Instance closed_dec (h : heap) (v : jsval) : Decision (closed h v).
Proof. destruct v; cbn; apply _. Defined.

#[global] Instance wf_heap_dec (h : heap) : Decision (wf_heap h).
Proof.
  change (Decision (map_Forall
                      (fun _ n => Forall (fun kid => closed h kid.2) (children n)
                                  /\ NoDup (children n).*1) h)).
  apply _.
Defined.

#[global] Instance payload_closed_dec (h : heap) (p : Payload) :
  Decision (payload_closed h p).
Proof. unfold payload_closed. apply _. Defined.

#[global] Instance files_held_dec (h : heap) (p : Payload) (files_at : option nat) :
  Decision (files_held h p files_at).
Proof. destruct files_at; cbn; apply _. Defined.

End JsonCycle.

(* ================================================================== *)
(** * Properties used to state the results *)
(* ================================================================== *)

(** Errors of the kinds the transport interface knows: a rejection that
    carries a response has a status of 400 or more; any other error
    carries no response. *)
Definition reporting_error (e : JsError) : Prop :=
  match err_response e with
  | Some r => (400 <= er_status r)%Z
  | None => True
  end.

Definition reporting_outcome (o : Outcome) : Prop :=
  match o with
  | Resolves _ => True
  | Rejects e => reporting_error e
  end.

Definition reporting_settlement (st : Settlement) : Prop :=
  match st with
  | Fulfilled => True
  | Rejected e => reporting_error e
  end.

Definition reporting_upload (u : Settled jsval JsError) : Prop :=
  match u with
  | Resolves _ => True
  | Rejects e => reporting_error e
  end.

(** Tasks whose [then] is followed by a [catch]. *)
Definition has_catch (t : Task) : bool :=
  match t with
  | TUpdateRun _ _ => false
  | _ => true
  end.

(** Tasks of [addTestRun] and [updateRunStatus]. *)
Definition report_task (t : Task) : bool :=
  match t with
  | TAddTestRun _ | TUpdateStatus _ _ => true
  | _ => false
  end.

(** The tasks that have not settled yet, the suspended one first. *)
Definition tasks_left (s : State) : list Task :=
  match running s with
  | Some (AwaitUploads cl) => TAddTestRun cl :: pending s
  | Some (AwaitResponse t) => t :: pending s
  | None => pending s
  end.

(** Turns of the event loop that are certainly enough to settle every
    task: a task suspends at most twice. *)
Definition work (s : State) : nat :=
  match running s with
  | Some (AwaitUploads _) => 2
  | Some (AwaitResponse _) => 1
  | None => 0
  end + 3 * length (pending s).

(** At every moment of the history, newest event first, at most one
    request is in flight. *)
Fixpoint serial (evs : list Event) : Prop :=
  match evs with
  | [] => True
  | _ :: older => (0 <= in_flight evs <= 1)%Z /\ serial older
  end.

(** The diff block as one would read it line by line: a line marked as the
    expected value (by the word or by the [+] sign) that carries [e], and a
    later line marked as the actual value (by the word or by the [-] sign)
    that carries [a]. *)
Definition expected_line (e l : string) : bool :=
  (Str.contains "expected" l || Str.has_prefix "+" l) && Str.contains e l.

Definition actual_line (a l : string) : bool :=
  (Str.contains "actual" l || Str.has_prefix "-" l) && Str.contains a l.

Fixpoint expected_then_actual (e a : string) (ls : list string) : bool :=
  match ls with
  | [] => false
  | l :: rest =>
      (expected_line e l && existsb (actual_line a) rest)
      || expected_then_actual e a rest
  end.

Fixpoint actual_then_expected (e a : string) (ls : list string) : bool :=
  match ls with
  | [] => false
  | l :: rest =>
      (actual_line a l && existsb (expected_line e) rest)
      || actual_then_expected e a rest
  end.

(** The task a reporting call appends when [this] is [c]. *)
Definition task_of_call (env : Env) (c : Client) (x : Call) : option Task :=
  match x with
  | CreateRun => None
  | AddTestRun testId status td =>
      Some (TAddTestRun (addTestRun_prepare env c testId status td).1.1)
  | UpdateRunStatus status isParallel => Some (TUpdateStatus status isParallel)
  end.

(** The request a reporting task hands to the transport when the chain
    reaches it fulfilled and the run id is resolved. *)
Definition request_of (env : Env) (c : Client) (t : Task) : list Request :=
  match t with
  | TAddTestRun cl =>
      match promise_all (cl_uploadedFiles cl) with
      | Resolves arts =>
          [PostTestrun (testrun_url env (runId c)) (payload_of c cl arts)]
      | Rejects _ => []
      end
  | TUpdateStatus status isParallel =>
      [PutStatus (status_url env (runId c))
         {| sb_api_key := apiKey c;
            sb_status_event := statusEvent status isParallel;
            sb_status := status |}]
  | _ => []
  end.

(** The requests a sequence of reporting calls asks for, in call order. *)
Definition requests_of_calls (env : Env) (c : Client) (calls : list Call) : list Request :=
  flat_map (request_of env c) (omap (task_of_call env c) calls).

(** The text of a rendered stack record, empty when there is none. *)
Definition rendered (cs : Callsite) : string :=
  match cs with CsRendered text => text | _ => "" end.

Definition parallel_suffix (isParallel : jsval) : string :=
  if truthy isParallel then "_parallel" else "".

(** The status update of a client in state [s], with tag [tag]. *)
Definition status_request (env : Env) (s : State) (status : jsval) (tag : string)
  : Request :=
  PutStatus (status_url env (runId (this s)))
    {| sb_api_key := apiKey (this s);
       sb_status_event := Some tag;
       sb_status := status |}.

Definition is_add (x : Call) : bool :=
  match x with AddTestRun _ _ _ => true | _ => false end.

Definition is_report (x : Call) : bool :=
  match x with CreateRun => false | _ => true end.

(** What is in flight is the request of the task that waits for a
    response, and nothing else. *)
Definition flight_inv (s : State) : Prop :=
  serial (trace s) /\
  in_flight (trace s) =
    match running s with Some (AwaitResponse _) => 1%Z | _ => 0%Z end.

(** Events that are neither a request nor its settlement. *)
Definition quiet (e : Event) : Prop :=
  match e with ESend _ | ERecv _ => False | _ => True end.

(** The uploads a task waits for fail, if they fail, with a reporting
    error. *)
Definition uploads_ok (t : Task) : Prop :=
  match t with
  | TAddTestRun cl =>
      forall e, promise_all (cl_uploadedFiles cl) = Rejects e -> reporting_error e
  | _ => True
  end.

(** A schedule step whose transport outcome, if any, is a reporting
    outcome. *)
Definition reporting_step (x : Step) : Prop :=
  match x with
  | Do _ => True
  | Tick o => reporting_outcome o
  end.



Definition no_send (e : Event) : Prop :=
  match e with ESend _ => False | _ => True end.

Definition is_log (e : Event) : Prop :=
  match e with ELog _ => True | _ => False end.

(** The state of a client that never learnt a run id, [s0] being where
    the observation starts. *)
Definition norun_inv (s0 s : State) : Prop :=
  truthy_str (runId (this s)) = false /\
  running s = None /\
  Forall (fun t => report_task t = true) (pending s) /\
  (exists k, results s = results s0 ++ replicate k Fulfilled) /\
  (exists logs, trace s = logs ++ trace s0 /\ Forall is_log logs) /\
  (exists news,
      returned s = news ++ returned s0 /\
      Forall (fun r => exists n, r = RetQueue n /\
                                 length (results s0) <= n < ntasks s) news).

(** The tasks whose request has not been handed to the transport. *)
Definition unsent (s : State) : list Task :=
  match running s with
  | Some (AwaitResponse _) => pending s
  | _ => tasks_left s
  end.

(** What has been sent, followed by what the unsent tasks will send, is
    what the calls made so far ask for, in call order. *)
Definition order_inv (env : Env) (s0 : State) (calls : list Call) (s : State) : Prop :=
  this s = this s0 /\
  chain s = Fulfilled /\
  Forall (fun t => report_task t = true /\ uploads_ok t) (tasks_left s) /\
  sends (history s) ++ flat_map (request_of env (this s0)) (unsent s)
  = sends (history s0) ++ requests_of_calls env (this s0) calls.

(** The [test_id] of every test result handed to the transport. *)
Definition posted_test_ids (reqs : list Request) : list jsval :=
  omap (fun r => match r with PostTestrun _ b => Some (test_id b) | _ => None end) reqs.

(** Method and address of a request. *)
Definition endpoint (r : Request) : string * string :=
  match r with
  | PutRun u _ | PutStatus u _ => ("PUT", u)
  | PostRun u _ | PostTestrun u _ => ("POST", u)
  end.

(* ================================================================== *)
(** * Further vocabulary: run creation, failures, the stack filter *)
(* ================================================================== *)

(** [runParams] of [createRun], for the client [c] whose API key is [key]. *)
Definition runParams_of (env : Env) (c : Client) (key : string) : RunParams :=
  {| rp_api_key := Str.trim key;
     rp_title := c_title c;
     rp_parallel := parallel c;
     rp_group_title := TESTOMATIO_RUNGROUP_TITLE env;
     rp_env := TESTOMATIO_ENV env |}.

(** A create response that carries a run id and the address of the run. *)
Definition run_created (status : Z) (uid url : string) : Response :=
  {| r_status := status;
     r_data := Some {| rd_uid := Some uid; rd_url := Some url |} |}.

(** A client that has no run id and only reporting tasks queued: nothing
    but log lines has been observed. *)
Definition silent_inv (s : State) : Prop :=
  truthy_str (runId (this s)) = false /\
  running s = None /\
  Forall (fun t => report_task t = true) (pending s) /\
  chain s = Fulfilled /\
  Forall is_log (trace s).

(** The body of the status update of client [c]. *)
Definition status_body (c : Client) (status isParallel : jsval) : StatusBody :=
  {| sb_api_key := apiKey c;
     sb_status_event := statusEvent status isParallel;
     sb_status := status |}.

(** A failure that carries a response with a status below 400 and no
    body: the [catch] of [addTestRun] cannot read its message. *)
Definition unreadable_failure (e : JsError) : Prop :=
  exists r, err_response e = Some r /\ (er_status r < 400)%Z /\ er_data r = None.

(** Events that reach neither the transport nor the uploader. *)
Definition no_traffic (e : Event) : Prop :=
  match e with ESend _ | EUpload _ _ => False | _ => True end.

(** The [stackFilter] handed to [renderSync]: a frame is kept when the
    name of its file contains the path separator [sep] and neither
    [node_modules] nor [internal].  A frame without a file name makes
    [getFileName().indexOf] throw. *)
Definition stackFilter (sep : string) (fileName : option string) : Settled bool JsError :=
  match fileName with
  | None => Rejects (TypeError "Cannot read properties of null (reading 'indexOf')")
  | Some f =>
      Resolves (Str.contains sep f
                && negb (Str.contains "node_modules" f)
                && negb (Str.contains "internal" f))
  end.

(** The [message] that [addTestRun] reports for a failed test: the result
    of [error.inspect()] when the error has that method, else the
    [message] of the result descriptor, else [error.message]. *)
Definition reported_message (td : TestData) (error : ErrorObj) : string :=
  match e_inspect error with
  | Some m => m
  | None =>
      if String.eqb (default "" (td_message td)) "" then e_message error
      else default "" (td_message td)
  end.

(** A client that has not started anything yet: no run id anywhere, the
    chain fulfilled and not suspended, no resume request queued, and only
    log lines observed. *)
Definition unstarted (s : State) : Prop :=
  truthy_str (runId (this s)) = false /\
  truthy_str (proc_runId s) = false /\
  running s = None /\
  chain s = Fulfilled /\
  Forall (fun t => match t with TUpdateRun _ _ => False | _ => True end) (pending s) /\
  Forall is_log (trace s).

(** The first request handed to the transport is a create request. *)
Definition create_first (env : Env) (s : State) : Prop :=
  exists rp rest, sends (history s) = PostRun (create_url env) rp :: rest.

(** ** Rejections that meet no handler *)

(** The tail of the chain ([this.queue]) has no reaction until the next
    call attaches one.  When every task has settled and the tail is
    rejected, the rejection has met no handler and none is attached to
    it: the runtime raises it as an unhandled rejection. *)
Definition unhandled_rejection (s : State) : option JsError :=
  match running s, pending s, chain s with
  | None, [], Rejected e => Some e
  | _, _, _ => None
  end.


(* ================================================================== *)
(** * Sample inputs *)
(* ================================================================== *)

Module Sample.

(** Default endpoint, no colours, no stack rendering, uploads succeed. *)
Definition env : Env :=
  {| TESTOMATIO_URL := None;
     TESTOMATIO_RUNGROUP_TITLE := None;
     TESTOMATIO_ENV := None;
     TESTOMATIO_RUN := None;
     TESTOMATIO := None;
     TESTOMATIO_TITLE := None;
     ENV_runId := None;
     url_parses := Str.has_prefix "http";
     chalk := plain_chalk;
     callsiteRecord := fun _ => CsNone;
     uploadFile := fun f rid => Resolves (JStr ("s3://" +:+ rid));
     obj_toString := fun _ => "[object Object]" |}.

(** The same, launched inside an existing run [r1]. *)
Definition resumed : Env :=
  {| TESTOMATIO_URL := None;
     TESTOMATIO_RUNGROUP_TITLE := None;
     TESTOMATIO_ENV := None;
     TESTOMATIO_RUN := Some "r1";
     TESTOMATIO := None;
     TESTOMATIO_TITLE := None;
     ENV_runId := None;
     url_parses := Str.has_prefix "http";
     chalk := plain_chalk;
     callsiteRecord := fun _ => CsNone;
     uploadFile := fun f rid => Resolves (JStr ("s3://" +:+ rid));
     obj_toString := fun _ => "[object Object]" |}.

Definition params : Params :=
  {| p_apiKey := Some "key"; p_title := Some "nightly"; p_parallel := JBool false |}.

Definition no_data : TestData :=
  {| td_message := None; td_error := None; td_time := JUndefined;
     td_example := JUndefined; td_files := None; td_steps := JUndefined;
     td_title := JUndefined; td_suite_title := JUndefined;
     td_suite_id := JUndefined; td_test_id := JUndefined |}.

(** A result descriptor with one file and its own [test_id]. *)
Definition with_file : TestData :=
  {| td_message := None; td_error := None; td_time := JNum 12;
     td_example := JUndefined; td_files := Some [JStr "shot.png"];
     td_steps := JUndefined; td_title := JStr "logs in";
     td_suite_title := JUndefined; td_suite_id := JUndefined;
     td_test_id := JStr "T2" |}.

Definition foo_bar : ErrorObj :=
  {| e_message := "m"; e_inspect := None;
     e_actual := JStr "foo"; e_expected := JStr "bar" |}.

Definition ok : Outcome :=
  Resolves {| r_status := 200;
              r_data := Some {| rd_uid := Some "u1";
                                rd_url := Some "https://app.testomat.io/projects/p/runs/u1" |} |}.

Definition http (status : Z) : Outcome :=
  Rejects (AxiosError (Some {| er_status := status; er_data := Some "denied" |})).

(** A client whose run [u1] has been created and whose chain is idle. *)
Definition ready : State :=
  run env [Do CreateRun; Tick ok; Tick ok] (new_client env params).

(** A failed assertion: [foo] was found where [bar] was expected. *)
Definition failed : TestData :=
  {| td_message := None; td_error := Some foo_bar; td_time := JNum 3;
     td_example := JUndefined; td_files := None; td_steps := JUndefined;
     td_title := JStr "logs in"; td_suite_title := JUndefined;
     td_suite_id := JUndefined; td_test_id := JUndefined |}.

(** The diagnostic text built for [failed]. *)
Definition diagnostic : string :=
  to_string env
    (cl_stack (addTestRun_prepare env (this ready) (JStr "T1") FAILED failed).1.1).

(** Two results reported while requests are in flight, one of them
    refused by the service, then the final status. *)
Definition adds : list Call :=
  [AddTestRun (JStr "T1") PASSED with_file; AddTestRun JUndefined FAILED failed].

Definition report_sched : list Step :=
  [Do (AddTestRun (JStr "T1") PASSED with_file); Tick ok;
   Do (AddTestRun JUndefined FAILED failed); Tick ok; Tick (http 500);
   Do (UpdateRunStatus FAILED (JBool true));
   Tick ok; Tick ok; Tick (http 503); Tick ok; Tick ok].

(** A step tree whose leaf points back to the root; the first step also
    points to the array of files of the result. *)
Definition cyclic_heap : JsonCycle.heap :=
  <[0 := JsonCycle.NObj [("name", JStr "login"); ("children", JObj 1);
                         ("shots", JObj 3)]]>
  (<[1 := JsonCycle.NArr [JObj 2; JObj 2]]>
  (<[2 := JsonCycle.NObj [("name", JStr "click"); ("parent", JObj 0)]]>
  (<[3 := JsonCycle.NArr [JStr "shot.png"]]> ∅))).

(** The payload of a result whose array of files, at address [3], is
    also what the first step points to. *)
Definition cyclic_payload : Payload :=
  {| api_key := Some "key"; files := [JStr "shot.png"]; steps := JObj 0;
     status := PASSED; stack := JObj 0; example := JNull;
     title := JStr "logs in"; suite_title := JUndefined;
     suite_id := JUndefined; test_id := JUndefined;
     message := ""; run_time := JNum 12; artifacts := [JStr "s3://u1"] |}.

(** The text [s] with a double quote for every apostrophe. *)
Fixpoint quoted (s : string) : string :=
  match s with
  | EmptyString => EmptyString
  | String c s' =>
      String (if Ascii.eqb c "'" then JsonCycle.dquote else c) (quoted s')
  end.

(** The text that is written for that payload. *)
Definition cyclic_text : string :=
  quoted ("{'api_key':'key','files':['shot.png'],"
          +:+ "'steps':{'name':'login','children':["
          +:+ "{'name':'click','parent':{'$ref':'$[\'steps\']'}},"
          +:+ "{'$ref':'$[\'steps\'][\'children\'][0]'}],"
          +:+ "'shots':{'$ref':'$[\'files\']'}},"
          +:+ "'status':'passed','stack':{'$ref':'$[\'steps\']'},"
          +:+ "'example':null,'title':'logs in','message':'','run_time':12,"
          +:+ "'artifacts':['s3://u1']}").

End Sample.

(** Further inputs. *)
Module Cases.

(** An endpoint without a scheme: it does not parse as a URL. *)
Definition bad_endpoint : Env :=
  {| TESTOMATIO_URL := Some "app.testomat.io";
     TESTOMATIO_RUNGROUP_TITLE := None;
     TESTOMATIO_ENV := None;
     TESTOMATIO_RUN := None;
     TESTOMATIO := None;
     TESTOMATIO_TITLE := None;
     ENV_runId := None;
     url_parses := Str.has_prefix "http";
     chalk := plain_chalk;
     callsiteRecord := fun _ => CsNone;
     uploadFile := fun f rid => Resolves (JStr ("s3://" +:+ rid));
     obj_toString := fun _ => "[object Object]" |}.

(** The same endpoint, launched inside the existing run [r1]. *)
Definition bad_endpoint_resumed : Env :=
  {| TESTOMATIO_URL := Some "app.testomat.io";
     TESTOMATIO_RUNGROUP_TITLE := None;
     TESTOMATIO_ENV := None;
     TESTOMATIO_RUN := Some "r1";
     TESTOMATIO := None;
     TESTOMATIO_TITLE := None;
     ENV_runId := None;
     url_parses := Str.has_prefix "http";
     chalk := plain_chalk;
     callsiteRecord := fun _ => CsNone;
     uploadFile := fun f rid => Resolves (JStr ("s3://" +:+ rid));
     obj_toString := fun _ => "[object Object]" |}.

(** Another endpoint, written with blanks around it, launched inside the
    existing run [r7]. *)
Definition beta_resumed : Env :=
  {| TESTOMATIO_URL := Some " https://beta.testomat.io  ";
     TESTOMATIO_RUNGROUP_TITLE := None;
     TESTOMATIO_ENV := None;
     TESTOMATIO_RUN := Some "r7";
     TESTOMATIO := None;
     TESTOMATIO_TITLE := None;
     ENV_runId := None;
     url_parses := Str.has_prefix "http";
     chalk := plain_chalk;
     callsiteRecord := fun _ => CsNone;
     uploadFile := fun f rid => Resolves (JStr ("s3://" +:+ rid));
     obj_toString := fun _ => "[object Object]" |}.

(** The escape character that starts a colour sequence. *)
Definition ESC : string := String (ascii_of_nat 27) "[".

(** A style that switches a colour on before the text and off behind
    it. *)
Definition ansi (on off : string) (text : string) : string :=
  ESC +:+ on +:+ "m" +:+ text +:+ ESC +:+ off +:+ "m".

Definition ansi_chalk : Chalk :=
  {| bold := ansi "1" "22";
     bold_green := fun s => ansi "1" "22" (ansi "32" "39" s);
     bold_red := fun s => ansi "1" "22" (ansi "31" "39" s);
     red := ansi "31" "39";
     green := ansi "32" "39" |}.

(** The default endpoint on a terminal with colours. *)
Definition coloured : Env :=
  {| TESTOMATIO_URL := None;
     TESTOMATIO_RUNGROUP_TITLE := None;
     TESTOMATIO_ENV := None;
     TESTOMATIO_RUN := None;
     TESTOMATIO := None;
     TESTOMATIO_TITLE := None;
     ENV_runId := None;
     url_parses := Str.has_prefix "http";
     chalk := ansi_chalk;
     callsiteRecord := fun _ => CsNone;
     uploadFile := fun f rid => Resolves (JStr ("s3://" +:+ rid));
     obj_toString := fun _ => "[object Object]" |}.

(** A failed comparison whose actual value has two lines. *)
Definition two_lines : ErrorObj :=
  {| e_message := "m"; e_inspect := None;
     e_actual := JStr ("foo" +:+ Str.nl +:+ "baz"); e_expected := JStr "bar" |}.

Definition failed_two_lines : TestData :=
  {| td_message := None; td_error := Some two_lines; td_time := JNum 3;
     td_example := JUndefined; td_files := None; td_steps := JUndefined;
     td_title := JStr "logs in"; td_suite_title := JUndefined;
     td_suite_id := JUndefined; td_test_id := JUndefined |}.

(** The default endpoint with an uploader that cannot read the files. *)
Definition no_storage : Env :=
  {| TESTOMATIO_URL := None;
     TESTOMATIO_RUNGROUP_TITLE := None;
     TESTOMATIO_ENV := None;
     TESTOMATIO_RUN := None;
     TESTOMATIO := None;
     TESTOMATIO_TITLE := None;
     ENV_runId := None;
     url_parses := Str.has_prefix "http";
     chalk := plain_chalk;
     callsiteRecord := fun _ => CsNone;
     uploadFile := fun f rid => Rejects (OtherError "ENOENT");
     obj_toString := fun _ => "[object Object]" |}.

(** A client of [no_storage] whose run [u1] has been created. *)
Definition no_storage_ready : State :=
  run no_storage [Do CreateRun; Tick Sample.ok; Tick Sample.ok]
    (new_client no_storage Sample.params).


Definition no_key : Params :=
  {| p_apiKey := None; p_title := Some "nightly"; p_parallel := JBool false |}.

(** The address the service returns for the run [u1]. *)
Definition u1_address : string := "https://app.testomat.io/projects/p/runs/u1".

(** A failure with a response that has a status below 400 and no body. *)
Definition redirected : JsError :=
  AxiosError (Some {| er_status := 302; er_data := None |}).

(** A result is being posted while the final status waits behind it. *)
Definition posting : State :=
  run Sample.env
    [Do (AddTestRun (JStr "T1") PASSED Sample.with_file);
     Do (UpdateRunStatus PASSED (JBool false)); Tick Sample.ok; Tick Sample.ok]
    Sample.ready.

(** The same two calls, before the event loop has taken a turn. *)
Definition backlog : State :=
  run Sample.env
    [Do (AddTestRun (JStr "T1") PASSED Sample.with_file);
     Do (UpdateRunStatus PASSED (JBool false))]
    Sample.ready.

(** A failed comparison whose actual value is [0]. *)
Definition zero_one : ErrorObj :=
  {| e_message := "expected 1"; e_inspect := None;
     e_actual := JNum 0; e_expected := JNum 1 |}.

Definition failed_zero : TestData :=
  {| td_message := None; td_error := Some zero_one; td_time := JNum 3;
     td_example := JUndefined; td_files := None; td_steps := JUndefined;
     td_title := JStr "counts"; td_suite_title := JUndefined;
     td_suite_id := JUndefined; td_test_id := JUndefined |}.

End Cases.

(* ================================================================== *)
(** * Facts about splitting and joining *)
(* ================================================================== *)

Module StrFacts.
Import Str.

Lemma append_cons x (a b : string) : String x a +:+ b = String x (a +:+ b).
Proof. reflexivity. Qed.

Lemma append_nil (b : string) : "" +:+ b = b.
Proof. reflexivity. Qed.

Lemma append_assoc (a b c : string) : (a +:+ b) +:+ c = a +:+ (b +:+ c).
Proof.
  induction a as [|x a IH]; [done|].
  by rewrite !append_cons, IH.
Qed.

Lemma split_nonempty c s : split c s <> [].
Proof.
  destruct s as [|x s]; simpl; [done|].
  destruct (Ascii.eqb x c); [done|]. by destruct (split c s).
Qed.

(** Splitting at a separator that is written between two texts. *)
Lemma split_app c (a b : string) :
  split c (a +:+ String c b) = split c a ++ split c b.
Proof.
  induction a as [|x a IH].
  - rewrite append_nil. simpl. by rewrite Ascii.eqb_refl.
  - rewrite append_cons. simpl.
    destruct (Ascii.eqb x c); [by rewrite IH|].
    rewrite IH. pose proof (split_nonempty c a).
    by destruct (split c a).
Qed.

Lemma split_free c s : Forall (free_of c) (split c s).
Proof.
  induction s as [|x s IH]; simpl.
  - by constructor.
  - destruct (Ascii.eqb x c) eqn:E; [by constructor|].
    pose proof (split_nonempty c s).
    destruct (split c s) as [|w ws]; [done|].
    inversion IH as [|? ? Hw Hws]; subst. constructor; [|done].
    unfold free_of in *. simpl. by rewrite E, Hw.
Qed.

Lemma free_of_app c (a b : string) :
  free_of c a -> free_of c b -> free_of c (a +:+ b).
Proof.
  unfold free_of. intros Ha Hb. induction a as [|x a IH]; [done|].
  rewrite append_cons. simpl in *.
  destruct (Ascii.eqb x c); [done|].
  pose proof (split_nonempty c a).
  destruct (split c a) as [|w ws]; [done|].
  simplify_eq. by rewrite IH.
Qed.

(** Joining with a separator made of a line break and a mark, after
    writing the mark once by hand, puts the mark before every line. *)
Lemma split_join_marked (mark : string) (ls : list string) :
  free_of LF mark -> ls <> [] -> Forall (free_of LF) ls ->
  split LF (mark +:+ join (nl +:+ mark) ls) = (String.append mark) <$> ls.
Proof.
  intros Hm Hne Hls. induction Hls as [|l ls Hl Hls IH]; [done|].
  destruct ls as [|l' ls].
  - simpl. by apply free_of_app.
  - change (join (nl +:+ mark) (l :: l' :: ls))
      with (l +:+ (nl +:+ mark) +:+ join (nl +:+ mark) (l' :: ls)).
    rewrite (append_assoc nl mark). rewrite <- (append_assoc mark l).
    unfold nl at 1. rewrite append_cons, append_nil.
    rewrite split_app, IH by done.
    rewrite (free_of_app LF mark l Hm Hl). done.
Qed.

Lemma lines_app (a b : string) : lines (a +:+ nl +:+ b) = lines a ++ lines b.
Proof. unfold lines, nl. rewrite append_cons, append_nil. apply split_app. Qed.

Lemma append_nil_r (a : string) : a +:+ "" = a.
Proof. induction a as [|x a IH]; [done|]. by rewrite append_cons, IH. Qed.

Lemma lines_join (l : list string) :
  l <> [] -> lines (join nl l) = concat (lines <$> l).
Proof.
  intros Hne. induction l as [|x l IH]; [done|].
  destruct l as [|y l].
  - simpl. by rewrite app_nil_r.
  - change (join nl (x :: y :: l)) with (x +:+ nl +:+ join nl (y :: l)).
    rewrite lines_app, IH by done. reflexivity.
Qed.

End StrFacts.



Import StrFacts.
Section Diagnostics.
Context (env : Env).

Lemma format_error_lines (message : string) (error : ErrorObj) :
  chalk env = plain_chalk ->
  truthy (e_actual error) = true ->
  truthy (e_expected error) = true ->
  Str.lines (format_error env message error).1.2 =
    [""] ++ Str.lines (format_error env message error).1.1
    ++ [""; ""; "+ expected - actual"]
    ++ (String.append "- " <$> Str.lines (to_string env (e_actual error)))
    ++ (String.append "+ " <$> Str.lines (to_string env (e_expected error)))
    ++ [""]
    ++ Str.lines (rendered (callsiteRecord env error)).
Proof.
  intros Hc Ha He. unfold format_error, diff_block. rewrite Hc, Ha, He.
  cbn [andb plain_chalk bold bold_green bold_red red green id].
  set (msg := match e_inspect error with Some m => m | None => _ end).
  set (A := to_string env (e_actual error)).
  set (E := to_string env (e_expected error)).
  assert (Hstack :
    forall text,
      Str.lines ((Str.nl +:+ msg +:+ Str.nl)
        +:+ ((Str.nl +:+ Str.nl +:+ "+ expected" +:+ " " +:+ "- actual")
        +:+ (Str.nl +:+ "- " +:+ Str.join (Str.nl +:+ "- ") (Str.split Str.LF A))
        +:+ (Str.nl +:+ "+ " +:+ Str.join (Str.nl +:+ "+ ") (Str.split Str.LF E))
        +:+ (Str.nl +:+ Str.nl)) +:+ text)
      = [""] ++ Str.lines msg ++ [""; ""; "+ expected - actual"]
        ++ (String.append "- " <$> Str.lines A)
        ++ (String.append "+ " <$> Str.lines E)
        ++ [""] ++ Str.lines text).
  { intros text.
    transitivity (Str.lines (Str.join Str.nl
      [""; msg; ""; ""; "+ expected - actual";
       "- " +:+ Str.join (Str.nl +:+ "- ") (Str.split Str.LF A);
       "+ " +:+ Str.join (Str.nl +:+ "+ ") (Str.split Str.LF E);
       ""; text])).
    { f_equal. rewrite !append_assoc. reflexivity. }
    rewrite lines_join by done. cbn [fmap list_fmap concat].
    unfold Str.lines at 6 7.
    rewrite !split_join_marked;
      [|done|apply split_nonempty|apply split_free
       |done|apply split_nonempty|apply split_free].
    rewrite app_nil_r. reflexivity. }
  destruct (callsiteRecord env error) as [|text|e]; cbn [fst snd rendered];
    [rewrite <- (Hstack "")|rewrite <- (Hstack text)|rewrite <- (Hstack "")];
    f_equal; rewrite !append_assoc; reflexivity.
Qed.

Lemma format_error_stack_nonempty (message : string) (error : ErrorObj) :
  String.eqb (format_error env message error).1.2 "" = false.
Proof.
  unfold format_error.
  destruct (truthy (e_actual error) && truthy (e_expected error));
    destruct (callsiteRecord env error); reflexivity.
Qed.

Lemma marked_lines (mark v : string) :
  Str.free_of Str.LF mark ->
  Str.lines (mark +:+ Str.join (Str.nl +:+ mark) (Str.split Str.LF v))
  = String.append mark <$> Str.lines v.
Proof.
  intros Hm. unfold Str.lines.
  apply split_join_marked; [done|apply split_nonempty|apply split_free].
Qed.

Lemma format_error_text (message : string) (error : ErrorObj) :
  truthy (e_actual error) = true ->
  truthy (e_expected error) = true ->
  exists A E,
    (format_error env message error).1.2
    = Str.nl +:+ bold (chalk env) (format_error env message error).1.1 +:+ Str.nl
      +:+ Str.nl +:+ Str.nl
      +:+ bold_green (chalk env) "+ expected" +:+ " "
      +:+ bold_red (chalk env) "- actual" +:+ Str.nl
      +:+ red (chalk env) A +:+ Str.nl
      +:+ green (chalk env) E +:+ Str.nl +:+ Str.nl
      +:+ rendered (callsiteRecord env error) /\
    Str.lines A = String.append "- " <$> Str.lines (to_string env (e_actual error)) /\
    Str.lines E = String.append "+ " <$> Str.lines (to_string env (e_expected error)).
Proof.
  intros Ha He.
  exists ("- " +:+ Str.join (Str.nl +:+ "- ")
                  (Str.split Str.LF (to_string env (e_actual error)))),
         ("+ " +:+ Str.join (Str.nl +:+ "+ ")
                  (Str.split Str.LF (to_string env (e_expected error)))).
  split; [|split; by apply marked_lines].
  unfold format_error, diff_block. rewrite Ha, He. cbn [andb].
  destruct (callsiteRecord env error) as [|text|e]; cbn [fst snd rendered];
    rewrite ?append_nil_r, !append_assoc; reflexivity.
Qed.

(** C6 (as amended).  Whatever the styles of [chalk] do, the diagnostic
    text of an error that carries both values is: the step trace and the
    failure banner when there are steps; the message between line
    breaks; the legend, [+ expected] and [- actual] each in its style
    with a blank between them; a line break and, as one block in the
    style [red], the actual value with the mark [- ] before every line
    of it; a line break and, as one block in the style [green], the
    expected value with the mark [+ ] before every line of it; then the
    rendered stack.  With colours off the lines of the text are the
    legend [+ expected - actual], the marked lines of the actual value
    and then those of the expected value. *)
Theorem C6_diff_block_lines
  (c : Client) (testId status : jsval) (td : TestData) (error : ErrorObj) :
  td_error td = Some error ->
  truthy (e_actual error) = true ->
  truthy (e_expected error) = true ->
  let cl := (addTestRun_prepare env c testId status td).1.1 in
  exists text A E,
    cl_stack cl = JStr text /\
    text
    = (if truthy (td_steps td)
       then to_string env (td_steps td) +:+ Str.nl +:+ Str.nl
            +:+ bold_red (chalk env) failure_banner +:+ Str.nl
       else "")
      +:+ Str.nl +:+ bold (chalk env) (cl_message cl) +:+ Str.nl
      +:+ Str.nl +:+ Str.nl
      +:+ bold_green (chalk env) "+ expected" +:+ " "
      +:+ bold_red (chalk env) "- actual" +:+ Str.nl
      +:+ red (chalk env) A +:+ Str.nl
      +:+ green (chalk env) E +:+ Str.nl +:+ Str.nl
      +:+ rendered (callsiteRecord env error) /\
    Str.lines A = String.append "- " <$> Str.lines (to_string env (e_actual error)) /\
    Str.lines E = String.append "+ " <$> Str.lines (to_string env (e_expected error)) /\
    (chalk env = plain_chalk ->
     Str.lines text =
       (if truthy (td_steps td)
        then Str.lines (to_string env (td_steps td)) ++ [""; failure_banner]
        else [])
       ++ [""] ++ Str.lines (cl_message cl)
       ++ [""; ""; "+ expected - actual"]
       ++ (String.append "- " <$> Str.lines (to_string env (e_actual error)))
       ++ (String.append "+ " <$> Str.lines (to_string env (e_expected error)))
       ++ [""]
       ++ Str.lines (rendered (callsiteRecord env error))).
Proof.
  intros Herr Ha He. unfold addTestRun_prepare. rewrite Herr.
  destruct (format_error_text (default "" (td_message td)) error Ha He)
    as (A & E & Ht & HA & HE).
  pose proof (fun Hc => format_error_lines (default "" (td_message td)) error Hc Ha He)
    as Hl.
  pose proof (format_error_stack_nonempty (default "" (td_message td)) error) as Hn.
  destruct (format_error env (default "" (td_message td)) error)
    as [[msg stack] logs].
  cbn [fst snd] in *. cbn [cl_stack cl_message]. unfold with_steps.
  rewrite Hn. cbn [negb].
  destruct (truthy (td_steps td)).
  - eexists _, A, E. split; [reflexivity|]. split_and!; [|done|done|].
    + rewrite Ht, !append_assoc. reflexivity.
    + intros Hc. rewrite Hc. cbn [plain_chalk bold_red id].
      change (to_string env (td_steps td) +:+ Str.nl +:+ Str.nl
              +:+ failure_banner +:+ Str.nl +:+ stack)
        with (Str.join Str.nl [to_string env (td_steps td); ""; failure_banner; stack]).
      rewrite lines_join by done. cbn [fmap list_fmap concat].
      rewrite (Hl Hc), app_nil_r, <- !app_assoc. reflexivity.
  - eexists _, A, E. split; [reflexivity|]. split_and!; [|done|done|].
    + rewrite Ht. reflexivity.
    + intros Hc. exact (Hl Hc).
Qed.
(** ** The status tag *)

(** C8.  On an idle client with a resolved run id, [updateRunStatus]
    sends the tag [pass] for [passed] and [fail] for [failed], followed by
    [_parallel] when the parallel flag is set: [pass_parallel] for
    (passed, true) and the plain [fail] for (failed, false). *)
Theorem C8_status_event (s : State) (o : Outcome) :
  running s = None -> pending s = [] -> chain s = Fulfilled ->
  truthy_str (runId (this s)) = true ->
  (forall isParallel,
      history (run env [Do (UpdateRunStatus PASSED isParallel); Tick o] s)
      = history s
        ++ [ESend (status_request env s PASSED ("pass" +:+ parallel_suffix isParallel))])
  /\ (forall isParallel,
      history (run env [Do (UpdateRunStatus FAILED isParallel); Tick o] s)
      = history s
        ++ [ESend (status_request env s FAILED ("fail" +:+ parallel_suffix isParallel))])
  /\ sends (history (run env [Do (UpdateRunStatus PASSED (JBool true)); Tick o] s))
     = sends (history s) ++ [status_request env s PASSED "pass_parallel"]
  /\ sends (history (run env [Do (UpdateRunStatus FAILED (JBool false)); Tick o] s))
     = sends (history s) ++ [status_request env s FAILED "fail"].
Proof.
  intros Hr Hp Hc Hid.
  assert (Hgen : forall status isParallel,
    history (run env [Do (UpdateRunStatus status isParallel); Tick o] s)
    = history s
      ++ [ESend (PutStatus (status_url env (runId (this s)))
            {| sb_api_key := apiKey (this s);
               sb_status_event := statusEvent status isParallel;
               sb_status := status |})]).
  { intros status isParallel.
    destruct s as [c prid res rn pd tr rt]. unfold chain in Hc.
    cbn in Hr, Hp, Hc, Hid. subst rn pd.
    unfold run, history. cbn [foldl step call].
    unfold updateRunStatus, tick, enqueue. cbn.
    unfold start_task, chain. cbn. rewrite Hc, Hid. cbn.
    apply reverse_cons. }
  repeat split.
  - intros par. rewrite Hgen. unfold status_request, statusEvent, parallel_suffix.
    by destruct (truthy par).
  - intros par. rewrite Hgen. unfold status_request, statusEvent, parallel_suffix.
    by destruct (truthy par).
  - rewrite Hgen. unfold sends. rewrite omap_app. reflexivity.
  - rewrite Hgen. unfold sends. rewrite omap_app. reflexivity.
Qed.
End Diagnostics.

(* ================================================================== *)
(** * The request queue *)
(* ================================================================== *)

Section Queue.
Context (env : Env).

(** ** One request at a time *)

Lemma emit_all_eq (evs : list Event) (s : State) :
  emit_all evs s =
    {| this := this s; proc_runId := proc_runId s; results := results s;
       running := running s; pending := pending s;
       trace := reverse evs ++ trace s; returned := returned s |}.
Proof.
  revert s. induction evs as [|e evs IH]; intros s.
  - by destruct s.
  - cbn [emit_all foldl]. unfold emit_all in IH. rewrite IH.
    rewrite reverse_cons, <- app_assoc. reflexivity.
Qed.

Lemma in_flight_quiet (l tr : list Event) :
  Forall quiet l -> in_flight (l ++ tr) = in_flight tr.
Proof.
  induction 1 as [|e l He Hl IH]; [done|].
  destruct e; try done; cbn; exact IH.
Qed.

Lemma serial_quiet (l tr : list Event) :
  Forall quiet l -> (0 <= in_flight tr <= 1)%Z -> serial tr -> serial (l ++ tr).
Proof.
  intros Hl Hb Hs. induction Hl as [|e l He Hl IH]; [done|].
  cbn [app serial]. split; [|exact IH].
  change (e :: l ++ tr) with ((e :: l) ++ tr).
  rewrite in_flight_quiet; [done|by constructor].
Qed.

Lemma flight_inv_bounds (s : State) :
  flight_inv s -> (0 <= in_flight (trace s) <= 1)%Z.
Proof. intros [_ ->]. destruct (running s) as [[]|]; lia. Qed.

Lemma flight_inv_emit_all (evs : list Event) (s : State) :
  Forall quiet evs -> flight_inv s -> flight_inv (emit_all evs s).
Proof.
  intros Hq Hs. pose proof (flight_inv_bounds s Hs) as Hb.
  destruct Hs as [Hser Hfl]. rewrite emit_all_eq. unfold flight_inv. cbn.
  apply Forall_reverse in Hq. split.
  - by apply serial_quiet.
  - by rewrite in_flight_quiet.
Qed.

(** ** Normal forms of the reactions *)

Lemma rejected_eq (t : Task) (e : JsError) (s : State) :
  rejected t e s =
    {| this := this s; proc_runId := proc_runId s;
       results := results s ++ [(handler t e).2]; running := None;
       pending := pending s; trace := reverse (handler t e).1 ++ trace s;
       returned := returned s |}.
Proof. unfold rejected. rewrite emit_all_eq. reflexivity. Qed.

Lemma handler_quiet (t : Task) (e : JsError) : Forall quiet (reverse (handler t e).1).
Proof.
  apply Forall_reverse. destruct t; cbn; unfold catch_add; repeat case_match;
    repeat constructor.
Qed.

Lemma handler_absorbs (t : Task) (e : JsError) :
  has_catch t = true -> reporting_error e -> (handler t e).2 = Fulfilled.
Proof.
  unfold reporting_error. destruct t; cbn; try done. intros _.
  unfold catch_add. destruct (err_response e) as [r|]; [|done].
  intros Hr. by apply Z.leb_le in Hr as ->.
Qed.

Lemma handler_reporting (t : Task) (e : JsError) :
  reporting_error e -> reporting_settlement (handler t e).2.
Proof.
  intros He. destruct (has_catch t) eqn:Hc.
  - by rewrite handler_absorbs.
  - by destruct t.
Qed.

Lemma fulfilled_eq (t : Task) (resp : Response) (s : State) :
  exists c' p' logs,
    fulfilled env t resp s =
      {| this := c'; proc_runId := p';
         results := results s ++ [Fulfilled]; running := None;
         pending := pending s; trace := logs ++ trace s;
         returned := returned s |}
    /\ Forall quiet logs
    /\ apiKey c' = apiKey (this s)
    /\ (match t with TCreateRun _ => False | _ => True end ->
        c' = this s /\ p' = proc_runId s).
Proof.
  destruct t as [rid rp|rp|cl|st par]; cbn [fulfilled].
  - exists (this s), (proc_runId s), []. by repeat split.
  - unfold created. destruct (r_data resp) as [d|].
    + destruct (rd_url d) as [u|].
      * eexists _, _, [_]. split; [reflexivity|].
        repeat split; try done; cbn; by repeat constructor.
      * rewrite rejected_eq. eexists _, _, _. split; [reflexivity|].
        repeat split; try done; cbn; by repeat constructor.
    + rewrite rejected_eq. eexists _, _, _. split; [reflexivity|].
      repeat split; try done; cbn; by repeat constructor.
  - exists (this s), (proc_runId s), []. by repeat split.
  - destruct (truthy_str (runUrl (this s))).
    + exists (this s), (proc_runId s), [ELog (LogReportSaved (interp (runUrl (this s))))].
      repeat split; try done; cbn; by repeat constructor.
    + exists (this s), (proc_runId s), []. by repeat split.
Qed.

#[local] Arguments handler : simpl never.

Lemma flight_inv_tick (o : Outcome) (s : State) :
  flight_inv s -> flight_inv (tick env o s).
Proof.
  intros Hs. pose proof (flight_inv_bounds s Hs) as Hb.
  destruct Hs as [Hser Hfl]. unfold tick.
  destruct (running s) as [[cl|t]|] eqn:Hrun.
  - unfold uploads_settled. destruct (promise_all _) as [arts|e].
    + split; cbn; [|lia]. split; [lia|done].
    + rewrite rejected_eq. split; cbn.
      * apply serial_quiet; [apply handler_quiet|done|done].
      * rewrite in_flight_quiet by apply handler_quiet. done.
  - assert (Hrecv : serial (ERecv o :: trace s)) by (cbn; split; [lia|done]).
    unfold response_arrives. destruct o as [resp|e].
    + destruct (fulfilled_eq t resp (emit (ERecv (Resolves resp)) s))
        as (c' & p' & logs & -> & Hq & _). split; cbn.
      * apply serial_quiet; [done|cbn; lia|done].
      * rewrite in_flight_quiet by done. cbn. lia.
    + rewrite rejected_eq. split; cbn.
      * apply serial_quiet; [apply handler_quiet|cbn; lia|done].
      * rewrite in_flight_quiet by apply handler_quiet. cbn. lia.
  - destruct (pending s) as [|t rest] eqn:Hp.
    + split; [done|]. by rewrite Hrun.
    + unfold start_task. destruct (chain _) as [|e].
      * destruct t as [rid rp|rp|cl|st par]; cbn [reaction];
          repeat case_match; (split; cbn; [try (split; [lia|done]); done|lia]).
      * rewrite rejected_eq. split; cbn.
        -- apply serial_quiet; [apply handler_quiet|done|done].
        -- rewrite in_flight_quiet by apply handler_quiet. done.
Qed.

Lemma tick_returned (o : Outcome) (s : State) :
  returned (tick env o s) = returned s.
Proof.
  unfold tick, uploads_settled, response_arrives, start_task.
  repeat case_match; rewrite ?rejected_eq; try done.
  - by destruct (fulfilled_eq t a (emit (ERecv (Resolves a)) s))
      as (c' & p' & logs & -> & _).
  - destruct t; cbn; repeat case_match; done.
Qed.


(** ** The shape of a turn *)

Lemma ntasks_tasks_left (s : State) :
  ntasks s = length (results s) + length (tasks_left s).
Proof.
  unfold ntasks, tasks_left. destruct (running s) as [[]|]; cbn; lia.
Qed.

(** A turn does nothing when no task is left; otherwise it either
    suspends the first task left or settles it. *)
Lemma tick_shape (o : Outcome) (s : State) :
  (tick env o s = s /\ tasks_left s = [])
  \/ (results (tick env o s) = results s /\
      tasks_left (tick env o s) = tasks_left s /\
      work (tick env o s) < work s)
  \/ (exists t rest st,
        tasks_left s = t :: rest /\
        tasks_left (tick env o s) = rest /\
        results (tick env o s) = results s ++ [st] /\
        work (tick env o s) < work s /\
        (reporting_outcome o -> reporting_settlement (chain s) ->
         uploads_ok t ->
         reporting_settlement st /\ (has_catch t = true -> st = Fulfilled))).
Proof.
  unfold tick, tasks_left, work.
  destruct (running s) as [[cl|t]|] eqn:Hrun.
  - unfold uploads_settled. destruct (promise_all _) as [arts|e] eqn:Hall.
    + right; left. cbn. split_and!; (done || lia).
    + right; right. rewrite rejected_eq. eexists _, _, _. cbn.
      split_and!; [done|done|done|lia|]. intros _ _ Hu. specialize (Hu _ Hall).
      split; [by apply handler_reporting|by intros; apply handler_absorbs].
  - right; right. unfold response_arrives. destruct o as [resp|e].
    + destruct (fulfilled_eq t resp (emit (ERecv (Resolves resp)) s))
        as (c' & p' & logs & -> & _).
      eexists _, _, _. cbn. split_and!; [done|done|done|lia|done].
    + rewrite rejected_eq. eexists _, _, _. cbn.
      split_and!; [done|done|done|lia|]. intros He _ _.
      split; [by apply handler_reporting|by intros; apply handler_absorbs].
  - destruct (pending s) as [|t rest] eqn:Hp; [by left|].
    unfold start_task.
    replace (chain (set_pending rest s)) with (chain s) by done.
    destruct (chain s) as [|e].
    + destruct t as [rid rp|rp|cl|st par]; cbn [reaction].
      * right; left. cbn. split_and!; (done || lia).
      * right; left. cbn. split_and!; (done || lia).
      * destruct (truthy_str _); cbn [negb].
        -- right; left. cbn. split_and!; (done || lia).
        -- right; right. eexists _, _, _. cbn.
           split_and!; [done|done|done|lia|done].
      * destruct (truthy_str _).
        -- right; left. cbn. split_and!; (done || lia).
        -- right; right. eexists _, _, _. cbn.
           split_and!; [done|done|done|lia|done].
    + right; right. rewrite rejected_eq. eexists _, _, _. cbn.
      split_and!; [done|done|done|lia|]. intros _ He _.
      split; [by apply handler_reporting|by intros; apply handler_absorbs].
Qed.

(** ** Every turn makes progress *)

Lemma work_zero (s : State) : tasks_left s = [] <-> work s = 0.
Proof.
  unfold tasks_left, work.
  destruct (running s) as [[]|]; destruct (pending s); cbn; split; (done || lia).
Qed.

Lemma drain (outs : list Outcome) (s : State) :
  work s <= length outs -> tasks_left (run env (Tick <$> outs) s) = [].
Proof.
  revert s. induction outs as [|o outs IH]; intros s Hw.
  - cbn. apply work_zero. cbn [length] in Hw. lia.
  - cbn [fmap list_fmap run foldl step]. apply IH.
    destruct (tick_shape o s) as [[-> Hl]|[(_ & _ & Hlt)|(t & rest & st & _ & _ & _ & Hlt & _)]].
    + apply work_zero in Hl. lia.
    + cbn [length] in Hw. lia.
    + cbn [length] in Hw. lia.
Qed.

(** ** The calls *)

Lemma tasks_left_enqueue (t : Task) (s : State) :
  tasks_left (enqueue t s) = tasks_left s ++ [t].
Proof. unfold tasks_left, enqueue. cbn. by destruct (running s) as [[]|]. Qed.

Lemma tasks_left_give_enqueue (r : Ret) (t : Task) (s : State) :
  tasks_left (give r (enqueue t s)) = tasks_left s ++ [t].
Proof. exact (tasks_left_enqueue t s). Qed.

Lemma promise_all_rejects (l : list (Settled jsval JsError)) (e : JsError) :
  promise_all l = Rejects e -> Rejects e ∈ l.
Proof.
  induction l as [|[a|e'] l IH]; cbn; [done|..].
  - destruct (promise_all l); [done|]. intros [= ->]. right. by apply IH.
  - intros [= ->]. left.
Qed.

Lemma prepare_uploads_ok (c : Client) (testId status : jsval) (td : TestData) :
  (forall f rid, reporting_upload (uploadFile env f rid)) ->
  uploads_ok (TAddTestRun (addTestRun_prepare env c testId status td).1.1).
Proof.
  intros Hup e He. apply promise_all_rejects in He.
  unfold addTestRun_prepare in He.
  destruct (match td_error td with Some _ => _ | None => _ end) as [[m st] logs].
  cbn in He. apply list_elem_of_fmap in He as (f & Hf & _).
  specialize (Hup f (interp (runId c))). by rewrite <- Hf in Hup.
Qed.

Lemma prepare_quiet (c : Client) (testId status : jsval) (td : TestData) :
  Forall quiet (addTestRun_prepare env c testId status td).2.
Proof.
  unfold addTestRun_prepare.
  destruct (match td_error td with Some _ => _ | None => _ end)
    as [[m st] logs] eqn:E.
  cbn. apply Forall_app. split.
  - destruct (td_error td) as [err|]; [|by simplify_eq].
    unfold format_error in E. destruct (callsiteRecord env err); simplify_eq;
      by repeat constructor.
  - apply Forall_fmap, Forall_true. done.
Qed.

(** What a call does to the chain: nothing, or one more task at its end. *)
Lemma call_shape (x : Call) (s : State) :
  results (call env x s) = results s /\
  apiKey (this (call env x s)) = apiKey (this s) /\
  ((tasks_left (call env x s) = tasks_left s /\
    exists r, returned (call env x s) = r :: returned s /\
              match r with
              | RetUndefined => True
              | RetThrows _ => apiKey (this s) = None
              | _ => False
              end)
   \/ (exists t r,
        tasks_left (call env x s) = tasks_left s ++ [t] /\
        returned (call env x s) = r :: returned s /\
        match r with
        | RetResolved _ => True
        | RetQueue n => n = ntasks s /\ has_catch t = true
        | _ => False
        end /\
        ((forall f rid, reporting_upload (uploadFile env f rid)) -> uploads_ok t))).
Proof.
  destruct x as [|testId status td|status par]; cbn [call].
  - unfold createRun. destruct (apiKey (this s)) as [key|] eqn:Hk.
    + destruct (negb _).
      * split_and!; [done|done|]. left. split; [done|]. by eexists.
      * destruct (truthy_str _).
        -- split_and!; [done|done|]. right. eexists _, _.
           rewrite tasks_left_give_enqueue. by split_and!.
        -- split_and!; [done|done|]. right. eexists _, _.
           rewrite tasks_left_give_enqueue. by split_and!.
    + split_and!; [done|done|]. left. split; [done|]. by eexists.
  - unfold addTestRun.
    pose proof (prepare_uploads_ok (this s) testId status td) as Hup.
    destruct (addTestRun_prepare env (this s) testId status td) as [[cl td'] evs].
    rewrite emit_all_eq. split_and!; [done|done|]. right. eexists _, _.
    rewrite tasks_left_give_enqueue. split_and!; [done|done| |done].
    split; [|done]. rewrite !ntasks_tasks_left. done.
  - unfold updateRunStatus. split_and!; [done|done|]. right. eexists _, _.
    rewrite tasks_left_give_enqueue. by split_and!.
Qed.

(** ** Futures *)





Lemma returned_ticks (outs : list Outcome) (s : State) :
  returned (run env (Tick <$> outs) s) = returned s.
Proof.
  revert s. induction outs as [|o outs IH]; intros s; [done|].
  cbn [fmap list_fmap run foldl step]. unfold run in IH.
  by rewrite IH, tick_returned.
Qed.



(** ** What the transport and the uploader have seen *)

Lemma sends_app (l k : list Event) : sends (l ++ k) = sends l ++ sends k.
Proof. apply omap_app. Qed.

Lemma uploads_app (l k : list Event) : uploads (l ++ k) = uploads l ++ uploads k.
Proof. apply omap_app. Qed.

Lemma quiet_no_send (l : list Event) : Forall quiet l -> Forall no_send l.
Proof. intros H. eapply Forall_impl; [exact H|]. by intros []. Qed.

Lemma sends_no_send (l : list Event) : Forall no_send l -> sends l = [].
Proof. induction 1 as [|[] l Hq Hl IH]; cbn in *; done. Qed.

Lemma sends_quiet (l : list Event) : Forall quiet l -> sends l = [].
Proof. intros H. by apply sends_no_send, quiet_no_send. Qed.

Lemma uploads_logs (l : list Event) : Forall is_log l -> uploads l = [].
Proof. induction 1 as [|[] l Hq Hl IH]; cbn in *; done. Qed.

Lemma is_log_quiet (l : list Event) : Forall is_log l -> Forall quiet l.
Proof. intros H. eapply Forall_impl; [exact H|]. by intros []. Qed.

Lemma history_emits (evs : list Event) (s s' : State) :
  trace s' = evs ++ trace s -> history s' = history s ++ reverse evs.
Proof. unfold history. intros ->. apply reverse_app. Qed.

(** ** Without a run id *)

Lemma prepare_no_run (c : Client) (testId status : jsval) (td : TestData) :
  truthy_str (runId c) = false ->
  Forall is_log (addTestRun_prepare env c testId status td).2 /\
  cl_uploadedFiles (addTestRun_prepare env c testId status td).1.1 = [].
Proof.
  intros Hid. unfold addTestRun_prepare. rewrite Hid.
  destruct (match td_error td with Some _ => _ | None => _ end)
    as [[m st] logs] eqn:E.
  cbn. split; [|done]. rewrite app_nil_r.
  destruct (td_error td) as [err|]; [|by simplify_eq].
  unfold format_error in E. destruct (callsiteRecord env err); simplify_eq;
    by repeat constructor.
Qed.

Lemma norun_chain (s0 s : State) :
  chain s0 = Fulfilled -> norun_inv s0 s -> chain s = Fulfilled.
Proof.
  intros H0 (_ & _ & _ & [k Hk] & _). unfold chain in *. rewrite Hk.
  destruct k as [|k]; [by rewrite app_nil_r|].
  rewrite replicate_S_end, app_assoc, last_snoc. done.
Qed.

Lemma norun_tick (o : Outcome) (s0 s : State) :
  chain s0 = Fulfilled -> norun_inv s0 s ->
  norun_inv s0 (tick env o s) /\
  length (pending (tick env o s)) = pred (length (pending s)).
Proof.
  intros H0 Hinv. pose proof (norun_chain s0 s H0 Hinv) as Hc.
  destruct Hinv as (Hid & Hrun & Hp & [k Hk] & Hlogs & news & Hret & Hnews).
  unfold tick. rewrite Hrun. destruct (pending s) as [|t rest] eqn:Hpd.
  - split; [|by rewrite Hpd]. unfold norun_inv. rewrite Hpd. split_and!; eauto.
  - unfold start_task. replace (chain (set_pending rest s)) with (chain s) by done.
    rewrite Hc. apply Forall_cons in Hp as [Ht Hp].
    assert (reaction env t (set_pending rest s) = settle Fulfilled (set_pending rest s))
      as ->.
    { destruct t; try done; cbn; by rewrite Hid. }
    split; [|done]. unfold norun_inv. cbn. split_and!; [done|done|done| |done|].
    + exists (S k). by rewrite Hk, replicate_S_end, app_assoc.
    + exists news. split; [done|]. eapply Forall_impl; [exact Hnews|].
      intros r (n & -> & Hn). exists n. split; [done|].
      unfold ntasks in *. rewrite Hrun, Hpd in Hn. cbn in *.
      rewrite length_app. cbn. lia.
Qed.

Lemma ntasks_give_enqueue (r : Ret) (t : Task) (s : State) :
  ntasks (give r (enqueue t s)) = S (ntasks s).
Proof. unfold ntasks. cbn. rewrite length_app. cbn. lia. Qed.

Lemma norun_enqueue (s0 s s1 : State) (t : Task) (evs : list Event) :
  norun_inv s0 s ->
  this s1 = this s -> results s1 = results s -> running s1 = running s ->
  pending s1 = pending s -> returned s1 = returned s ->
  trace s1 = evs ++ trace s -> Forall is_log evs ->
  report_task t = true ->
  norun_inv s0 (give (RetQueue (ntasks s1)) (enqueue t s1)).
Proof.
  intros (Hid & Hrun & Hp & [k Hk] & (logs & Htr & Hlogs) & news & Hret & Hnews)
    H1 H2 H3 H4 H5 H6 Hevs Ht.
  assert (Hn : ntasks s1 = ntasks s) by (unfold ntasks; by rewrite H2, H3, H4).
  unfold norun_inv. rewrite ntasks_give_enqueue, Hn.
  cbn [this running pending results trace returned give enqueue set_pending].
  rewrite H1, H2, H3, H4, H5, H6.
  split_and!; [done|done| |by exists k| |].
  - apply Forall_app. split; [done|]. by repeat constructor.
  - exists (evs ++ logs). rewrite Htr, app_assoc. split; [done|].
    apply Forall_app. done.
  - exists (RetQueue (ntasks s) :: news). rewrite Hret. split; [done|].
    constructor.
    + eexists. split; [done|]. rewrite (ntasks_tasks_left s), Hk, length_app. lia.
    + eapply Forall_impl; [exact Hnews|]. intros r (n & -> & Hlt).
      exists n. split; [done|lia].
Qed.

Lemma norun_call (x : Call) (s0 s : State) :
  is_report x = true -> norun_inv s0 s -> norun_inv s0 (call env x s).
Proof.
  intros Hx Hinv.
  destruct x as [|testId status td|status par]; [done|..]; cbn [call].
  - unfold addTestRun.
    destruct (prepare_no_run (this s) testId status td (proj1 Hinv)) as [Hl _].
    destruct (addTestRun_prepare env (this s) testId status td) as [[cl td'] evs].
    cbn [snd] in Hl. rewrite emit_all_eq.
    eapply (norun_enqueue s0 s _ _ (reverse evs)); try done.
    by apply Forall_reverse.
  - unfold updateRunStatus. by eapply (norun_enqueue s0 s s _ []).
Qed.

Lemma norun_run (sched : list Step) (s0 s : State) :
  chain s0 = Fulfilled ->
  Forall (fun x => is_report x = true) (calls_of sched) ->
  norun_inv s0 s -> norun_inv s0 (run env sched s).
Proof.
  intros H0. revert s. induction sched as [|x sched IH]; intros s Hs Hinv; [done|].
  cbn [run foldl]. destruct x as [c|o]; cbn [step].
  - cbn in Hs. apply Forall_cons in Hs as [Hc Hs]. apply IH; [done|].
    by apply norun_call.
  - cbn in Hs. apply IH; [done|]. by apply norun_tick.
Qed.

Lemma norun_drain (outs : list Outcome) (s0 s : State) :
  chain s0 = Fulfilled -> norun_inv s0 s ->
  length (pending s) <= length outs ->
  norun_inv s0 (run env (Tick <$> outs) s) /\
  pending (run env (Tick <$> outs) s) = [].
Proof.
  intros H0. revert s. induction outs as [|o outs IH]; intros s Hinv Hlen.
  - split; [done|]. cbn in *. destruct (pending s); [done|cbn in Hlen; lia].
  - cbn [fmap list_fmap run foldl step].
    destruct (norun_tick o s0 s H0 Hinv) as [Hinv' Hlen'].
    apply IH; [done|]. cbn [length] in Hlen. lia.
Qed.

Lemma norun_inv_refl (s : State) :
  truthy_str (runId (this s)) = false -> running s = None ->
  Forall (fun t => report_task t = true) (pending s) ->
  norun_inv s s.
Proof.
  intros Hid Hrun Hp. split_and!; [done|done|done|..].
  - exists 0. by rewrite app_nil_r.
  - by exists [].
  - by exists [].
Qed.

Lemma returned_run (sched : list Step) (s : State) :
  length (returned (run env sched s))
  = length (calls_of sched) + length (returned s).
Proof.
  revert s. induction sched as [|[c|o] sched IH]; intros s; [done|..];
    cbn [run foldl step]; unfold run in IH; rewrite IH.
  - change (calls_of (Do c :: sched)) with (c :: calls_of sched).
    destruct (call_shape c s) as (_ & _ & [(_ & r & -> & _)|(t & r & _ & -> & _)]);
      cbn [length]; lia.
  - change (calls_of (Tick o :: sched)) with (calls_of sched).
    by rewrite tick_returned.
Qed.

(** C4.  While no run id is resolved (and no create request is queued),
    [addTestRun] and [updateRunStatus] hand nothing to the transport and
    ask for no upload, at any moment; each call returns a future of the
    chain, not an exception, and that future is fulfilled once the chain
    has had one turn per queued task. *)
Theorem C4_no_run_no_op (s : State) (sched : list Step) (outs : list Outcome) :
  truthy_str (runId (this s)) = false ->
  running s = None ->
  chain s = Fulfilled ->
  Forall (fun t => report_task t = true) (pending s) ->
  Forall (fun x => is_report x = true) (calls_of sched) ->
  length (pending (run env sched s)) <= length outs ->
  let s' := run env sched s in
  let s'' := run env (Tick <$> outs) s' in
  sends (history s') = sends (history s) /\
  uploads (history s') = uploads (history s) /\
  sends (history s'') = sends (history s) /\
  uploads (history s'') = uploads (history s) /\
  exists news,
    returned s' = news ++ returned s /\
    length news = length (calls_of sched) /\
    forall r, r ∈ news ->
      (exists n, r = RetQueue n) /\ future_state s'' r = Some Fulfilled.
Proof.
  intros Hid Hrun Hc Hp Hcalls Hlen s' s''.
  assert (Hinv' : norun_inv s s').
  { apply norun_run; [done|done|]. by apply norun_inv_refl. }
  destruct (norun_drain outs s s' Hc Hinv' Hlen) as [Hinv'' Hpd''].
  fold s'' in Hinv'', Hpd''.
  assert (Hquiet : forall s1, norun_inv s s1 ->
    sends (history s1) = sends (history s) /\
    uploads (history s1) = uploads (history s)).
  { intros s1 (_ & _ & _ & _ & (logs & Htr & Hlogs) & _).
    rewrite (history_emits logs s s1 Htr), sends_app, uploads_app.
    apply Forall_reverse in Hlogs.
    rewrite (sends_quiet (reverse logs)) by (by apply is_log_quiet).
    rewrite (uploads_logs (reverse logs)) by done.
    by rewrite !app_nil_r. }
  destruct (Hquiet s' Hinv') as [Hs1 Hu1].
  destruct (Hquiet s'' Hinv'') as [Hs2 Hu2].
  split_and!; [done..|].
  destruct Hinv'' as (_ & Hrun'' & _ & [k Hk] & _ & news & Hret & Hnews).
  unfold s'' in Hret. rewrite returned_ticks in Hret. fold s' in Hret.
  exists news. split; [done|]. split.
  - pose proof (returned_run sched s) as Hl. fold s' in Hl.
    rewrite Hret, length_app in Hl. lia.
  - intros r Hr. rewrite Forall_forall in Hnews.
    destruct (Hnews r Hr) as (n & -> & Hn). split; [by eexists|].
    cbn [future_state]. fold s''. rewrite Hk.
    unfold ntasks in Hn. rewrite Hrun'', Hpd'', Hk, length_app, length_replicate in Hn.
    cbn [length] in Hn.
    rewrite lookup_app_r by lia. apply lookup_replicate_2. lia.
Qed.

(** ** The order of the requests *)

Lemma sends_history_quiet (evs : list Event) (s s' : State) :
  trace s' = evs ++ trace s -> Forall no_send evs ->
  sends (history s') = sends (history s).
Proof.
  intros Htr Hq. rewrite (history_emits evs s s' Htr), sends_app.
  rewrite (sends_no_send (reverse evs)) by (by apply Forall_reverse).
  by rewrite app_nil_r.
Qed.

Lemma sends_history_send (req : Request) (s s' : State) :
  trace s' = ESend req :: trace s ->
  sends (history s') = sends (history s) ++ [req].
Proof.
  intros Htr. by rewrite (history_emits [ESend req] s s' Htr), sends_app.
Qed.

Lemma uploads_history_send (req : Request) (s s' : State) :
  trace s' = ESend req :: trace s ->
  uploads (history s') = uploads (history s).
Proof.
  intros Htr. rewrite (history_emits [ESend req] s s' Htr), uploads_app.
  apply app_nil_r.
Qed.

Lemma chain_settle_fulfilled (s s' : State) :
  results s' = results s ++ [Fulfilled] -> chain s' = Fulfilled.
Proof. unfold chain. intros ->. by rewrite last_snoc. Qed.

Lemma report_task_has_catch (t : Task) : report_task t = true -> has_catch t = true.
Proof. by destruct t. Qed.

Lemma order_inv_tick (o : Outcome) (s0 : State) (calls : list Call) (s : State) :
  truthy_str (runId (this s0)) = true ->
  reporting_outcome o ->
  order_inv env s0 calls s -> order_inv env s0 calls (tick env o s).
Proof.
  intros Hid Ho (Hthis & Hc & Htl & Hsent). unfold order_inv, tick, unsent, tasks_left in *.
  destruct (running s) as [[cl|t]|] eqn:Hrun.
  - apply Forall_cons in Htl as [[_ Hup] Htl]. unfold uploads_settled.
    cbn [flat_map request_of] in Hsent.
    destruct (promise_all _) as [arts|e] eqn:Hall.
    + cbn -[history sends]. rewrite (sends_history_send _ s) by done.
      rewrite Hthis, <- Hsent, <- app_assoc.
      split_and!; [done|done|by constructor|done].
    + rewrite rejected_eq. cbn [this running pending results].
      pose proof (handler_absorbs (TAddTestRun cl) e eq_refl (Hup e Hall)) as Hf.
      split_and!; [done|by eapply chain_settle_fulfilled; rewrite <- Hf|done|].
      rewrite <- Hsent. f_equal.
      eapply sends_history_quiet; [done|]. apply quiet_no_send, handler_quiet.
  - apply Forall_cons in Htl as [[Hrep Hup] Htl]. unfold response_arrives.
    destruct o as [resp|e].
    + destruct (fulfilled_eq t resp (emit (ERecv (Resolves resp)) s))
        as (c' & p' & logs & -> & Hq & _ & Hsame).
      destruct Hsame as [-> _]; [by destruct t|].
      cbn [this running pending results].
      split_and!; [done|by eapply chain_settle_fulfilled|done|].
      rewrite <- Hsent. f_equal.
      eapply (sends_history_quiet (logs ++ [ERecv (Resolves resp)])).
      * cbn. by rewrite <- app_assoc.
      * apply Forall_app. split; [by apply quiet_no_send|by repeat constructor].
    + rewrite rejected_eq. cbn [this running pending results emit].
      pose proof (handler_absorbs t e (report_task_has_catch t Hrep) Ho) as Hf.
      split_and!; [done|by eapply chain_settle_fulfilled; rewrite <- Hf|done|].
      rewrite <- Hsent. f_equal.
      eapply (sends_history_quiet (reverse (handler t e).1 ++ [ERecv (Rejects e)])).
      * cbn. by rewrite <- app_assoc.
      * apply Forall_app.
        split; [apply quiet_no_send, handler_quiet|by repeat constructor].
  - destruct (pending s) as [|t rest] eqn:Hp.
    + rewrite Hrun, Hp. done.
    + apply Forall_cons in Htl as [[Hrep Hup] Htl]. unfold start_task.
      replace (chain (set_pending rest s)) with (chain s) by done. rewrite Hc.
      destruct t as [rid rp|rp|cl|st par]; try done; cbn [reaction].
      * replace (this (set_pending rest s)) with (this s) by done.
        rewrite Hthis, Hid. cbn -[history sends].
        split_and!; [done|done|by constructor|done].
      * replace (this (set_pending rest s)) with (this s) by done.
        rewrite Hthis, Hid. cbn -[history sends].
        split_and!; [done|done|by constructor|].
        rewrite (sends_history_send _ s) by done.
        rewrite <- Hsent, <- app_assoc. done.
Qed.

Lemma unsent_give_enqueue (r : Ret) (t : Task) (s : State) :
  unsent (give r (enqueue t s)) = unsent s ++ [t].
Proof.
  unfold unsent, tasks_left, enqueue. cbn. by destruct (running s) as [[]|].
Qed.

Lemma requests_of_calls_snoc (c : Client) (calls : list Call) (x : Call) (t : Task) :
  task_of_call env c x = Some t ->
  requests_of_calls env c (calls ++ [x])
  = requests_of_calls env c calls ++ request_of env c t.
Proof.
  intros Ht. unfold requests_of_calls. rewrite omap_app, flat_map_app.
  cbn. rewrite Ht. cbn. by rewrite app_nil_r.
Qed.

Lemma order_inv_enqueue
  (s0 s s1 : State) (calls : list Call) (x : Call) (t : Task) (r : Ret)
  (evs : list Event) :
  order_inv env s0 calls s ->
  this s1 = this s -> results s1 = results s -> running s1 = running s ->
  pending s1 = pending s -> trace s1 = evs ++ trace s -> Forall quiet evs ->
  task_of_call env (this s0) x = Some t ->
  report_task t = true -> uploads_ok t ->
  order_inv env s0 (calls ++ [x]) (give r (enqueue t s1)).
Proof.
  intros (Hthis & Hc & Htl & Hsent) H1 H2 H3 H4 H6 Hevs Ht Hrep Hup.
  unfold order_inv. rewrite unsent_give_enqueue, tasks_left_give_enqueue.
  replace (unsent s1) with (unsent s)
    by (unfold unsent, tasks_left; by rewrite H3, H4).
  replace (tasks_left s1) with (tasks_left s)
    by (unfold tasks_left; by rewrite H3, H4).
  split_and!.
  - cbn. by rewrite H1.
  - unfold chain in *. cbn. by rewrite H2.
  - apply Forall_app. split; [done|]. by repeat constructor.
  - rewrite (requests_of_calls_snoc _ _ _ _ Ht), flat_map_app, !app_assoc.
    f_equal; [|cbn; by rewrite app_nil_r]. rewrite <- Hsent. f_equal.
    apply (sends_history_quiet evs); [done|by apply quiet_no_send].
Qed.

Lemma order_inv_call (x : Call) (s0 : State) (calls : list Call) (s : State) :
  (forall f rid, reporting_upload (uploadFile env f rid)) ->
  is_report x = true ->
  order_inv env s0 calls s -> order_inv env s0 (calls ++ [x]) (call env x s).
Proof.
  intros Hupl Hx Hinv.
  destruct x as [|testId status td|status par]; [done|..]; cbn [call].
  - unfold addTestRun.
    pose proof (prepare_uploads_ok (this s) testId status td Hupl) as Hup.
    pose proof (prepare_quiet (this s) testId status td) as Hq.
    assert (Ht : task_of_call env (this s0) (AddTestRun testId status td)
                 = Some (TAddTestRun (addTestRun_prepare env (this s) testId status td).1.1)).
    { cbn. by rewrite (proj1 Hinv). }
    destruct (addTestRun_prepare env (this s) testId status td) as [[cl td'] evs].
    cbn [fst snd] in *. rewrite emit_all_eq.
    eapply (order_inv_enqueue s0 s _ calls _ _ _ (reverse evs)); try done.
    by apply Forall_reverse.
  - unfold updateRunStatus.
    by eapply (order_inv_enqueue s0 s s calls _ _ _ []).
Qed.

Lemma order_inv_run (sched : list Step) (s0 : State) (calls : list Call) (s : State) :
  (forall f rid, reporting_upload (uploadFile env f rid)) ->
  truthy_str (runId (this s0)) = true ->
  Forall reporting_step sched ->
  Forall (fun x => is_report x = true) (calls_of sched) ->
  order_inv env s0 calls s ->
  order_inv env s0 (calls ++ calls_of sched) (run env sched s).
Proof.
  intros Hupl Hid Hs. revert calls s.
  induction Hs as [|x sched Hx Hs IH]; intros calls s Hcalls Hinv.
  - cbn. by rewrite app_nil_r.
  - cbn [run foldl]. destruct x as [c|o]; cbn [step].
    + change (calls_of (Do c :: sched)) with (c :: calls_of sched) in *.
      apply Forall_cons in Hcalls as [Hc Hcalls].
      replace (calls ++ c :: calls_of sched) with ((calls ++ [c]) ++ calls_of sched)
        by (by rewrite <- app_assoc).
      apply IH; [done|]. by apply order_inv_call.
    + change (calls_of (Tick o :: sched)) with (calls_of sched) in *.
      apply IH; [done|]. by apply order_inv_tick.
Qed.

Lemma flight_inv_run (sched : list Step) (s : State) :
  flight_inv s -> flight_inv (run env sched s).
Proof.
  revert s. induction sched as [|[c|o] sched IH]; intros s Hinv; [done|..];
    cbn [run foldl step]; apply IH.
  - destruct c as [|testId status td|status par]; cbn [call].
    + unfold createRun. repeat case_match; try done.
      destruct Hinv as [Hser Hfl]. split; cbn; [|done].
      split; [|done]. rewrite Hfl. destruct (running s) as [[]|]; lia.
    + unfold addTestRun.
      pose proof (prepare_quiet (this s) testId status td) as Hq.
      destruct (addTestRun_prepare env (this s) testId status td) as [[cl td'] evs].
      by apply (flight_inv_emit_all evs s Hq) in Hinv.
    + done.
  - by apply flight_inv_tick.
Qed.

Lemma flight_inv_new (params : Params) : flight_inv (new_client env params).
Proof. done. Qed.

(** X22.  From a client that is idle, whose chain is fulfilled and whose
    run id is resolved, for every interleaving of [addTestRun] calls, one
    final [updateRunStatus] call and turns of the event loop: at every
    moment at most one request is in flight; the requests sent so far are
    a prefix of the requests the calls ask for, in call order, followed
    by the status update; and once the chain is drained they are exactly
    that sequence, the status update last. *)
Theorem X22_requests_follow_calls
  (params : Params) (sched0 sched : list Step)
  (adds : list Call) (status isParallel : jsval) :
  let s0 := run env sched0 (new_client env params) in
  let s' := run env sched s0 in
  (forall f rid, reporting_upload (uploadFile env f rid)) ->
  running s0 = None -> pending s0 = [] -> chain s0 = Fulfilled ->
  truthy_str (runId (this s0)) = true ->
  Forall reporting_step sched ->
  Forall (fun x => is_add x = true) adds ->
  calls_of sched = adds ++ [UpdateRunStatus status isParallel] ->
  serial (trace s') /\
  exists rest,
    sends (history s') ++ rest
    = sends (history s0)
      ++ requests_of_calls env (this s0) adds
      ++ [PutStatus (status_url env (runId (this s0)))
            {| sb_api_key := apiKey (this s0);
               sb_status_event := statusEvent status isParallel;
               sb_status := status |}]
    /\ (drained s' -> rest = []).
Proof.
  intros s0 s' Hupl Hrun Hp Hc Hid Hsched Hadds Hcalls. split.
  - apply flight_inv_run, flight_inv_run, flight_inv_new.
  - assert (Hinv0 : order_inv env s0 [] s0).
    { split_and!; [done|done| |].
      - unfold tasks_left. rewrite Hrun, Hp. constructor.
      - unfold unsent, tasks_left. rewrite Hrun, Hp. done. }
    assert (Hrep : Forall (fun x => is_report x = true) (calls_of sched)).
    { rewrite Hcalls. apply Forall_app. split; [|by repeat constructor].
      eapply Forall_impl; [exact Hadds|]. by intros []. }
    pose proof (order_inv_run sched s0 [] s0 Hupl Hid Hsched Hrep Hinv0)
      as (_ & _ & _ & Hsent).
    fold s' in Hsent. rewrite app_nil_l, Hcalls in Hsent.
    rewrite (requests_of_calls_snoc _ _ _ (TUpdateStatus status isParallel)) in Hsent
      by done.
    eexists. split; [exact Hsent|].
    intros [Hr' Hp']. unfold unsent, tasks_left. by rewrite Hr', Hp'.
Qed.

(** ** Resuming a run *)

Lemma idle_ticks (outs : list Outcome) (s : State) :
  running s = None -> pending s = [] -> run env (Tick <$> outs) s = s.
Proof.
  intros Hr Hp. induction outs as [|o outs IH]; [done|].
  cbn [fmap list_fmap run foldl step]. unfold tick at 1. by rewrite Hr, Hp.
Qed.

(** C7.  With a valid endpoint and an external run id, [createRun] on an
    idle client returns a promise already resolved with that id while its
    request is still queued and nothing has been sent; whatever the
    transport answers and however many turns follow, the only request
    sent is one update, never a create, and its address is the trimmed
    endpoint followed by [/api/reporter/] and that very id. *)
Theorem C7_resume_run (s : State) (key rid : string) :
  apiKey (this s) = Some key ->
  isValidUrl env (Str.trim (TESTOMAT_URL env)) = true ->
  proc_runId s = Some rid ->
  truthy_str (Some rid) = true ->
  running s = None -> pending s = [] -> chain s = Fulfilled ->
  let runParams :=
    {| rp_api_key := Str.trim key;
       rp_title := c_title (this s);
       rp_parallel := parallel (this s);
       rp_group_title := TESTOMATIO_RUNGROUP_TITLE env;
       rp_env := TESTOMATIO_ENV env |} in
  let s1 := createRun env s in
  returned s1 = RetResolved rid :: returned s /\
  future_state s1 (RetResolved rid) = Some Fulfilled /\
  runId (this s1) = Some rid /\
  history s1 = history s /\
  tasks_left s1 = [TUpdateRun rid runParams] /\
  forall o outs,
    sends (history (run env (Tick <$> o :: outs) s1))
    = sends (history s)
      ++ [PutRun (Str.trim (TESTOMAT_URL env) +:+ "/api/reporter/" +:+ rid)
            runParams].
Proof.
  intros Hkey Hurl Hproc Hrid Hrun Hp Hc runParams s1.
  change (Str.trim (TESTOMAT_URL env) +:+ "/api/reporter/" +:+ rid)
    with (run_url env rid).
  assert (Hs1 : s1 = give (RetResolved rid)
                       (enqueue (TUpdateRun rid runParams)
                          (set_this (with_runId (this s) (Some rid)) s))).
  { unfold s1, createRun. by rewrite Hkey, Hurl, Hproc, Hrid. }
  assert (Htl : tasks_left s1 = [TUpdateRun rid runParams]).
  { rewrite Hs1, tasks_left_give_enqueue. unfold tasks_left. cbn.
    by rewrite Hrun, Hp. }
  split_and!; [by rewrite Hs1..|done|].
  intros o outs. cbn [fmap list_fmap run foldl step].
  assert (Hs2 : tick env o s1
                = send (PutRun (run_url env rid) runParams) (TUpdateRun rid runParams)
                    (set_pending [] s1)).
  { rewrite Hs1. unfold tick, give, enqueue, set_pending, set_this.
    cbn [running pending]. rewrite Hrun, Hp. cbn [app]. unfold start_task.
    replace (chain _) with (chain s) by done. by rewrite Hc. }
  rewrite Hs2. destruct outs as [|o' outs].
  - cbn [fmap list_fmap foldl].
    apply sends_history_send. by rewrite Hs1.
  - cbn [fmap list_fmap foldl step].
    set (s3 := tick env o' _).
    change (foldl (step env) s3 (Tick <$> outs)) with (run env (Tick <$> outs) s3).
    assert (Hs3 : running s3 = None /\ pending s3 = [] /\
                  exists evs, trace s3 = evs ++ trace s
                              /\ sends (reverse evs) = [PutRun (run_url env rid) runParams]).
    { unfold s3, tick, send. cbn [running set_running]. unfold response_arrives.
      destruct o' as [resp|e].
      - cbn. split_and!; [done|done|].
        eexists [_; _]. rewrite Hs1. cbn. split; [reflexivity|done].
      - rewrite rejected_eq. cbn. split_and!; [done|done|].
        eexists [_; _]. rewrite Hs1. cbn. split; [reflexivity|done]. }
    destruct Hs3 as (Hr3 & Hp3 & evs & Htr & Hevs).
    rewrite idle_ticks by done.
    by rewrite (history_emits evs s s3 Htr), sends_app, Hevs.
Qed.

(** ** A refused resume request *)

(** C3.  The resume request of [createRun] has no handler.  On an idle
    client launched inside a run, whatever failure [e] the transport
    answers the update with: the caller holds a fulfilled future, the one
    request has been sent, every task has settled, and the chain is left
    rejected with [e] with no reaction attached, which the runtime
    raises as an unhandled rejection. *)
Theorem C3_refused_resume_is_unhandled
  (s : State) (key rid : string) (o : Outcome) (e : JsError) :
  apiKey (this s) = Some key ->
  isValidUrl env (Str.trim (TESTOMAT_URL env)) = true ->
  proc_runId s = Some rid ->
  truthy_str (Some rid) = true ->
  running s = None -> pending s = [] -> chain s = Fulfilled ->
  let s' := run env [Do CreateRun; Tick o; Tick (Rejects e)] s in
  returned s' = RetResolved rid :: returned s /\
  sends (history s')
  = sends (history s) ++ [PutRun (run_url env rid) (runParams_of env (this s) key)] /\
  drained s' /\
  chain s' = Rejected e /\
  unhandled_rejection s' = Some e.
Proof.
  intros Hkey Hurl Hproc Hrid Hrun Hp Hc s'.
  set (rp := runParams_of env (this s) key).
  assert (Hs' : s' = settle (Rejected e)
                       (emit (ERecv (Rejects e))
                          (send (PutRun (run_url env rid) rp) (TUpdateRun rid rp)
                             (set_pending []
                                (give (RetResolved rid)
                                   (enqueue (TUpdateRun rid rp)
                                      (set_this (with_runId (this s) (Some rid)) s))))))).
  { unfold s', run. cbn [foldl step call].
    assert (Hs1 : createRun env s
                  = give (RetResolved rid)
                      (enqueue (TUpdateRun rid rp)
                         (set_this (with_runId (this s) (Some rid)) s))).
    { unfold createRun. by rewrite Hkey, Hurl, Hproc, Hrid. }
    rewrite Hs1.
    set (s1 := give _ _).
    assert (Hs2 : tick env o s1
                  = send (PutRun (run_url env rid) rp) (TUpdateRun rid rp)
                      (set_pending [] s1)).
    { unfold s1, tick, give, enqueue, set_pending, set_this.
      cbn [running pending]. rewrite Hrun, Hp. cbn [app]. unfold start_task.
      replace (chain _) with (chain s) by done. by rewrite Hc. }
    rewrite Hs2. unfold tick, send, set_running. cbn [running].
    unfold response_arrives. rewrite rejected_eq. subst s1. reflexivity. }
  assert (Hch : chain s' = Rejected e).
  { rewrite Hs'. unfold chain, settle. cbn [results]. by rewrite last_snoc. }
  split_and!.
  - by rewrite Hs'.
  - assert (Htr : trace s' = [ERecv (Rejects e); ESend (PutRun (run_url env rid) rp)]
                            ++ trace s) by (by rewrite Hs').
    by rewrite (history_emits _ s s' Htr), sends_app.
  - by rewrite Hs'.
  - done.
  - unfold unhandled_rejection. rewrite Hch. by rewrite Hs'.
Qed.

(** ** Files handed over before the run id is known *)

(** C10.  [addTestRun] called while the run id is not resolved asks for no
    upload; if the run id is resolved by the time its task runs, the task
    still sends the payload, asks for no upload either, and the payload
    carries the file list and an empty list of artifacts. *)
Theorem C10_late_run_id (s : State) (testId status : jsval) (td : TestData) :
  truthy_str (runId (this s)) = false ->
  let s1 := addTestRun env testId status td s in
  uploads (history s1) = uploads (history s) /\
  exists cl,
    pending s1 = pending s ++ [TAddTestRun cl] /\
    forall (s2 : State) (rest : list Task) (o1 o2 : Outcome),
      running s2 = None -> pending s2 = TAddTestRun cl :: rest ->
      chain s2 = Fulfilled -> truthy_str (runId (this s2)) = true ->
      exists body,
        history (tick env o2 (tick env o1 s2))
        = history s2 ++ [ESend (PostTestrun (testrun_url env (runId (this s2))) body)]
        /\ uploads (history (tick env o2 (tick env o1 s2))) = uploads (history s2)
        /\ artifacts body = []
        /\ files body = default [] (td_files td).
Proof.
  intros Hid s1. unfold s1, addTestRun.
  destruct (prepare_no_run (this s) testId status td Hid) as [Hlogs Hnone].
  assert (Hfiles : cl_files (addTestRun_prepare env (this s) testId status td).1.1
                   = default [] (td_files td)).
  { unfold addTestRun_prepare.
    by destruct (match td_error td with Some _ => _ | None => _ end) as [[m st] logs]. }
  destruct (addTestRun_prepare env (this s) testId status td) as [[cl td'] evs].
  cbn [fst snd] in *. rewrite emit_all_eq. split.
  - erewrite (history_emits (reverse evs) s); [|done].
    rewrite uploads_app, (uploads_logs (reverse (reverse evs))), app_nil_r; [done|].
    by apply Forall_reverse, Forall_reverse.
  - exists cl. split; [done|]. intros s2 rest o1 o2 Hr2 Hp2 Hc2 Hid2.
    assert (H1 : tick env o1 s2 = set_running (Some (AwaitUploads cl)) (set_pending rest s2)).
    { unfold tick. rewrite Hr2, Hp2. unfold start_task.
      replace (chain _) with (chain s2) by done. rewrite Hc2. cbn. by rewrite Hid2. }
    rewrite H1. unfold tick. cbn [running set_running]. unfold uploads_settled.
    rewrite Hnone. cbn [promise_all]. eexists. split_and!.
    + by apply (history_emits [_] s2).
    + by eapply uploads_history_send.
    + done.
    + done.
Qed.
End Queue.


(** C2: the resume request of [createRun] has no [catch]; when it fails,
    the next task is skipped. *)
Theorem C2_failed_resume_skips_next_task :
  let calls := [Do CreateRun; Do (AddTestRun (JStr "T1") PASSED Sample.with_file)] in
  let start := new_client Sample.resumed Sample.params in
  let failing :=
    run Sample.resumed
      (calls ++ [Tick Sample.ok; Tick (Sample.http 500); Tick Sample.ok;
                 Tick Sample.ok; Tick Sample.ok]) start in
  let passing :=
    run Sample.resumed
      (calls ++ [Tick Sample.ok; Tick Sample.ok; Tick Sample.ok;
                 Tick Sample.ok; Tick Sample.ok]) start in
  endpoint <$> sends (history failing)
  = [("PUT", "https://app.testomat.io/api/reporter/r1")]
  /\ tasks_left failing = []
  /\ results failing
     = [Rejected (AxiosError (Some {| er_status := 500; er_data := Some "denied" |}));
        Fulfilled]
  /\ endpoint <$> sends (history passing)
     = [("PUT", "https://app.testomat.io/api/reporter/r1");
        ("POST", "https://app.testomat.io/api/reporter/r1/testrun")].
Proof. cbv zeta. split_and!; vm_compute; reflexivity. Qed.

(** C1: a client launched inside a run whose resume request was refused
    is idle and has its run id, yet the chain is rejected.  Two results
    and the final status reported from there ask for three requests; the
    first of them is never sent, so what the transport sees is not the
    enqueue order. *)
Theorem C1_refused_resume_breaks_order :
  let start :=
    run Sample.resumed [Do CreateRun; Tick Sample.ok; Tick (Sample.http 500)]
      (new_client Sample.resumed Sample.params) in
  let final := UpdateRunStatus FAILED (JBool true) in
  let sched := (Do <$> Sample.adds ++ [final]) ++ (Tick <$> replicate 8 Sample.ok) in
  let finish := run Sample.resumed sched start in
  let asked :=
    requests_of_calls Sample.resumed (this start) (Sample.adds ++ [final]) in
  (drained start /\ runId (this start) = Some "r1"
   /\ chain start
      = Rejected (AxiosError (Some {| er_status := 500; er_data := Some "denied" |})))
  /\ calls_of sched = Sample.adds ++ [final]
  /\ drained finish
  /\ endpoint <$> asked
     = [("POST", "https://app.testomat.io/api/reporter/r1/testrun");
        ("POST", "https://app.testomat.io/api/reporter/r1/testrun");
        ("PUT", "https://app.testomat.io/api/reporter/r1")]
  /\ sends (history finish) = sends (history start) ++ drop 1 asked
  /\ endpoint <$> sends (history finish)
     = [("PUT", "https://app.testomat.io/api/reporter/r1");
        ("POST", "https://app.testomat.io/api/reporter/r1/testrun");
        ("PUT", "https://app.testomat.io/api/reporter/r1")].
Proof.
  cbv zeta. unfold drained. split_and!; vm_compute; reflexivity.
Qed.

(** The task closes over the [test_id] read from the result descriptor
    before the explicit test id is stored in it. *)
Lemma closure_test_id (env : Env) (c : Client) (testId status : jsval) (td : TestData) :
  cl_test_id (addTestRun_prepare env c testId status td).1.1 = td_test_id td.
Proof.
  unfold addTestRun_prepare.
  by destruct (match td_error td with Some _ => _ | None => _ end) as [[m st] logs].
Qed.

(** C5: the payload carries the [test_id] of the result descriptor; the
    explicit test id only reaches the caller's object. *)
Theorem C5_explicit_test_id_is_not_sent :
  let s :=
    run Sample.env
      [Do (AddTestRun (JStr "T1") PASSED Sample.with_file); Tick Sample.ok; Tick Sample.ok]
      Sample.ready in
  td_test_id Sample.with_file = JStr "T2"
  /\ posted_test_ids (sends (history s)) = [JStr "T2"]
  /\ td_test_id (addTestRun_prepare Sample.env (this Sample.ready)
                   (JStr "T1") PASSED Sample.with_file).1.2 = JStr "T1".
Proof. cbv zeta. split_and!; vm_compute; reflexivity. Qed.

(* ================================================================== *)
(** * Cycle-safe serialisation: the pass returns and can be undone *)
(* ================================================================== *)

(** Numbers as the language writes them: the exponent from [1e+21] on,
    the shortest digits that read back as the same double, fractions,
    and the smallest and the largest double. *)
Lemma number_texts :
  Num.show_int 0 = "0"
  /\ Num.show_int (-42) = "-42"
  /\ Num.show_int (10 ^ 21 - 1) = "1e+21"
  /\ Num.show_int (10 ^ 20) = "100000000000000000000"
  /\ Num.show_int (2 ^ 53 + 1) = "9007199254740992"
  /\ Num.show_int (2 ^ 64) = "18446744073709552000"
  /\ Num.show_int (2 ^ 1024) = "Infinity"
  /\ Num.show_float (Num.FDyadic false 1 1) = "0.5"
  /\ Num.show_float (Num.FDyadic true 3 2) = "-0.75"
  /\ Num.show_float (Num.FDyadic false 3602879701896397 55) = "0.1"
  /\ Num.show_float (Num.FDyadic false 1 24) = "5.960464477539063e-8"
  /\ Num.show_float (Num.FDyadic false 1 1074) = "5e-324"
  /\ Num.show (Num.shown_fraction false (2 ^ 1024 - 2 ^ 971) 1)
     = "1.7976931348623157e+308"
  /\ Num.show (Num.shown_fraction false 1 (10 ^ 7)) = "1e-7"
  /\ Num.show (Num.shown_fraction false 1 (10 ^ 6)) = "0.000001"
  /\ Num.show_float Num.FNaN = "NaN".
Proof. split_and!; vm_compute; reflexivity. Qed.

Module JsonCycleFacts.
Import Str Num JsonCycle.

Lemma strip_app (p r : string) : strip p (p +:+ r) = Some r.
Proof.
  induction p as [|c p IH]; [by destruct r|].
  rewrite append_cons. cbn. by rewrite Ascii.eqb_refl.
Qed.

Lemma length_app (a b : string) :
  String.length (a +:+ b) = String.length a + String.length b.
Proof. induction a as [|c a IH]; [done|]. rewrite append_cons. cbn. by rewrite IH. Qed.

Lemma read_digits_app (u : Decimal.uint) (r : string) :
  no_digit r -> read_digits (NilEmpty.string_of_uint u +:+ r) = (u, r).
Proof.
  intros Hr. induction u as [|u IH|u IH|u IH|u IH|u IH|u IH|u IH|u IH|u IH|u IH];
    cbn [NilEmpty.string_of_uint]; rewrite ?append_cons, ?append_nil;
    [|cbn [read_digits]; cbn [digit_of Ascii.eqb Bool.eqb]; cbn; by rewrite IH ..].
  destruct r as [|c r]; [done|]. cbn in *. by rewrite Hr.
Qed.

Lemma nzhead_head (d : Decimal.uint) :
  match Decimal.nzhead d with Decimal.D0 _ => False | _ => True end.
Proof. induction d; cbn; done. Qed.

Lemma int_ok_unorm (d : Decimal.uint) : int_ok (Decimal.unorm d) = true.
Proof.
  unfold Decimal.unorm. pose proof (nzhead_head d) as H.
  destruct (Decimal.nzhead d); done.
Qed.

Lemma int_ok_dec (z : Z) : int_ok (dec z) = true.
Proof.
  unfold dec. rewrite <- (DecimalN.Unsigned.of_to (Z.to_N z)) at 1.
  rewrite DecimalN.Unsigned.to_of. apply int_ok_unorm.
Qed.

Lemma some_digits_dec (z : Z) : some_digits (dec z) = true.
Proof. pose proof (int_ok_dec z). by destruct (dec z). Qed.

Lemma numeral_of_wf (neg : bool) (x : Double) : wf (numeral_of neg x).
Proof.
  unfold numeral_of. destruct (fraction x) as [p q].
  destruct (shortest _ _ _ _ _ _) as [[s n] k].
  repeat case_match; split; cbn; auto using int_ok_dec, some_digits_dec.
Qed.

Lemma zero_wf : wf zero.
Proof. by split. Qed.

Lemma head_digit (u : Decimal.uint) (r : string) :
  some_digits u = true ->
  exists c x, NilEmpty.string_of_uint u +:+ r = String c x /\ is_Some (digit_of c).
Proof.
  destruct u; [done|..]; intros _; cbn [NilEmpty.string_of_uint];
    rewrite append_cons; eexists _, _; (split; [reflexivity|by eexists]).
Qed.

Lemma strip_digit (c : ascii) (p x : string) (a : ascii) :
  is_Some (digit_of c) -> digit_of a = None -> strip (String a p) (String c x) = None.
Proof.
  intros [d Hd] Ha. cbn. destruct (Ascii.eqb a c) eqn:E; [|done].
  apply Ascii.eqb_eq in E. subst. congruence.
Qed.

Lemma read_frac_app (f : Decimal.uint) (r : string) :
  no_digit r -> strip "." r = None ->
  read_frac (print_frac f +:+ r) = Some (f, r).
Proof.
  intros Hr Hdot. unfold read_frac.
  assert (Hcase : f = Decimal.Nil \/ some_digits f = true)
    by (destruct f; auto).
  destruct Hcase as [->|Hs].
  - by rewrite append_nil, Hdot.
  - replace (print_frac f)
      with ("." +:+ NilEmpty.string_of_uint f) by (by destruct f).
    rewrite append_assoc, strip_app, read_digits_app by done. by rewrite Hs.
Qed.

Lemma read_exp_app (e : option (bool * Decimal.uint)) (r : string) :
  match e with Some (_, d) => some_digits d = true | None => True end ->
  ends_number r ->
  read_exp (print_exp e +:+ r) = Some (e, r).
Proof.
  intros He Hr. unfold print_exp. destruct e as [[minus d]|].
  - destruct (head_digit d r He) as (c & x & Hcx & Hc).
    assert (Hnd : no_digit r) by (destruct r; [done|apply Hr]).
    rewrite !append_assoc. rewrite (append_cons _ ""), append_nil.
    cbn [read_exp Ascii.eqb Bool.eqb orb].
    destruct minus; rewrite (append_cons _ ""), append_nil.
    + cbn [strip Ascii.eqb Bool.eqb]. rewrite read_digits_app by done. by rewrite He.
    + cbn [strip Ascii.eqb Bool.eqb]. rewrite read_digits_app by done. by rewrite He.
  - rewrite append_nil. destruct r as [|c r]; [done|].
    destruct Hr as (_ & _ & H1 & H2 & _). cbn [read_exp].
    by rewrite H1, H2.
Qed.

(** Reading what [print] wrote gives the numeral back. *)
Lemma read_print (n : Numeral) (r : string) :
  wf n -> ends_number r -> read (print n +:+ r) = Some (n, r).
Proof.
  intros [Hi He] Hr. destruct n as [neg i f e]. cbn [n_int n_exp] in *.
  unfold print. cbn [n_neg n_int n_frac n_exp]. rewrite !append_assoc.
  set (ex := print_exp e).
  set (fr := print_frac f).
  assert (Hex : read_exp (ex +:+ r) = Some (e, r)) by (by apply read_exp_app).
  assert (Hexd : no_digit (ex +:+ r) /\ strip "." (ex +:+ r) = None).
  { unfold ex, print_exp. destruct e as [[minus d]|].
    - rewrite !append_assoc, (append_cons _ ""). done.
    - rewrite append_nil. destruct r as [|c r]; [done|].
      destruct Hr as (H0 & H1 & _). split; [done|]. cbn [strip].
      by rewrite Ascii.eqb_sym, H1. }
  destruct Hexd as [Hexd Hexdot].
  assert (Hfr : read_frac (fr +:+ ex +:+ r) = Some (f, ex +:+ r))
    by (by apply read_frac_app).
  assert (Hfrd : no_digit (fr +:+ ex +:+ r)).
  { unfold fr, print_frac. destruct f; rewrite ?append_nil; try done;
      by rewrite !append_assoc, (append_cons _ ""). }
  assert (Hsd : some_digits i = true) by (by destruct i).
  unfold read.
  assert (Hneg : match strip "-" ((if neg then "-" else "")
                                   +:+ NilEmpty.string_of_uint i +:+ fr +:+ ex +:+ r) with
                 | Some r' => (true, r')
                 | None => (false, (if neg then "-" else "")
                                   +:+ NilEmpty.string_of_uint i +:+ fr +:+ ex +:+ r)
                 end = (neg, NilEmpty.string_of_uint i +:+ fr +:+ ex +:+ r)).
  { destruct neg.
    - by rewrite strip_app.
    - rewrite append_nil.
      destruct (head_digit i (fr +:+ ex +:+ r) Hsd) as (c & x & -> & Hc).
      by rewrite strip_digit. }
  rewrite Hneg, read_digits_app, Hi, Hfr, Hex by done. done.
Qed.

Lemma print_head (n : Numeral) (r : string) :
  wf n ->
  exists c x, print n +:+ r = String c x
              /\ (Ascii.eqb c "-" || bool_decide (is_Some (digit_of c))) = true.
Proof.
  intros [Hi _]. unfold print. rewrite !append_assoc. destruct (n_neg n).
  - rewrite (append_cons _ ""). by eexists _, _.
  - rewrite append_nil.
    assert (Hsd : some_digits (n_int n) = true) by (by destruct (n_int n)).
    destruct (head_digit (n_int n) (print_frac (n_frac n) +:+ print_exp (n_exp n) +:+ r)
                Hsd)
      as (c & x & -> & Hc).
    exists c, x. split; [done|]. rewrite bool_decide_eq_true_2 by done.
    apply orb_true_r.
Qed.

(** *** Strings *)

Lemma parse_chars_quote_char (c : ascii) (s : string) :
  parse_chars (quote_char c +:+ s)
  = match parse_chars s with
    | Some (t, r) => Some (String c t, r)
    | None => None
    end.
Proof. destruct c as [[] [] [] [] [] [] [] []]; reflexivity. Qed.

Lemma parse_chars_escape (s r : string) :
  parse_chars (escape s +:+ String dquote r) = Some (s, r).
Proof.
  induction s as [|c s IH]; [reflexivity|].
  cbn [escape]. by rewrite append_assoc, parse_chars_quote_char, IH.
Qed.

Lemma parse_quote (s r : string) :
  strip (String dquote "") (quote s +:+ r) = Some (escape s +:+ String dquote r).
Proof.
  unfold quote. rewrite append_cons, append_assoc, (append_cons _ ""), append_nil.
  cbn [strip]. by rewrite Ascii.eqb_refl.
Qed.

(** *** Values *)

Lemma json_wf_array (l : list json) : json_wf (JsonArray l) <-> Forall json_wf l.
Proof.
  cbn [json_wf]. induction l as [|x l IH]; [by split|].
  rewrite Forall_cons, <- IH. done.
Qed.

Lemma json_wf_object (l : list (string * json)) :
  json_wf (JsonObject l) <-> Forall (fun kv => json_wf kv.2) l.
Proof.
  cbn [json_wf]. induction l as [|[k v] l IH]; [by split|].
  rewrite Forall_cons, <- IH. done.
Qed.

Lemma json_ind' (P : json -> Prop) :
  P JsonNull -> (forall b, P (JsonBool b)) ->
  (forall n, P (JsonNumber n)) -> (forall s, P (JsonString s)) ->
  (forall l, Forall P l -> P (JsonArray l)) ->
  (forall l, Forall (fun kv => P kv.2) l -> P (JsonObject l)) ->
  forall j, P j.
Proof.
  intros Hnull Hbool Hnum Hstr Harr Hobj. fix go 1. intros [|b|n|s|l|l].
  - exact Hnull.
  - apply Hbool.
  - apply Hnum.
  - apply Hstr.
  - apply Harr. induction l as [|x l IH]; constructor; [apply go|exact IH].
  - apply Hobj. induction l as [|kv l IH]; constructor; [apply go|exact IH].
Qed.

Lemma number_head_strips (c : ascii) (x : string) :
  number_head c = true ->
  strip "null" (String c x) = None /\ strip "true" (String c x) = None
  /\ strip "false" (String c x) = None /\ strip (String dquote "") (String c x) = None
  /\ strip "[" (String c x) = None /\ strip "{" (String c x) = None.
Proof. destruct c as [[] [] [] [] [] [] [] []]; done. Qed.

Lemma value_head_strips (c : ascii) (x : string) :
  value_head c = true ->
  strip "]" (String c x) = None /\ strip "}" (String c x) = None
  /\ strip "," (String c x) = None.
Proof. destruct c as [[] [] [] [] [] [] [] []]; done. Qed.

Lemma number_value_head (c : ascii) : number_head c = true -> value_head c = true.
Proof. destruct c as [[] [] [] [] [] [] [] []]; done. Qed.

Lemma write_head (j : json) (r : string) :
  json_wf j -> exists c x, write j +:+ r = String c x /\ value_head c = true.
Proof.
  destruct j as [|b|n|s|l|l]; intros Hwf; try destruct b; cbn [write];
    try (rewrite append_cons; by eexists _, _).
  - destruct (print_head n r Hwf) as (c & x & -> & Hc).
    exists c, x. split; [done|]. by apply number_value_head.
  - unfold quote. rewrite append_cons. by eexists _, _.
Qed.

Lemma parse_elems_write (l : list json) :
  l <> [] -> Forall parses l -> Forall json_wf l ->
  forall fuel r,
    String.length (Str.join "," (List.map write l)) + 1 <= fuel ->
    parse_elems fuel (Str.join "," (List.map write l) +:+ "]" +:+ r) = Some (l, r).
Proof.
  intros Hne Hl Hwf. induction Hl as [|x l Hx Hl IH]; [done|].
  apply Forall_cons in Hwf as [Hwx Hwf].
  intros fuel r Hf. destruct l as [|y l].
  - cbn [List.map Str.join] in *. destruct fuel as [|g]; [lia|].
    cbn [parse_elems]. rewrite Hx by (done || lia). done.
  - change (Str.join "," (List.map write (x :: y :: l)))
      with (write x +:+ "," +:+ Str.join "," (List.map write (y :: l))) in *.
    rewrite !length_app in Hf. cbn [String.length] in Hf.
    destruct fuel as [|g]; [lia|]. cbn [parse_elems].
    rewrite !append_assoc. rewrite Hx by (done || lia).
    rewrite strip_app. rewrite IH by (done || lia). done.
Qed.

Lemma parse_members_write (l : list (string * json)) :
  l <> [] -> Forall (fun kv => parses kv.2) l -> Forall (fun kv => json_wf kv.2) l ->
  forall fuel r,
    String.length
      (Str.join "," (List.map (fun kv => quote kv.1 +:+ ":" +:+ write kv.2) l)) + 1
    <= fuel ->
    parse_members fuel
      (Str.join "," (List.map (fun kv => quote kv.1 +:+ ":" +:+ write kv.2) l)
       +:+ "}" +:+ r) = Some (l, r).
Proof.
  intros Hne Hl Hwf. induction Hl as [|[k x] l Hx Hl IH]; [done|].
  apply Forall_cons in Hwf as [Hwx Hwf]. cbn [snd] in Hx, Hwx.
  intros fuel r Hf. destruct l as [|y l].
  - cbn [List.map Str.join fst snd] in *. rewrite !length_app in Hf.
    destruct fuel as [|g]; [lia|].
    cbn [parse_members]. rewrite !append_assoc, parse_quote, parse_chars_escape.
    rewrite strip_app. rewrite Hx by (done || cbn in Hf; lia). done.
  - change (Str.join "," (List.map (fun kv => quote kv.1 +:+ ":" +:+ write kv.2)
                            ((k, x) :: y :: l)))
      with ((quote k +:+ ":" +:+ write x) +:+ ","
            +:+ Str.join "," (List.map (fun kv => quote kv.1 +:+ ":" +:+ write kv.2)
                                (y :: l))) in *.
    rewrite !length_app in Hf. cbn [String.length] in Hf.
    destruct fuel as [|g]; [lia|]. cbn [parse_members].
    rewrite !append_assoc, parse_quote, parse_chars_escape.
    rewrite strip_app. rewrite Hx by (done || lia).
    rewrite strip_app. rewrite IH by (done || lia). done.
Qed.

Lemma parse_write (j : json) : json_wf j -> parses j.
Proof.
  induction j as [|b|n|s|l IH|l IH] using json_ind'; intros Hwf fuel r Hf Hr.
  - destruct fuel as [|g]; [cbn in Hf; lia|]. cbn [parse_value write].
    by rewrite strip_app.
  - destruct fuel as [|g]; [destruct b; cbn in Hf; lia|]. cbn [parse_value].
    destruct b; cbn [write].
    + assert (strip "null" ("true" +:+ r) = None) as -> by reflexivity.
      by rewrite strip_app.
    + assert (strip "null" ("false" +:+ r) = None) as -> by reflexivity.
      assert (strip "true" ("false" +:+ r) = None) as -> by reflexivity.
      by rewrite strip_app.
  - cbn [write] in *. destruct (print_head n r Hwf) as (c & x & Hcx & Hc).
    assert (Hlen : 1 <= String.length (Num.print n)).
    { destruct (Num.print n) as [|c' x'] eqn:E; [|cbn; lia].
      destruct (print_head n "" Hwf) as (c' & x' & Hcx' & _).
      by rewrite E in Hcx'. }
    destruct fuel as [|g]; [lia|]. cbn [parse_value].
    destruct (number_head_strips c x Hc) as (H1 & H2 & H3 & H4 & H5 & H6).
    rewrite Hcx, H1, H2, H3, H4, H5, H6, <- Hcx, read_print by done. done.
  - destruct fuel as [|g]; [cbn in Hf; lia|]. cbn [parse_value write].
    assert (strip "null" (quote s +:+ r) = None) as -> by reflexivity.
    assert (strip "true" (quote s +:+ r) = None) as -> by reflexivity.
    assert (strip "false" (quote s +:+ r) = None) as -> by reflexivity.
    by rewrite parse_quote, parse_chars_escape.
  - apply json_wf_array in Hwf.
    cbn [write] in *. rewrite !length_app in Hf. cbn [String.length] in Hf.
    destruct fuel as [|g]; [lia|]. cbn [parse_value].
    rewrite !append_assoc.
    set (body := Str.join "," (List.map write l) +:+ "]" +:+ r).
    assert (strip "null" ("[" +:+ body) = None) as -> by reflexivity.
    assert (strip "true" ("[" +:+ body) = None) as -> by reflexivity.
    assert (strip "false" ("[" +:+ body) = None) as -> by reflexivity.
    assert (strip (String dquote "") ("[" +:+ body) = None) as -> by reflexivity.
    rewrite strip_app. unfold body. destruct l as [|x l].
    + cbn [List.map Str.join]. rewrite append_nil, strip_app. done.
    + assert (Hl : Forall parses (x :: l)).
      { apply Forall_forall. intros y Hy. rewrite Forall_forall in IH, Hwf.
        apply IH; [done|]. by apply Hwf. }
      assert (Hhead : strip "]" (Str.join "," (List.map write (x :: l)) +:+ "]" +:+ r)
                      = None).
      { apply Forall_cons in Hwf as [Hwx _].
        destruct l as [|y l].
        - cbn [List.map Str.join].
          destruct (write_head x ("]" +:+ r) Hwx) as (c & x' & -> & Hc).
          apply (value_head_strips c x' Hc).
        - change (Str.join "," (List.map write (x :: y :: l)))
            with (write x +:+ "," +:+ Str.join "," (List.map write (y :: l))).
          rewrite !append_assoc.
          destruct (write_head x ("," +:+ Str.join "," (List.map write (y :: l))
                                  +:+ "]" +:+ r) Hwx) as (c & x' & -> & Hc).
          apply (value_head_strips c x' Hc). }
      rewrite Hhead, parse_elems_write by (done || lia). done.
  - apply json_wf_object in Hwf.
    cbn [write] in *. rewrite !length_app in Hf. cbn [String.length] in Hf.
    destruct fuel as [|g]; [lia|]. cbn [parse_value].
    rewrite !append_assoc.
    set (body := Str.join "," (List.map _ l) +:+ "}" +:+ r).
    assert (strip "null" ("{" +:+ body) = None) as -> by reflexivity.
    assert (strip "true" ("{" +:+ body) = None) as -> by reflexivity.
    assert (strip "false" ("{" +:+ body) = None) as -> by reflexivity.
    assert (strip (String dquote "") ("{" +:+ body) = None) as -> by reflexivity.
    assert (strip "[" ("{" +:+ body) = None) as -> by reflexivity.
    rewrite strip_app. unfold body. destruct l as [|[k x] l].
    + cbn [List.map Str.join]. rewrite append_nil, strip_app. done.
    + assert (Hl : Forall (fun kv => parses kv.2) ((k, x) :: l)).
      { apply Forall_forall. intros y Hy. rewrite Forall_forall in IH, Hwf.
        apply IH; [done|]. by apply Hwf. }
      assert (Hhead : strip "}" (Str.join ","
                                   (List.map (fun kv => quote kv.1 +:+ ":" +:+ write kv.2)
                                      ((k, x) :: l)) +:+ "}" +:+ r) = None).
      { destruct l as [|y l]; reflexivity. }
      rewrite Hhead, parse_members_write by (done || lia). done.
Qed.

(** Reading what was written gives the value back. *)
Lemma parse_write_top (j : json) : json_wf j -> parse (write j) = Some j.
Proof.
  intros Hwf. unfold parse.
  pose proof (parse_write j Hwf (String.length (write j)) "") as H.
  rewrite append_nil_r in H. by rewrite H.
Qed.

Lemma refs_of_node (b : bool) (kids : list (seg * tree)) :
  refs_of (TNode b kids) = kids ≫= (fun kid => refs_of kid.2).
Proof.
  cbn [refs_of]. induction kids as [|[sg t] kids IH]; [done|].
  cbn. by rewrite IH.
Qed.

Lemma assoc_elem {A} (sg : seg) (kids : list (seg * A)) (t : A) :
  assoc sg kids = Some t -> sg ∈ kids.*1.
Proof.
  induction kids as [|[sg' t'] kids IH]; cbn; [done|].
  case_decide; [subst; intros _; left|intros Hr; right; by apply IH].
Qed.

Lemma Key_inj : Inj (=) (=) Key.
Proof. by intros x y [= ->]. Qed.

Lemma unseen_mono (h : heap) (seen seen' : gmap nat path) :
  seen ⊆ seen' -> unseen h seen' <= unseen h seen.
Proof.
  intros Hsub. unfold unseen. apply subseteq_size.
  intros a. rewrite !elem_of_difference. intros [Hh Hs]. split; [done|].
  intros Hin. apply Hs. revert Hin. rewrite !elem_of_dom.
  intros [q Hq]. exists q. by eapply lookup_weaken.
Qed.

Lemma unseen_insert (h : heap) (seen : gmap nat path) (a : nat) (p : path) :
  is_Some (h !! a) -> seen !! a = None ->
  unseen h (<[a := p]> seen) < unseen h seen.
Proof.
  intros Hh Hs. unfold unseen. apply subset_size.
  apply elem_of_dom in Hh. apply not_elem_of_dom in Hs.
  rewrite dom_insert_L. split.
  - intros b. rewrite !elem_of_difference, elem_of_union. tauto.
  - intros Hsub. specialize (Hsub a).
    rewrite !elem_of_difference, elem_of_union, elem_of_singleton in Hsub. tauto.
Qed.

Lemma derez_kids_spec (h : heap) (bound : nat) rec (p : path) :
  rec_spec h bound rec ->
  forall (kids : list (seg * jsval)) (seen : gmap nat path),
    Forall (fun kid => closed h kid.2) kids ->
    NoDup kids.*1 ->
    unseen h seen < bound ->
    exists seen' ts,
      derez_kids rec p kids seen = Some (seen', ts) /\
      seen ⊆ seen' /\
      ts.*1 = kids.*1 /\
      (forall a q, seen' !! a = Some q -> seen !! a = None ->
         exists sg suf v0 t0 n kids',
           q = p ++ sg :: suf /\ assoc sg kids = Some v0 /\ assoc sg ts = Some t0 /\
           walk h v0 suf = Some (JObj a) /\ h !! a = Some n /\
           lookup_path t0 suf = Some (TNode (is_arr n) kids')) /\
      (forall tbl, seen' ⊆ tbl ->
         all_kids (fun sg v' t' => agrees h tbl (p ++ [sg]) v' t') kids ts) /\
      (forall q, q ∈ ts ≫= (fun kid => refs_of kid.2) -> exists a, seen' !! a = Some q).
Proof.
  intros Hrec. induction kids as [|[sg v] kids IH]; intros seen Hcl Hnd Hb.
  - exists seen, []. split_and!; [done|done|done| |done|].
    + intros a q H1 H2. by rewrite H2 in H1.
    + intros q Hq. by apply elem_of_nil in Hq.
  - apply Forall_cons in Hcl as [Hv Hcl]. cbn in Hv.
    cbn [fmap list_fmap fst] in Hnd. apply NoDup_cons in Hnd as [Hsg Hnd].
    destruct (Hrec seen v (p ++ [sg]) Hv Hb)
      as (seen1 & t & Hr & Hsub1 & Hnew1 & Hag1 & Hm1).
    destruct (IH seen1 Hcl Hnd) as (seen2 & ts & Hk & Hsub2 & Hfst & Hnew2 & Hag2 & Hm2).
    { pose proof (unseen_mono h seen seen1 Hsub1). lia. }
    exists seen2, ((sg, t) :: ts). cbn [derez_kids]. rewrite Hr, Hk.
    split_and!; [done|by etrans|by cbn; rewrite Hfst| | |].
    + intros a q Hq Hnone. destruct (seen1 !! a) as [q1|] eqn:H1.
      * assert (q1 = q) as ->.
        { pose proof (lookup_weaken _ _ _ _ H1 Hsub2). congruence. }
        destruct (Hnew1 a q H1 Hnone) as (suf & n & kids' & -> & Hw & Hn & Hl).
        exists sg, suf, v, t, n, kids'. rewrite <- app_assoc. cbn.
        rewrite !decide_True by done. done.
      * destruct (Hnew2 a q Hq H1)
          as (sg' & suf & v0 & t0 & n & kids' & -> & Hav & Ha & Hw & Hn & Hl).
        exists sg', suf, v0, t0, n, kids'. cbn.
        assert (sg <> sg').
        { intros ->. apply assoc_elem in Ha. rewrite Hfst in Ha. done. }
        rewrite !decide_False by done. done.
    + intros tbl Htbl. cbn [all_kids]. split_and!; [done| |by apply Hag2].
      apply Hag1. by etrans.
    + intros q Hq. cbn in Hq. apply elem_of_app in Hq as [Hq|Hq].
      * destruct (Hm1 q Hq) as [a Ha]. exists a. by eapply lookup_weaken.
      * by apply Hm2.
Qed.

Lemma derez_spec (h : heap) (fuel : nat) :
  wf_heap h -> rec_spec h fuel (derez fuel h).
Proof.
  intros Hwf. induction fuel as [|fuel IH]; intros seen v p Hv Hb; [lia|].
  assert (Hprim : (match v with JObj _ => False | _ => True end) ->
    exists seen' t', Some (seen, prim v) = Some (seen', t')
                     /\ derez_post h seen p v seen' t').
  { intros Hnv. exists seen, (prim v). split; [done|].
    split; [done|]. split; [|split].
    - intros a q H1 H2. by rewrite H2 in H1.
    - intros tbl _. destruct v; cbn in *; done.
    - intros q Hq. destruct v; cbn in *; by apply elem_of_nil in Hq. }
  destruct v as [| |b|z|x|s|a]; try (by apply Hprim).
  cbn [derez]. destruct (seen !! a) as [q|] eqn:Hs.
  - exists seen, (TRef q). split; [done|]. split_and!; [done| | |].
    + intros a' q' H1 H2. by rewrite H2 in H1.
    + intros tbl Htbl. exists a. split; [done|]. by eapply lookup_weaken.
    + intros q' Hq'. apply list_elem_of_singleton in Hq' as ->. by exists a.
  - destruct Hv as [n Hn]. rewrite Hn.
    pose proof (unseen_insert h seen a p (mk_is_Some _ _ Hn) Hs) as Hlt.
    destruct (Hwf a n Hn) as [Hcl Hnd].
    destruct (derez_kids_spec h fuel (derez fuel h) p IH (children n) (<[a := p]> seen))
      as (seen' & ts & Hk & Hsub & Hfst & Hnew & Hag & Hm); [done|done|lia|].
    rewrite Hk. exists seen', (TNode (is_arr n) ts). split; [done|].
    assert (Hap : seen' !! a = Some p).
    { eapply lookup_weaken; [|exact Hsub]. apply lookup_insert_eq. }
    split_and!.
    + etrans; [|exact Hsub]. by apply insert_subseteq.
    + intros a' q Hq Hnone. destruct (decide (a' = a)) as [->|Hne].
      * assert (q = p) as -> by congruence.
        exists [], n, ts. by rewrite app_nil_r.
      * destruct (Hnew a' q Hq)
          as (sg & suf & v0 & t0 & n' & kids' & -> & Hav & Ha & Hw & Hn' & Hl).
        { by rewrite lookup_insert_ne. }
        exists (sg :: suf), n', kids'. cbn. by rewrite Hn, Hav, Ha.
    + intros tbl Htbl. cbn [agrees]. exists a, n. split_and!; try done.
      * by eapply lookup_weaken.
      * by apply Hag.
    + intros q Hq. rewrite refs_of_node in Hq. by apply Hm.
Qed.

(** The pass returns on every heap without dangling references. *)
Lemma decycle_table_spec (h : heap) (v : jsval) :
  wf_heap h -> closed h v ->
  exists tbl t, decycle_table h v = Some (tbl, t) /\ derez_post h ∅ [] v tbl t.
Proof.
  intros Hwf Hv. unfold decycle_table.
  apply (derez_spec h (S (size h)) Hwf ∅ v [] Hv).
  unfold unseen. rewrite dom_empty_L, difference_empty_L, size_dom. lia.
Qed.

Lemma tree_ind' (P : tree -> Prop) :
  P TUndefined -> P TNull -> (forall b, P (TBool b)) ->
  (forall z, P (TNum z)) -> (forall x, P (TFloat x)) -> (forall s, P (TStr s)) ->
  (forall arr kids, Forall (fun kid => P kid.2) kids -> P (TNode arr kids)) ->
  (forall p, P (TRef p)) ->
  forall t, P t.
Proof.
  intros Hundef Hnull Hbool Hnum Hfloat Hstr Hnode Href. fix go 1.
  intros [| |b|z|x|s|arr kids|p].
  - exact Hundef.
  - exact Hnull.
  - apply Hbool.
  - apply Hnum.
  - apply Hfloat.
  - apply Hstr.
  - apply Hnode. induction kids as [|kid kids IH]; constructor; [apply go|exact IH].
  - apply Href.
Qed.

(** *** The written tree as JSON *)

Lemma number_wf (x : Num.Shown) :
  match x with Num.SNumeral n => Num.wf n | _ => True end -> json_wf (number x).
Proof. by destruct x. Qed.

Lemma shown_fraction_wf (neg : bool) (p q : Z) :
  match Num.shown_fraction neg p q with Num.SNumeral n => Num.wf n | _ => True end.
Proof.
  unfold Num.shown_fraction. destruct (Num.to_double p q) as [n e|]; [|done].
  destruct n; auto using numeral_of_wf, zero_wf.
Qed.

Lemma plain_wf (t : tree) : json_wf (plain t).
Proof.
  induction t as [| |b|z|x|s|arr kids IH|p] using tree_ind'; try done.
  - apply number_wf, shown_fraction_wf.
  - apply number_wf. destruct x as [|neg|neg m k]; try done. apply shown_fraction_wf.
  - destruct arr; cbn [plain].
    + apply json_wf_array. unfold elems_of.
      induction IH as [|kid kids Hk _ IHk]; cbn [List.map]; by constructor.
    + apply json_wf_object. induction IH as [|[sg t] kids Ht _ IHk]; [done|].
      cbn [members_of]. destruct t; try done; by constructor.
Qed.

(** The text of a tree reads back as the value it stands for. *)
Lemma parse_to_json (t : tree) : parse (to_json t) = Some (plain t).
Proof. apply parse_write_top, plain_wf. Qed.

(** *** Paths *)

Lemma to_uint_unorm (i : nat) : Nat.to_uint i = Decimal.unorm (Nat.to_uint i).
Proof.
  rewrite <- (DecimalNat.Unsigned.of_to i) at 1. apply DecimalNat.Unsigned.to_of.
Qed.

Lemma some_digits_to_uint (i : nat) : some_digits (Nat.to_uint i) = true.
Proof.
  rewrite to_uint_unorm. pose proof (int_ok_unorm (Nat.to_uint i)) as H.
  by destruct (Decimal.unorm _).
Qed.

Lemma show_index (i : nat) :
  NilZero.string_of_uint (Nat.to_uint i) = NilEmpty.string_of_uint (Nat.to_uint i).
Proof. pose proof (some_digits_to_uint i). by destruct (Nat.to_uint i). Qed.

Lemma parse_segs_show (p : path) (fuel : nat) :
  length p <= fuel -> parse_segs fuel (show_segs p) = Some p.
Proof.
  revert fuel. induction p as [|sg p IH]; intros fuel Hf; [by destruct fuel|].
  destruct fuel as [|f]; [cbn in Hf; lia|]. cbn [length] in Hf.
  cbn [show_segs]. destruct sg as [i|k]; cbn [show_seg].
  - rewrite show_index, !append_assoc.
    set (rest := "]" +:+ show_segs p).
    destruct (head_digit (Nat.to_uint i) rest (some_digits_to_uint i))
      as (c & x & Hcx & Hc).
    cbn [parse_segs]. rewrite strip_app.
    rewrite Hcx. rewrite strip_digit by done. rewrite <- Hcx.
    rewrite read_digits_app by done. rewrite some_digits_to_uint.
    unfold rest. rewrite strip_app, IH by lia. cbn.
    by rewrite DecimalNat.Unsigned.of_to.
  - rewrite !append_assoc.
    cbn [parse_segs]. rewrite strip_app.
    rewrite parse_quote, parse_chars_escape.
    rewrite strip_app, IH by lia. done.
Qed.

Lemma show_segs_length (p : path) : length p <= String.length (show_segs p).
Proof.
  induction p as [|sg p IH]; [done|]. cbn [show_segs length].
  rewrite length_app. destruct sg; cbn [show_seg];
    rewrite (append_cons _ ""); cbn [String.length]; lia.
Qed.

(** The path a marker carries reads back as that path. *)
Lemma parse_show_path (p : path) : parse_path (show_path p) = Some p.
Proof.
  unfold parse_path, show_path. rewrite strip_app.
  apply parse_segs_show, show_segs_length.
Qed.

(** *** Following a path in what the consumer has read *)

Lemma all_kids_arr R (k : nat) (elems : list jsval) (kids : list (seg * tree)) :
  all_kids R (imap (fun i v => (Idx (k + i), v)) elems) kids ->
  forall sg t1, assoc sg kids = Some t1 ->
    exists j v1, sg = Idx (k + j) /\ elems_of plain kids !! j = Some (plain t1)
                 /\ R sg v1 t1.
Proof.
  revert k elems. induction kids as [|[sg' t'] kids IH]; intros k elems Hall sg t1 Ha;
    [done|].
  destruct elems as [|v elems]; [done|]. cbn [imap all_kids] in Hall.
  destruct Hall as (-> & HR & Hall). cbn [assoc] in Ha. case_decide as Hsg.
  - simplify_eq. exists 0, v. cbn. done.
  - destruct (IH (S k) elems) with (sg := sg) (t1 := t1) as (j & v1 & -> & Hj & HR1);
      [|done|].
    + erewrite imap_ext; [exact Hall|]. intros i y _. cbn. do 2 f_equal. lia.
    + exists (S j), v1. split; [f_equal; lia|]. done.
Qed.

Lemma all_kids_obj R (fields : list (string * jsval)) (kids : list (seg * tree)) :
  all_kids R ((fun kv => (Key kv.1, kv.2)) <$> fields) kids ->
  forall sg t1, assoc sg kids = Some t1 -> t1 <> TUndefined ->
    exists k v1, sg = Key k /\ field k (members_of plain kids) = Some (plain t1)
                 /\ R sg v1 t1.
Proof.
  revert fields. induction kids as [|[sg' t'] kids IH]; intros fields Hall sg t1 Ha Hu;
    [done|].
  destruct fields as [|[k' v'] fields]; [done|]. cbn [fmap list_fmap all_kids fst snd] in Hall.
  destruct Hall as (-> & HR & Hall). cbn [assoc] in Ha. case_decide as Hsg.
  - simplify_eq. exists k', v'. split; [done|]. split; [|done].
    cbn [members_of]. destruct t1; try done; cbn [field seg_key];
      by rewrite String.eqb_refl.
  - destruct (IH fields Hall sg t1 Ha Hu) as (k & v1 & -> & Hf & HR1).
    exists k, v1. split; [done|]. split; [|done].
    assert (Hne : String.eqb k' k = false).
    { apply String.eqb_neq. intros ->. done. }
    cbn [members_of]. destruct t'; try done; cbn [field seg_key]; by rewrite Hne.
Qed.

Lemma resolve_plain (h : heap) (tbl : gmap nat path) (q : path) :
  forall (t : tree) (p : path) (v : jsval) (t' : tree),
    agrees h tbl p v t -> lookup_path t q = Some t' -> t' <> TUndefined ->
    resolve (plain t) q = Some (plain t').
Proof.
  induction q as [|sg q IH]; intros t p v t' Hag Hl Hu.
  - cbn in Hl. by simplify_eq.
  - destruct t as [| | | | | |arr kids|]; try done. cbn [lookup_path] in Hl.
    destruct (assoc sg kids) as [t1|] eqn:Ha; [|done].
    assert (Hu1 : t1 <> TUndefined).
    { intros ->. destruct q; cbn in Hl; [by simplify_eq|done]. }
    cbn [agrees] in Hag. destruct Hag as (a & n & -> & Htbl & Hn & -> & Hall).
    destruct n as [elems|fields]; cbn [is_arr plain children] in *.
    + destruct (all_kids_arr _ 0 elems kids Hall sg t1 Ha) as (j & v1 & -> & Hj & HR).
      cbn [resolve]. cbn [Nat.add]. rewrite Hj. by eapply IH.
    + destruct (all_kids_obj _ fields kids Hall sg t1 Ha Hu1) as (k & v1 & -> & Hf & HR).
      cbn [resolve]. rewrite Hf. by eapply IH.
Qed.

Lemma all_kids_names R (cs : list (seg * jsval)) (ks : list (seg * tree)) :
  all_kids R cs ks -> ks.*1 = cs.*1.
Proof.
  revert cs. induction ks as [|[sg' t'] ks IH]; intros [|[sg v] cs] H; try done.
  cbn in H. destruct H as (-> & _ & H). cbn. f_equal. by apply IH.
Qed.

(** *** The payload object *)

Lemma closed_mono (h h' : heap) (v : jsval) :
  h ⊆ h' -> closed h v -> closed h' v.
Proof.
  intros Hsub. destruct v; try done. cbn. intros [n Hn]. exists n.
  by eapply lookup_weaken.
Qed.

Lemma children_values_arr (elems : list jsval) : (children (NArr elems)).*2 = elems.
Proof.
  cbn. rewrite fmap_imap. cbn.
  assert (forall (k : nat) (l : list jsval),
             imap (fun (_ : nat) (v : jsval) => v) l = l) as H.
  { intros _ l. induction l as [|x l IH]; [done|]. cbn. f_equal. exact IH. }
  by apply (H 0).
Qed.

Lemma children_closed_arr (h : heap) (elems : list jsval) :
  Forall (closed h) elems -> Forall (fun kid => closed h kid.2) (children (NArr elems)).
Proof.
  intros H. apply (Forall_fmap snd (closed h)). by rewrite children_values_arr.
Qed.

Lemma children_nodup_arr (elems : list jsval) : NoDup (children (NArr elems)).*1.
Proof.
  cbn. rewrite fmap_imap.
  assert (forall k, NoDup (imap (fun i _ => Idx (k + i)) elems)) as H.
  { induction elems as [|x elems IH]; intros k; cbn; [constructor|].
    constructor.
    - rewrite elem_of_lookup_imap. intros (i & y & Heq & _). cbn in Heq.
      simplify_eq. lia.
    - specialize (IH (S k)). erewrite imap_ext; [exact IH|].
      intros i y _. cbn. f_equal. lia. }
  apply (H 0).
Qed.

Lemma fresh_insert_subseteq (h : heap) (n : node) :
  h ⊆ <[fresh (dom h) := n]> h.
Proof. apply insert_subseteq, not_elem_of_dom, is_fresh. Qed.

Lemma wf_heap_fresh (h : heap) (n : node) :
  wf_heap h ->
  Forall (fun kid => closed (<[fresh (dom h) := n]> h) kid.2) (children n) ->
  NoDup (children n).*1 ->
  wf_heap (<[fresh (dom h) := n]> h).
Proof.
  intros Hwf Hcl Hnd a m Hm. apply lookup_insert_Some in Hm as [[_ <-]|[_ Hm]]; [done|].
  destruct (Hwf a m Hm) as [Hc Hd]. split; [|done].
  eapply Forall_impl; [exact Hc|]. intros kid.
  apply closed_mono, fresh_insert_subseteq.
Qed.

Lemma closed_values (h h' : heap) (l : list jsval) :
  h ⊆ h' -> Forall (closed h) l -> Forall (closed h') l.
Proof. intros Hsub Hl. eapply Forall_impl; [exact Hl|]. intros v. by apply closed_mono. Qed.

(** The object literal: where its parts are, and that the heap stays
    well formed. *)
Lemma payload_object_spec (h : heap) (p : Payload) (files_at : option nat) :
  wf_heap h -> payload_closed h p -> files_held h p files_at ->
  exists a_files a_artifacts a_root,
    (payload_object h p files_at).2 = JObj a_root /\
    (payload_object h p files_at).1 !! a_root
    = Some (NObj (payload_fields p a_files a_artifacts)) /\
    (payload_object h p files_at).1 !! a_files = Some (NArr (files p)) /\
    (payload_object h p files_at).1 !! a_artifacts = Some (NArr (artifacts p)) /\
    match files_at with Some a => a_files = a | None => h !! a_files = None end /\
    h ⊆ (payload_object h p files_at).1 /\
    wf_heap (payload_object h p files_at).1.
Proof.
  intros Hwf Hp Hheld. unfold payload_closed, payload_values in Hp.
  apply Forall_app in Hp as [Hvals Hp]. apply Forall_app in Hp as [Hfiles Harts].
  assert (H1 : exists h1 a_files,
             match files_at with
             | Some a => (h, a)
             | None => (<[fresh (dom h) := NArr (files p)]> h, fresh (dom h))
             end = (h1, a_files)
             /\ h ⊆ h1 /\ wf_heap h1 /\ h1 !! a_files = Some (NArr (files p))
             /\ match files_at with Some a => a_files = a | None => h !! a_files = None end).
  { destruct files_at as [a|].
    - exists h, a. by split_and!.
    - eexists _, _. split; [reflexivity|]. split_and!.
      + apply fresh_insert_subseteq.
      + apply wf_heap_fresh; [done| |apply children_nodup_arr].
        apply children_closed_arr.
        eapply closed_values; [apply fresh_insert_subseteq|done].
      + apply lookup_insert_eq.
      + apply not_elem_of_dom, is_fresh. }
  destruct H1 as (h1 & a_files & Heq & H01 & Hwf1 & Hf1 & Hat).
  unfold payload_object. rewrite Heq.
  set (h2 := <[fresh (dom h1) := NArr (artifacts p)]> h1).
  set (h3 := <[fresh (dom h2) := NObj _]> h2).
  cbn [fst snd].
  assert (H12 : h1 ⊆ h2) by apply fresh_insert_subseteq.
  assert (H23 : h2 ⊆ h3) by apply fresh_insert_subseteq.
  assert (H03 : h ⊆ h3) by (etrans; [exact H01|]; etrans; [exact H12|exact H23]).
  assert (Hwf2 : wf_heap h2).
  { apply wf_heap_fresh; [done| |apply children_nodup_arr].
    apply children_closed_arr. eapply closed_values; [|exact Harts].
    etrans; [exact H01|exact H12]. }
  assert (Hf3 : h3 !! a_files = Some (NArr (files p))).
  { eapply lookup_weaken; [exact Hf1|]. etrans; [exact H12|exact H23]. }
  assert (Ha3 : h3 !! fresh (dom h1) = Some (NArr (artifacts p))).
  { eapply lookup_weaken; [apply lookup_insert_eq|done]. }
  exists a_files, (fresh (dom h1)), (fresh (dom h2)).
  split_and!; [done|apply lookup_insert_eq|done|done|done|done|].
  apply wf_heap_fresh; [done| |].
  - apply (closed_values h h3 _ H03) in Hvals.
    unfold payload_fields. cbn [children fmap list_fmap fst snd].
    repeat (apply Forall_cons in Hvals as [? Hvals]).
    repeat (apply Forall_cons; split); try done.
    + by destruct (api_key p).
    + by eexists.
    + by eexists.
  - unfold payload_fields. cbn [children fmap list_fmap fst snd].
    apply (bool_decide_unpack _). vm_compute. reflexivity.
Qed.

(** C9.  Whatever the result descriptor refers to, cycles included,
    serialising the payload returns a text.  The text is JSON, and
    reading it gives the value of the tree the pass has written.  That
    tree is the object literal of [addTestRun], its members in the order
    of the literal, with every object of the graph written out once, at
    the path of its first visit, and replaced everywhere else by a
    marker.  The table of first visits gives one path to each object
    visited: the path leads to that very object in the heap, to the
    place where it is written out in the tree, and to the same place in
    what the consumer has read.  Every marker carries the path of an
    entry of the table, in a text that reads back as that path. *)
Theorem C9_cycle_safe_serialization (h : heap) (p : Payload) (files_at : option nat) :
  wf_heap h -> payload_closed h p -> files_held h p files_at ->
  let h' := (payload_object h p files_at).1 in
  let root := (payload_object h p files_at).2 in
  exists tbl t text,
    decycle_payload h p files_at = Some (tbl, t) /\
    stringify_payload h p files_at = Some text /\
    text = to_json t /\
    parse text = Some (plain t) /\
    (exists a_files a_artifacts a_root,
        root = JObj a_root /\
        h' !! a_root = Some (NObj (payload_fields p a_files a_artifacts)) /\
        h' !! a_files = Some (NArr (files p)) /\
        h' !! a_artifacts = Some (NArr (artifacts p)) /\
        match files_at with Some a => a_files = a | None => h !! a_files = None end /\
        h ⊆ h') /\
    agrees h' tbl [] root t /\
    (exists kids,
        t = TNode false kids /\
        kids.*1 = Key <$> ["api_key"; "files"; "steps"; "status"; "stack";
                           "example"; "title"; "suite_title"; "suite_id";
                           "test_id"; "message"; "run_time"; "artifacts"]) /\
    (forall a q, tbl !! a = Some q ->
       walk h' root q = Some (JObj a) /\
       exists n kids,
         h' !! a = Some n /\
         lookup_path t q = Some (TNode (is_arr n) kids) /\
         resolve (plain t) q = Some (plain (TNode (is_arr n) kids))) /\
    (forall q, q ∈ refs_of t ->
       (exists a, tbl !! a = Some q) /\ parse_path (show_path q) = Some q).
Proof.
  intros Hwf Hp Hheld h' root.
  destruct (payload_object_spec h p files_at Hwf Hp Hheld)
    as (a_files & a_artifacts & a_root & Hroot & Hr & Hf & Ha & Hat & Hsub & Hwf').
  fold h' in Hr, Hf, Ha, Hsub, Hwf'. fold root in Hroot.
  assert (Hcl : closed h' root) by (rewrite Hroot; by eexists).
  destruct (decycle_table_spec h' root Hwf' Hcl) as (tbl & t & Ht & _ & Hnew & Hag & Hm).
  assert (Hagt : agrees h' tbl [] root t) by (by apply Hag).
  exists tbl, t, (to_json t).
  assert (Hnode : exists kids,
             t = TNode false kids /\
             kids.*1 = Key <$> ["api_key"; "files"; "steps"; "status"; "stack";
                                "example"; "title"; "suite_title"; "suite_id";
                                "test_id"; "message"; "run_time"; "artifacts"]).
  { rewrite Hroot in Hagt. destruct t; cbn in Hagt; try (by destruct Hagt).
    - destruct Hagt as (a & n & [= <-] & _ & Hn & -> & Hall).
      change (h' !! a_root = Some n) in Hn. rewrite Hr in Hn.
      injection Hn as <-. eexists. split; [done|].
      by rewrite (all_kids_names _ _ _ Hall).
    - exfalso. destruct Hagt as (a & [= <-] & Hq).
      destruct (Hnew a_root p0 Hq (lookup_empty _)) as (suf & n & kids & -> & _ & _ & Hl).
      cbn in Hl. destruct suf; cbn in Hl; [by simplify_eq|done]. }
  destruct Hnode as (kids & -> & Hkeys).
  split_and!.
  - exact Ht.
  - unfold stringify_payload, stringify, decycle. fold h' root. by rewrite Ht.
  - done.
  - apply parse_to_json.
  - by exists a_files, a_artifacts, a_root.
  - done.
  - by exists kids.
  - intros a q Hq.
    destruct (Hnew a q Hq (lookup_empty _)) as (suf & n & kids' & -> & Hw & Hn & Hl).
    cbn [app] in *. split; [done|]. exists n, kids'. split_and!; [done|done|].
    by eapply resolve_plain.
  - intros q Hq. split; [by apply Hm|apply parse_show_path].
Qed.

End JsonCycleFacts.

(* ================================================================== *)
(** * The results at the sample inputs *)
(* ================================================================== *)

(** The ordering result on the sample schedule: two results and the final
    status, reported while requests are in flight and partly refused. *)
Lemma X22_witness :
  calls_of Sample.report_sched
  = Sample.adds ++ [UpdateRunStatus FAILED (JBool true)]
  /\ drained (run Sample.env Sample.report_sched Sample.ready)
  /\ serial (trace (run Sample.env Sample.report_sched Sample.ready))
  /\ exists rest,
       sends (history (run Sample.env Sample.report_sched Sample.ready)) ++ rest
       = sends (history Sample.ready)
         ++ requests_of_calls Sample.env (this Sample.ready) Sample.adds
         ++ [PutStatus (status_url Sample.env (runId (this Sample.ready)))
               {| sb_api_key := apiKey (this Sample.ready);
                  sb_status_event := statusEvent FAILED (JBool true);
                  sb_status := FAILED |}]
       /\ (drained (run Sample.env Sample.report_sched Sample.ready) -> rest = []).
Proof.
  split; [vm_compute; reflexivity|]. split; [split; vm_compute; reflexivity|].
  apply (X22_requests_follow_calls Sample.env Sample.params
           [Do CreateRun; Tick Sample.ok; Tick Sample.ok]
           Sample.report_sched Sample.adds FAILED (JBool true)).
  - intros f rid. exact I.
  - vm_compute; reflexivity.
  - vm_compute; reflexivity.
  - vm_compute; reflexivity.
  - vm_compute; reflexivity.
  - repeat (constructor; [cbn; try exact I; lia|]). constructor.
  - repeat (constructor; [reflexivity|]). constructor.
  - vm_compute; reflexivity.
Defined.


(** The resumed sample client whose update is refused with status 500. *)
Lemma C3_witness :
  proc_runId (new_client Sample.resumed Sample.params) = Some "r1"
  /\ returned (run Sample.resumed
                 [Do CreateRun; Tick Sample.ok; Tick (Sample.http 500)]
                 (new_client Sample.resumed Sample.params))
     = [RetResolved "r1"]
  /\ unhandled_rejection
       (run Sample.resumed [Do CreateRun; Tick Sample.ok; Tick (Sample.http 500)]
          (new_client Sample.resumed Sample.params))
     = Some (AxiosError (Some {| er_status := 500; er_data := Some "denied" |})).
Proof.
  pose proof (C3_refused_resume_is_unhandled Sample.resumed
                (new_client Sample.resumed Sample.params) "key" "r1" Sample.ok
                (AxiosError (Some {| er_status := 500; er_data := Some "denied" |}))
                eq_refl eq_refl eq_refl eq_refl eq_refl eq_refl eq_refl)
    as (Hret & _ & _ & _ & Hun).
  split; [reflexivity|]. split; [exact Hret|exact Hun].
Defined.

(** A client without run id: a result and the final status send nothing. *)
Lemma C4_witness :
  truthy_str (runId (this (new_client Sample.env Sample.params))) = false
  /\ sends (history (run Sample.env
                       [Do (AddTestRun (JStr "T1") PASSED Sample.with_file);
                        Tick Sample.ok;
                        Do (UpdateRunStatus PASSED (JBool false))]
                       (new_client Sample.env Sample.params)))
     = sends (history (new_client Sample.env Sample.params)).
Proof.
  split; [reflexivity|].
  refine (proj1 (C4_no_run_no_op Sample.env (new_client Sample.env Sample.params)
                   [Do (AddTestRun (JStr "T1") PASSED Sample.with_file);
                    Tick Sample.ok;
                    Do (UpdateRunStatus PASSED (JBool false))]
                   [Sample.ok; Sample.ok] _ _ _ _ _ _)).
  - reflexivity.
  - reflexivity.
  - reflexivity.
  - constructor.
  - repeat (constructor; [reflexivity|]). constructor.
  - vm_compute. lia.
Defined.

(** C6 (as stated).  For [actual = "foo"] and [expected = "bar"] the line
    that carries [foo] comes first and the line that carries [bar] second:
    no line marked as expected and carrying [bar] is followed by a line
    marked as actual and carrying [foo]. *)
Lemma C6_counterexample :
  Str.lines Sample.diagnostic
  = [""; "m"; ""; ""; "+ expected - actual"; "- foo"; "+ bar"; ""; ""]
  /\ expected_then_actual "bar" "foo" (Str.lines Sample.diagnostic) = false
  /\ actual_then_expected "bar" "foo" (Str.lines Sample.diagnostic) = true.
Proof. split_and!; vm_compute; reflexivity. Qed.

(** The diagnostic text of a failure whose actual value has two lines,
    written with colours. *)
Lemma C6_witness :
  (truthy (e_actual Cases.two_lines) = true
   /\ truthy (e_expected Cases.two_lines) = true)
  /\ exists text A E,
       cl_stack (addTestRun_prepare Cases.coloured (this Sample.ready)
                   (JStr "T1") FAILED Cases.failed_two_lines).1.1 = JStr text
       /\ text
          = (if truthy (td_steps Cases.failed_two_lines)
             then to_string Cases.coloured (td_steps Cases.failed_two_lines)
                  +:+ Str.nl +:+ Str.nl
                  +:+ bold_red (chalk Cases.coloured) failure_banner +:+ Str.nl
             else "")
            +:+ Str.nl
            +:+ bold (chalk Cases.coloured)
                  (cl_message (addTestRun_prepare Cases.coloured (this Sample.ready)
                                 (JStr "T1") FAILED Cases.failed_two_lines).1.1)
            +:+ Str.nl +:+ Str.nl +:+ Str.nl
            +:+ bold_green (chalk Cases.coloured) "+ expected" +:+ " "
            +:+ bold_red (chalk Cases.coloured) "- actual" +:+ Str.nl
            +:+ red (chalk Cases.coloured) A +:+ Str.nl
            +:+ green (chalk Cases.coloured) E +:+ Str.nl +:+ Str.nl
            +:+ rendered (callsiteRecord Cases.coloured Cases.two_lines)
       /\ Str.lines A
          = String.append "- "
              <$> Str.lines (to_string Cases.coloured (e_actual Cases.two_lines))
       /\ Str.lines E
          = String.append "+ "
              <$> Str.lines (to_string Cases.coloured (e_expected Cases.two_lines))
       /\ (chalk Cases.coloured = plain_chalk ->
           Str.lines text =
             (if truthy (td_steps Cases.failed_two_lines)
              then Str.lines (to_string Cases.coloured (td_steps Cases.failed_two_lines))
                   ++ [""; failure_banner]
              else [])
             ++ [""]
             ++ Str.lines (cl_message (addTestRun_prepare Cases.coloured
                                         (this Sample.ready)
                                         (JStr "T1") FAILED Cases.failed_two_lines).1.1)
             ++ [""; ""; "+ expected - actual"]
             ++ (String.append "- "
                   <$> Str.lines (to_string Cases.coloured (e_actual Cases.two_lines)))
             ++ (String.append "+ "
                   <$> Str.lines (to_string Cases.coloured (e_expected Cases.two_lines)))
             ++ [""]
             ++ Str.lines (rendered (callsiteRecord Cases.coloured Cases.two_lines))).
Proof.
  split; [split; reflexivity|].
  apply (C6_diff_block_lines Cases.coloured (this Sample.ready) (JStr "T1") FAILED
           Cases.failed_two_lines Cases.two_lines); reflexivity.
Defined.

(** A client launched inside run [r7] resumes it: the one request goes
    to the address of [r7] under the trimmed endpoint, also when the
    service refuses it. *)
Lemma C7_witness :
  proc_runId (new_client Cases.beta_resumed Sample.params) = Some "r7"
  /\ returned (createRun Cases.beta_resumed
                 (new_client Cases.beta_resumed Sample.params))
     = [RetResolved "r7"]
  /\ sends (history (run Cases.beta_resumed
                       [Do CreateRun; Tick Sample.ok; Tick (Sample.http 500)]
                       (new_client Cases.beta_resumed Sample.params)))
     = [PutRun "https://beta.testomat.io/api/reporter/r7"
          {| rp_api_key := "key"; rp_title := Some "nightly";
             rp_parallel := JBool false; rp_group_title := None;
             rp_env := None |}].
Proof.
  pose proof (C7_resume_run Cases.beta_resumed
                (new_client Cases.beta_resumed Sample.params) "key" "r7"
                eq_refl eq_refl eq_refl eq_refl eq_refl eq_refl eq_refl)
    as (Hret & _ & _ & _ & _ & Hsends).
  split; [reflexivity|]. split.
  - etrans; [exact Hret|]. vm_compute. reflexivity.
  - etrans; [exact (Hsends Sample.ok [Sample.http 500])|].
    vm_compute. reflexivity.
Defined.

(** The status update of the sample client. *)
Lemma C8_witness :
  truthy_str (runId (this Sample.ready)) = true
  /\ sends (history (run Sample.env
                       [Do (UpdateRunStatus PASSED (JBool true)); Tick Sample.ok]
                       Sample.ready))
     = sends (history Sample.ready)
       ++ [status_request Sample.env Sample.ready PASSED "pass_parallel"].
Proof.
  split; [vm_compute; reflexivity|].
  refine (proj1 (proj2 (proj2 (C8_status_event Sample.env Sample.ready Sample.ok
                                 _ _ _ _)))); vm_compute; reflexivity.
Defined.

(** A file reported before any run exists is not uploaded. *)
Lemma C10_witness :
  truthy_str (runId (this (new_client Sample.env Sample.params))) = false
  /\ uploads (history (addTestRun Sample.env (JStr "T1") PASSED Sample.with_file
                         (new_client Sample.env Sample.params)))
     = uploads (history (new_client Sample.env Sample.params)).
Proof.
  split; [reflexivity|].
  refine (proj1 (C10_late_run_id Sample.env (new_client Sample.env Sample.params)
                   (JStr "T1") PASSED Sample.with_file _)).
  reflexivity.
Defined.

(** The payload whose step tree points back to its root and to the
    array of files. *)
Lemma C9_witness :
  JsonCycle.wf_heap Sample.cyclic_heap /\
  JsonCycle.payload_closed Sample.cyclic_heap Sample.cyclic_payload /\
  JsonCycle.files_held Sample.cyclic_heap Sample.cyclic_payload (Some 3) /\
  exists tbl t text,
    JsonCycle.decycle_payload Sample.cyclic_heap Sample.cyclic_payload (Some 3)
    = Some (tbl, t) /\
    JsonCycle.stringify_payload Sample.cyclic_heap Sample.cyclic_payload (Some 3)
    = Some text /\
    text = Sample.cyclic_text /\
    JsonCycle.parse text = Some (JsonCycle.plain t) /\
    JsonCycle.refs_of t
    = [[JsonCycle.Key "steps"];
       [JsonCycle.Key "steps"; JsonCycle.Key "children"; JsonCycle.Idx 0];
       [JsonCycle.Key "files"];
       [JsonCycle.Key "steps"]] /\
    forall q, q ∈ JsonCycle.refs_of t ->
      (exists a, tbl !! a = Some q)
      /\ JsonCycle.parse_path (JsonCycle.show_path q) = Some q.
Proof.
  assert (Hwf : JsonCycle.wf_heap Sample.cyclic_heap).
  { apply (bool_decide_unpack _). vm_compute. exact I. }
  assert (Hp : JsonCycle.payload_closed Sample.cyclic_heap Sample.cyclic_payload).
  { apply (bool_decide_unpack _). vm_compute. exact I. }
  assert (Hf : JsonCycle.files_held Sample.cyclic_heap Sample.cyclic_payload (Some 3)).
  { vm_compute. reflexivity. }
  split; [exact Hwf|]. split; [exact Hp|]. split; [exact Hf|].
  destruct (JsonCycleFacts.C9_cycle_safe_serialization _ _ _ Hwf Hp Hf)
    as (tbl & t & text & Ht & Hs & _ & Hparse & _ & _ & _ & _ & Hrefs).
  exists tbl, t, text. split_and!; [exact Ht|exact Hs| |exact Hparse| |exact Hrefs].
  { revert Hs. vm_compute. by intros [= <-]. }
  revert Ht. vm_compute. intros [= <- <-]. reflexivity.
Defined.

(* ================================================================== *)
(** * Further results: creating a run, failures, files *)
(* ================================================================== *)

Module StrMore.
Import Str.

(** Joining what [split] returned with the separator gives the text back. *)
Lemma join_split (c : ascii) (s : string) : join (String c "") (split c s) = s.
Proof.
  induction s as [|x s IH]; [done|]. simpl.
  destruct (Ascii.eqb x c) eqn:E.
  - apply Ascii.eqb_eq in E as ->.
    pose proof (split_nonempty c s) as Hne.
    destruct (split c s) as [|w ws] eqn:Hs; [done|].
    change (join (String c "") ("" :: w :: ws))
      with ("" +:+ String c "" +:+ join (String c "") (w :: ws)).
    rewrite IH. reflexivity.
  - pose proof (split_nonempty c s) as Hne.
    destruct (split c s) as [|w ws] eqn:Hs; [done|].
    destruct ws as [|w' ws].
    + simpl in *. by rewrite IH.
    + change (join (String c "") (String x w :: w' :: ws))
        with (String x w +:+ String c "" +:+ join (String c "") (w' :: ws)).
      rewrite append_cons. f_equal. exact IH.
Qed.

Lemma split_head (c : ascii) (a b : string) :
  free_of c a -> split c (a +:+ String c b) = a :: split c b.
Proof. intros Ha. rewrite split_app. unfold free_of in Ha. by rewrite Ha. Qed.

Lemma has_prefix_app (p b : string) : has_prefix p (p +:+ b) = true.
Proof.
  induction p as [|x p IH]; [done|].
  rewrite append_cons. cbn. by rewrite Ascii.eqb_refl, IH.
Qed.

Lemma contains_prefix (p s : string) : has_prefix p s = true -> contains p s = true.
Proof. intros H. destruct s; cbn; by rewrite H. Qed.

(** A text that is written somewhere in [s] is found in [s]. *)
Lemma contains_app (p a b : string) : contains p (a +:+ p +:+ b) = true.
Proof.
  induction a as [|x a IH].
  - apply contains_prefix. exact (has_prefix_app p b).
  - rewrite append_cons. cbn. rewrite IH. apply orb_true_r.
Qed.

(** A text without the character [c] does not contain it. *)
Lemma contains_free (c : ascii) (s : string) :
  free_of c s -> contains (String c "") s = false.
Proof.
  unfold free_of. induction s as [|x s IH]; [done|].
  cbn. destruct (Ascii.eqb x c) eqn:E; [done|].
  pose proof (split_nonempty c s) as Hne.
  destruct (split c s) as [|w ws] eqn:Hs; [done|].
  intros [= -> ->]. rewrite Ascii.eqb_sym, E. cbn. by apply IH.
Qed.

End StrMore.
Import StrMore.

Section Lifecycle.
Context (env : Env).

#[local] Arguments handler : simpl never.

(** ** Events that are no traffic *)

Lemma history_no_traffic (evs : list Event) (s s' : State) :
  trace s' = evs ++ trace s -> Forall no_traffic evs ->
  sends (history s') = sends (history s) /\ uploads (history s') = uploads (history s).
Proof.
  intros Htr Hq. rewrite (history_emits evs s s' Htr), sends_app, uploads_app.
  apply Forall_reverse in Hq.
  assert (sends (reverse evs) = [] /\ uploads (reverse evs) = []) as [-> ->].
  { induction Hq as [|[] l Hx Hl [IH1 IH2]]; cbn in *; done. }
  by rewrite !app_nil_r.
Qed.

Lemma handler_no_traffic (t : Task) (e : JsError) :
  Forall no_traffic (reverse (handler t e).1).
Proof.
  apply Forall_reverse. destruct t; cbn; unfold handler, catch_add; cbn;
    repeat case_match; repeat constructor.
Qed.

(** ** Turns of an idle chain *)

Lemma tick_start (o : Outcome) (s : State) (t : Task) (rest : list Task) :
  running s = None -> pending s = t :: rest -> chain s = Fulfilled ->
  tick env o s = reaction env t (set_pending rest s).
Proof.
  intros Hr Hp Hc. unfold tick. rewrite Hr, Hp. unfold start_task.
  replace (chain (set_pending rest s)) with (chain s) by done. by rewrite Hc.
Qed.

Lemma tick_skip (o : Outcome) (s : State) (t : Task) (rest : list Task) (e : JsError) :
  running s = None -> pending s = t :: rest -> chain s = Rejected e ->
  tick env o s = rejected t e (set_pending rest s).
Proof.
  intros Hr Hp Hc. unfold tick. rewrite Hr, Hp. unfold start_task.
  replace (chain (set_pending rest s)) with (chain s) by done. by rewrite Hc.
Qed.

Lemma tick_response (o : Outcome) (s : State) (t : Task) :
  running s = Some (AwaitResponse t) ->
  tick env o s = response_arrives env t o (emit (ERecv o) s).
Proof. intros Hr. unfold tick. by rewrite Hr. Qed.

Lemma tick_uploads (o : Outcome) (s : State) (cl : AddClosure) :
  running s = Some (AwaitUploads cl) -> tick env o s = uploads_settled env cl s.
Proof. intros Hr. unfold tick. by rewrite Hr. Qed.

Lemma chain_snoc (s : State) (st : Settlement) (l : list Settlement) :
  results s = l ++ [st] -> chain s = st.
Proof. unfold chain. intros ->. by rewrite last_snoc. Qed.

(** [createRun] on the create path. *)
Lemma createRun_create (s : State) (key : string) :
  apiKey (this s) = Some key ->
  isValidUrl env (Str.trim (TESTOMAT_URL env)) = true ->
  truthy_str (proc_runId s) = false ->
  createRun env s
  = give (RetQueue (ntasks s)) (enqueue (TCreateRun (runParams_of env (this s) key)) s).
Proof. intros Hk Hu Hp. unfold createRun. by rewrite Hk, Hu, Hp. Qed.

(** The create request of an idle client is on its way after one turn. *)
Lemma create_sent (s : State) (key : string) (o : Outcome) :
  apiKey (this s) = Some key ->
  isValidUrl env (Str.trim (TESTOMAT_URL env)) = true ->
  truthy_str (proc_runId s) = false ->
  running s = None -> pending s = [] -> chain s = Fulfilled ->
  tick env o (createRun env s)
  = {| this := this s; proc_runId := proc_runId s; results := results s;
       running := Some (AwaitResponse (TCreateRun (runParams_of env (this s) key)));
       pending := [];
       trace := ESend (PostRun (create_url env) (runParams_of env (this s) key)) :: trace s;
       returned := RetQueue (length (results s)) :: returned s |}.
Proof.
  intros Hk Hu Hp Hr Hpd Hc.
  rewrite (createRun_create s key) by done.
  erewrite tick_start; [|exact Hr|cbn; rewrite Hpd; reflexivity|exact Hc].
  unfold ntasks. rewrite Hr, Hpd. cbn. by rewrite !Nat.add_0_r.
Qed.

(** ** Creating a run *)

(** The address kept in [this.runUrl]: what follows the third slash of
    the address the service returned, behind the configured endpoint. *)
Lemma report_path (a b c path : string) :
  Str.free_of "/" a -> Str.free_of "/" b -> Str.free_of "/" c ->
  Str.join "/" (Str.splice_from 3
                  (Str.split "/" (a +:+ "/" +:+ b +:+ "/" +:+ c +:+ "/" +:+ path)))
  = path.
Proof.
  intros Ha Hb Hc.
  change ("/" +:+ b +:+ "/" +:+ c +:+ "/" +:+ path)
    with (String "/" (b +:+ "/" +:+ c +:+ "/" +:+ path)).
  rewrite split_head by done.
  change ("/" +:+ c +:+ "/" +:+ path) with (String "/" (c +:+ "/" +:+ path)).
  rewrite split_head by done.
  change ("/" +:+ path) with (String "/" path).
  rewrite split_head by done.
  unfold Str.splice_from. cbn [drop]. apply join_split.
Qed.

Lemma create_done (s : State) (key uid url : string) (o : Outcome) (code : Z) :
  apiKey (this s) = Some key ->
  isValidUrl env (Str.trim (TESTOMAT_URL env)) = true ->
  truthy_str (proc_runId s) = false ->
  running s = None -> pending s = [] -> chain s = Fulfilled ->
  run env [Do CreateRun; Tick o; Tick (Resolves (run_created code uid url))] s
  = {| this :=
         with_runUrl (with_runId (this s) (Some uid))
           (Some (TESTOMAT_URL env +:+ "/"
                  +:+ Str.join "/" (Str.splice_from 3 (Str.split "/" url))));
       proc_runId := Some uid;
       results := results s ++ [Fulfilled];
       running := None;
       pending := [];
       trace := [ELog (LogReportCreated (Some uid));
                 ERecv (Resolves (run_created code uid url));
                 ESend (PostRun (create_url env) (runParams_of env (this s) key))]
                ++ trace s;
       returned := RetQueue (length (results s)) :: returned s |}.
Proof.
  intros Hk Hu Hp Hr Hpd Hc. cbn [run foldl step call].
  rewrite (create_sent s key o) by done.
  by rewrite (tick_response _ _ (TCreateRun (runParams_of env (this s) key))).
Qed.

Lemma ntasks_idle (s : State) :
  running s = None -> pending s = [] -> ntasks s = length (results s).
Proof. intros Hr Hp. unfold ntasks. rewrite Hr, Hp. cbn. lia. Qed.

(** X1.  On an idle client with an API key, a valid endpoint and no
    external run id, [createRun] posts the run parameters to the create
    address; when the service answers with a run id and an address, the
    client adopts the id (also in [process.env.runId]), logs it, and the
    future [createRun] returned is fulfilled. *)
Theorem X1_create_run_creates (s : State) (key uid url : string) (o : Outcome) (code : Z) :
  apiKey (this s) = Some key ->
  isValidUrl env (Str.trim (TESTOMAT_URL env)) = true ->
  truthy_str (proc_runId s) = false ->
  running s = None -> pending s = [] -> chain s = Fulfilled ->
  let s' := run env [Do CreateRun; Tick o; Tick (Resolves (run_created code uid url))] s in
  returned s' = RetQueue (ntasks s) :: returned s /\
  future_state s' (RetQueue (ntasks s)) = Some Fulfilled /\
  history s'
  = history s
    ++ [ESend (PostRun (create_url env) (runParams_of env (this s) key));
        ERecv (Resolves (run_created code uid url));
        ELog (LogReportCreated (Some uid))] /\
  runId (this s') = Some uid /\
  proc_runId s' = Some uid /\
  drained s'.
Proof.
  intros Hk Hu Hp Hr Hpd Hc s'. unfold s'.
  rewrite (create_done s key uid url o code) by done.
  rewrite ntasks_idle by done. cbn -[history]. split_and!; try done.
  - apply list_lookup_middle. done.
  - by apply (history_emits [_; _; _] s).
Qed.

(** X2.  The report address kept for the final log is the configured
    endpoint followed by the path of the address the service returned:
    everything behind its third slash.  An address with fewer than three
    slashes leaves only the endpoint and a slash. *)
Theorem X2_run_url_is_endpoint_and_path
  (s : State) (key uid url : string) (o : Outcome) (code : Z) :
  apiKey (this s) = Some key ->
  isValidUrl env (Str.trim (TESTOMAT_URL env)) = true ->
  truthy_str (proc_runId s) = false ->
  running s = None -> pending s = [] -> chain s = Fulfilled ->
  let s' := run env [Do CreateRun; Tick o; Tick (Resolves (run_created code uid url))] s in
  (forall a b c path,
      Str.free_of "/" a -> Str.free_of "/" b -> Str.free_of "/" c ->
      url = a +:+ "/" +:+ b +:+ "/" +:+ c +:+ "/" +:+ path ->
      runUrl (this s') = Some (TESTOMAT_URL env +:+ "/" +:+ path)) /\
  (length (Str.split "/" url) <= 3 ->
      runUrl (this s') = Some (TESTOMAT_URL env +:+ "/")).
Proof.
  intros Hk Hu Hp Hr Hpd Hc s'. unfold s'.
  rewrite (create_done s key uid url o code) by done.
  cbn [this runUrl with_runUrl]. split.
  - intros a b c path Ha Hb Hcc ->. by rewrite report_path.
  - intros Hlen. unfold Str.splice_from. by rewrite drop_ge.
Qed.

(** ** A run that could not be created *)

Lemma create_failed (s : State) (key : string) (o : Outcome) (e : JsError) :
  apiKey (this s) = Some key ->
  isValidUrl env (Str.trim (TESTOMAT_URL env)) = true ->
  truthy_str (proc_runId s) = false ->
  running s = None -> pending s = [] -> chain s = Fulfilled ->
  run env [Do CreateRun; Tick o; Tick (Rejects e)] s
  = {| this := this s;
       proc_runId := proc_runId s;
       results := results s ++ [Fulfilled];
       running := None;
       pending := [];
       trace := [ELog LogCreateError; ERecv (Rejects e);
                 ESend (PostRun (create_url env) (runParams_of env (this s) key))]
                ++ trace s;
       returned := RetQueue (length (results s)) :: returned s |}.
Proof.
  intros Hk Hu Hp Hr Hpd Hc. cbn [run foldl step call].
  rewrite (create_sent s key o) by done.
  rewrite (tick_response _ _ (TCreateRun (runParams_of env (this s) key))) by done.
  cbn [response_arrives]. by rewrite rejected_eq.
Qed.

(** X3.  When the create request fails, whatever the error, the failure
    is logged and absorbed: the future of [createRun] is fulfilled, the
    client has no run id, and from then on [addTestRun] and
    [updateRunStatus] send nothing and upload nothing, in any order and
    however the event loop takes its turns. *)
Theorem X3_create_failure_silences_reports
  (s : State) (key : string) (o : Outcome) (e : JsError) (sched : list Step) :
  apiKey (this s) = Some key ->
  isValidUrl env (Str.trim (TESTOMAT_URL env)) = true ->
  truthy_str (proc_runId s) = false ->
  truthy_str (runId (this s)) = false ->
  running s = None -> pending s = [] -> chain s = Fulfilled ->
  Forall (fun x => is_report x = true) (calls_of sched) ->
  let s1 := run env [Do CreateRun; Tick o; Tick (Rejects e)] s in
  let s' := run env sched s1 in
  history s1
  = history s
    ++ [ESend (PostRun (create_url env) (runParams_of env (this s) key));
        ERecv (Rejects e); ELog LogCreateError] /\
  future_state s1 (RetQueue (ntasks s)) = Some Fulfilled /\
  truthy_str (runId (this s')) = false /\
  sends (history s')
  = sends (history s) ++ [PostRun (create_url env) (runParams_of env (this s) key)] /\
  uploads (history s') = uploads (history s).
Proof.
  intros Hk Hu Hp Hid Hr Hpd Hc Hcalls s1 s'.
  assert (Hs1 := create_failed s key o e Hk Hu Hp Hr Hpd Hc). fold s1 in Hs1.
  assert (Hh1 : history s1
                = history s
                  ++ [ESend (PostRun (create_url env) (runParams_of env (this s) key));
                      ERecv (Rejects e); ELog LogCreateError]).
  { apply (history_emits [_; _; _] s). by rewrite Hs1. }
  assert (Hinv : norun_inv s1 s').
  { apply norun_run; [| done |].
    - eapply chain_snoc. by rewrite Hs1.
    - apply norun_inv_refl; rewrite Hs1; cbn; [done|done|constructor]. }
  destruct Hinv as (Hid' & _ & _ & _ & (logs & Htr & Hlogs) & _).
  rewrite (history_emits logs s1 s' Htr), sends_app, uploads_app.
  apply Forall_reverse in Hlogs.
  rewrite (sends_quiet (reverse logs)) by (by apply is_log_quiet).
  rewrite (uploads_logs (reverse logs)) by done.
  rewrite !app_nil_r, Hh1, sends_app, uploads_app.
  split_and!; [done| |done|done|by rewrite app_nil_r].
  rewrite Hs1, ntasks_idle by done. cbn. by apply list_lookup_middle.
Qed.

(** X4.  A create response the reaction cannot read is met by the
    [catch] of [createRun]: the failure is logged and the future is
    fulfilled.  Without a body nothing is adopted.  With a body that lacks
    the address, the run id has been stored before the exception: the
    client keeps it, while [runUrl] and [process.env.runId] stay as they
    were. *)
Theorem X4_create_response_malformed
  (s : State) (key : string) (uid : option string) (o : Outcome) (code : Z) :
  apiKey (this s) = Some key ->
  isValidUrl env (Str.trim (TESTOMAT_URL env)) = true ->
  truthy_str (proc_runId s) = false ->
  running s = None -> pending s = [] -> chain s = Fulfilled ->
  let no_body := {| r_status := code; r_data := None |} in
  let no_address :=
    {| r_status := code; r_data := Some {| rd_uid := uid; rd_url := None |} |} in
  let sa := run env [Do CreateRun; Tick o; Tick (Resolves no_body)] s in
  let sb := run env [Do CreateRun; Tick o; Tick (Resolves no_address)] s in
  (history sa
   = history s
     ++ [ESend (PostRun (create_url env) (runParams_of env (this s) key));
         ERecv (Resolves no_body); ELog LogCreateError] /\
   future_state sa (RetQueue (ntasks s)) = Some Fulfilled /\
   this sa = this s /\ proc_runId sa = proc_runId s) /\
  (history sb
   = history s
     ++ [ESend (PostRun (create_url env) (runParams_of env (this s) key));
         ERecv (Resolves no_address); ELog LogCreateError] /\
   future_state sb (RetQueue (ntasks s)) = Some Fulfilled /\
   runId (this sb) = uid /\
   runUrl (this sb) = runUrl (this s) /\
   proc_runId sb = proc_runId s).
Proof.
  intros Hk Hu Hp Hr Hpd Hc no_body no_address sa sb.
  unfold sa, sb. cbn [run foldl step call].
  rewrite (create_sent s key o) by done.
  rewrite !(tick_response _ _ (TCreateRun (runParams_of env (this s) key))) by done.
  rewrite ntasks_idle by done.
  cbn [response_arrives fulfilled created r_data rd_url no_body no_address].
  rewrite !rejected_eq. cbn -[history]. split; split_and!; try done.
  - by apply (history_emits [_; _; _] s).
  - by apply list_lookup_middle.
  - by apply (history_emits [_; _; _] s).
  - by apply list_lookup_middle.
Qed.

(** X5.  After a run has been created, a second [createRun] creates no
    second run: [process.env.runId] now holds the id, so the call takes
    the resume path, returns a promise resolved with the id and updates
    the existing run. *)
Theorem X5_create_run_twice_creates_once
  (s : State) (key uid url : string) (o o' : Outcome) (code : Z) :
  apiKey (this s) = Some key ->
  isValidUrl env (Str.trim (TESTOMAT_URL env)) = true ->
  truthy_str (proc_runId s) = false ->
  running s = None -> pending s = [] -> chain s = Fulfilled ->
  truthy_str (Some uid) = true ->
  let s1 := run env [Do CreateRun; Tick o; Tick (Resolves (run_created code uid url))] s in
  let s2 := run env [Do CreateRun; Tick o'] s1 in
  returned s2 = RetResolved uid :: returned s1 /\
  runId (this s2) = Some uid /\
  sends (history s2)
  = sends (history s)
    ++ [PostRun (create_url env) (runParams_of env (this s) key);
        PutRun (run_url env uid) (runParams_of env (this s) key)].
Proof.
  intros Hk Hu Hp Hr Hpd Hc Huid s1 s2. unfold s2, s1.
  rewrite (create_done s key uid url o code) by done.
  cbn [run foldl step call]. unfold createRun.
  cbn [this apiKey with_runUrl with_runId proc_runId].
  rewrite Hk, Hu, Huid. cbn [negb interp].
  erewrite tick_start; [|done|done|by eapply chain_snoc].
  cbn -[history sends]. split_and!; [done|done|].
  erewrite (history_emits [_; _; _; _] s); [|done].
  by rewrite sends_app.
Qed.

(** ** The API key *)

(** X6.  [createRun] reads [this.apiKey.trim()] before anything else: on
    a new client it throws exactly when [params.apiKey] is absent or empty
    and [TESTOMATIO] is not set, and then nothing has been queued or
    logged, whatever the endpoint. *)
Theorem X6_create_run_needs_api_key (params : Params) :
  let s := createRun env (new_client env params) in
  ((exists e, returned s = [RetThrows e])
   <-> truthy_str (p_apiKey params) = false /\ TESTOMATIO env = None) /\
  ((exists e, returned s = [RetThrows e]) -> pending s = [] /\ trace s = []).
Proof.
  cbn zeta. unfold createRun, new_client, or_else.
  cbn [this apiKey proc_runId].
  destruct (truthy_str (p_apiKey params)) eqn:Hp.
  - destruct (p_apiKey params) as [k|]; [|done].
    split; [split|]; [intros [e He]|intros [? _]; done|intros [e He]];
      repeat case_match; done.
  - destruct (TESTOMATIO env) as [k|].
    + split; [split|]; [intros [e He]|intros [_ ?]; done|intros [e He]];
        repeat case_match; done.
    + split; [split|]; [done|intros _; by eexists|done].
Qed.

(** ** An endpoint that is no URL *)

Lemma silent_tick (o : Outcome) (s : State) : silent_inv s -> silent_inv (tick env o s).
Proof.
  intros (Hid & Hr & Hp & Hc & Hlog).
  destruct (pending s) as [|t rest] eqn:Hpd.
  - unfold tick. rewrite Hr, Hpd. unfold silent_inv. by rewrite Hpd.
  - rewrite (tick_start o s t rest) by done.
    apply Forall_cons in Hp as [Ht Hp].
    assert (reaction env t (set_pending rest s) = settle Fulfilled (set_pending rest s))
      as ->.
    { destruct t; try done; cbn; by rewrite Hid. }
    split_and!; try done. by eapply chain_snoc.
Qed.

Lemma silent_call (x : Call) (s : State) :
  isValidUrl env (Str.trim (TESTOMAT_URL env)) = false ->
  silent_inv s -> silent_inv (call env x s).
Proof.
  intros Hu (Hid & Hr & Hp & Hc & Hlog).
  destruct x as [|testId status td|status par]; cbn [call].
  - unfold createRun. rewrite Hu. destruct (apiKey (this s)); cbn [negb].
    + split_and!; try done. cbn. by constructor.
    + by split_and!.
  - unfold addTestRun.
    destruct (prepare_no_run env (this s) testId status td Hid) as [Hl _].
    destruct (addTestRun_prepare env (this s) testId status td) as [[cl td'] evs].
    cbn [snd] in Hl. rewrite emit_all_eq.
    split_and!; try done; cbn.
    + apply Forall_app. split; [done|by repeat constructor].
    + apply Forall_app. split; [by apply Forall_reverse|done].
  - unfold updateRunStatus. split_and!; try done. cbn.
    apply Forall_app. split; [done|by repeat constructor].
Qed.

Lemma silent_run (sched : list Step) (s : State) :
  isValidUrl env (Str.trim (TESTOMAT_URL env)) = false ->
  silent_inv s -> silent_inv (run env sched s).
Proof.
  intros Hu. revert s.
  induction sched as [|[c|o] sched IH]; intros s Hs; [done|..];
    cbn [run foldl step]; apply IH.
  - by apply silent_call.
  - by apply silent_tick.
Qed.

(** X7.  With an endpoint that does not parse as a URL and no external
    run id, [createRun] never queues a request, so the client never learns
    a run id: whatever is called, in any order and however often, nothing
    is handed to the transport or to the uploader. *)
Theorem X7_invalid_endpoint_sends_nothing (params : Params) (sched : list Step) :
  isValidUrl env (Str.trim (TESTOMAT_URL env)) = false ->
  truthy_str (loaded_runId env) = false ->
  let s' := run env sched (new_client env params) in
  truthy_str (runId (this s')) = false /\
  sends (history s') = [] /\
  uploads (history s') = [] /\
  Forall is_log (history s').
Proof.
  intros Hu Hid s'.
  assert (Hinv : silent_inv s').
  { apply silent_run; [done|]. split_and!; [done|done|constructor|done|constructor]. }
  destruct Hinv as (Hid' & _ & _ & _ & Hlog).
  assert (Hh : Forall is_log (history s')) by (by apply Forall_reverse).
  split_and!; [done| | |done].
  - by apply sends_quiet, is_log_quiet.
  - by apply uploads_logs.
Qed.

(** ** The final status *)

(** The status update of an idle client with a run id is on its way after
    one turn. *)
Lemma status_sent (s : State) (status isParallel : jsval) (o : Outcome) :
  running s = None -> pending s = [] -> chain s = Fulfilled ->
  truthy_str (runId (this s)) = true ->
  tick env o (updateRunStatus status isParallel s)
  = {| this := this s; proc_runId := proc_runId s; results := results s;
       running := Some (AwaitResponse (TUpdateStatus status isParallel));
       pending := [];
       trace := ESend (PutStatus (status_url env (runId (this s)))
                         (status_body (this s) status isParallel)) :: trace s;
       returned := RetQueue (length (results s)) :: returned s |}.
Proof.
  intros Hr Hpd Hc Hid. unfold updateRunStatus.
  erewrite tick_start; [|exact Hr|cbn; rewrite Hpd; reflexivity|exact Hc].
  rewrite ntasks_idle by done. cbn. by rewrite Hid.
Qed.

(** X8.  The endpoint check belongs to [createRun] alone.  A client
    launched with an external run id keeps that id from its constructor:
    with an endpoint that is no URL [createRun] logs and returns nothing,
    and [updateRunStatus] still hands its request to the transport. *)
Theorem X8_endpoint_check_covers_create_only
  (params : Params) (status isParallel : jsval) (o : Outcome) :
  isValidUrl env (Str.trim (TESTOMAT_URL env)) = false ->
  truthy_str (loaded_runId env) = true ->
  is_Some (apiKey (this (new_client env params))) ->
  let s0 := new_client env params in
  let s' := run env [Do CreateRun; Do (UpdateRunStatus status isParallel); Tick o] s0 in
  returned s' = [RetQueue 0; RetUndefined] /\
  history s'
  = [ELog LogInvalidUrl;
     ESend (PutStatus (status_url env (loaded_runId env))
              (status_body (this s0) status isParallel))].
Proof.
  intros Hu Hid [key Hk] s0 s'. unfold s'. cbn [run foldl step call].
  change (apiKey (this s0) = Some key) in Hk.
  assert (Hc : createRun env s0 = give RetUndefined (emit (ELog LogInvalidUrl) s0)).
  { unfold createRun. by rewrite Hk, Hu. }
  rewrite Hc, status_sent by done. done.
Qed.

Lemma strict_eq_ne (x y : jsval) : x <> y -> strict_eq x y = false.
Proof.
  intros H. unfold strict_eq.
  destruct x as [| | | |[]| |]; by rewrite ?bool_decide_eq_false_2.
Qed.

(** X9.  A status that is neither [PASSED] nor [FAILED] is sent all the
    same: without a tag when the run is not parallel, and with the tag
    [undefined_parallel] when it is. *)
Theorem X9_status_event_of_other_status
  (s : State) (status isParallel : jsval) (o : Outcome) :
  running s = None -> pending s = [] -> chain s = Fulfilled ->
  truthy_str (runId (this s)) = true ->
  status <> PASSED -> status <> FAILED ->
  history (run env [Do (UpdateRunStatus status isParallel); Tick o] s)
  = history s
    ++ [ESend (PutStatus (status_url env (runId (this s)))
                 {| sb_api_key := apiKey (this s);
                    sb_status_event :=
                      if truthy isParallel then Some "undefined_parallel" else None;
                    sb_status := status |})].
Proof.
  intros Hr Hpd Hc Hid Hp Hf. cbn [run foldl step call].
  rewrite status_sent by done.
  erewrite (history_emits [_] s); [|done]. cbn [reverse]. do 3 f_equal.
  unfold status_body, statusEvent.
  rewrite !strict_eq_ne by done. by destruct (truthy isParallel).
Qed.

(** X10.  [updateRunStatus] absorbs every failure of its request,
    whatever the error: the error is logged and the future is fulfilled.
    When the request succeeds the report address is logged, provided the
    client has one (it has one after creating its run). *)
Theorem X10_update_run_status_settles
  (s : State) (status isParallel : jsval) (o : Outcome) :
  running s = None -> pending s = [] -> chain s = Fulfilled ->
  truthy_str (runId (this s)) = true ->
  let req := PutStatus (status_url env (runId (this s)))
               (status_body (this s) status isParallel) in
  (forall e,
      let s' := run env [Do (UpdateRunStatus status isParallel); Tick o; Tick (Rejects e)] s in
      history s' = history s ++ [ESend req; ERecv (Rejects e); ELog (LogStatusError e)] /\
      future_state s' (RetQueue (ntasks s)) = Some Fulfilled /\
      drained s') /\
  (forall resp,
      let s' := run env [Do (UpdateRunStatus status isParallel); Tick o;
                         Tick (Resolves resp)] s in
      history s'
      = history s ++ [ESend req; ERecv (Resolves resp)]
        ++ (if truthy_str (runUrl (this s))
            then [ELog (LogReportSaved (interp (runUrl (this s))))] else []) /\
      future_state s' (RetQueue (ntasks s)) = Some Fulfilled /\
      drained s').
Proof.
  intros Hr Hpd Hc Hid req. split.
  - intros e s'. unfold s'. cbn [run foldl step call].
    rewrite status_sent by done.
    rewrite (tick_response _ _ (TUpdateStatus status isParallel)) by done.
    cbn [response_arrives]. rewrite rejected_eq, ntasks_idle by done.
    cbn -[history]. split_and!; [|by apply list_lookup_middle|done].
    by apply (history_emits [_; _; _] s).
  - intros resp s'. unfold s'. cbn [run foldl step call].
    rewrite status_sent by done.
    rewrite (tick_response _ _ (TUpdateStatus status isParallel)) by done.
    rewrite ntasks_idle by done.
    cbn [response_arrives fulfilled emit this runUrl].
    destruct (truthy_str (runUrl (this s))); cbn -[history];
      (split_and!; [|by apply list_lookup_middle|done]).
    + by apply (history_emits [_; _; _] s).
    + by apply (history_emits [_; _] s).
Qed.

(** ** Reporting a test *)

Lemma addTestRun_eq (testId status : jsval) (td : TestData) (s : State) :
  addTestRun env testId status td s
  = {| this := this s; proc_runId := proc_runId s; results := results s;
       running := running s;
       pending := pending s
                  ++ [TAddTestRun (addTestRun_prepare env (this s) testId status td).1.1];
       trace := reverse (addTestRun_prepare env (this s) testId status td).2 ++ trace s;
       returned := RetQueue (ntasks s) :: returned s |}.
Proof.
  unfold addTestRun.
  destruct (addTestRun_prepare env (this s) testId status td) as [[cl td'] evs].
  rewrite emit_all_eq. reflexivity.
Qed.

(** The [catch] of [addTestRun] absorbs an error unless it cannot read
    it. *)
Lemma catch_add_absorbs (title : jsval) (e : JsError) :
  (catch_add title e).2 = Fulfilled <-> ~ unreadable_failure e.
Proof.
  unfold catch_add, unreadable_failure.
  destruct (err_response e) as [r|]; [|split; [intros _ (r & ? & _); done|done]].
  destruct (400 <=? er_status r)%Z eqn:Hs.
  - apply Z.leb_le in Hs. split; [|done].
    intros _ (r' & [= <-] & Hlt & _). lia.
  - apply Z.leb_gt in Hs. destruct (er_data r) as [m|] eqn:Hd.
    + split; [|done]. intros _ (r' & [= <-] & _ & Hd'). congruence.
    + split; [done|]. intros Hn. exfalso. apply Hn. by exists r.
Qed.

(** X11.  When the request of [addTestRun] fails, its [catch] leaves the
    chain fulfilled for every error but one kind: a response with a
    status below 400 and no body, whose message the handler reads without
    a guard.  Then the chain stays rejected, the task queued next skips
    its request, and its own [catch] brings the chain back. *)
Theorem X11_add_test_run_catch_escape
  (s : State) (cl : AddClosure) (t' : Task) (rest : list Task)
  (e : JsError) (o : Outcome) :
  running s = Some (AwaitResponse (TAddTestRun cl)) ->
  pending s = t' :: rest -> report_task t' = true ->
  let s1 := tick env (Rejects e) s in
  let s2 := tick env o s1 in
  (chain s1 = Fulfilled <-> ~ unreadable_failure e) /\
  (unreadable_failure e ->
     sends (history s2) = sends (history s) /\
     uploads (history s2) = uploads (history s) /\
     running s2 = None /\ pending s2 = rest /\ chain s2 = Fulfilled).
Proof.
  intros Hr Hp Ht s1 s2.
  assert (Hs1 : s1 = rejected (TAddTestRun cl) e (emit (ERecv (Rejects e)) s)).
  { unfold s1. by rewrite (tick_response _ _ (TAddTestRun cl)). }
  rewrite rejected_eq in Hs1.
  assert (Hc1 : chain s1 = (catch_add (cl_title cl) e).2).
  { eapply chain_snoc. by rewrite Hs1. }
  split; [rewrite Hc1; apply catch_add_absorbs|].
  intros Hbad.
  assert (Hrej : exists e', chain s1 = Rejected e' /\ err_response e' = None).
  { rewrite Hc1. destruct Hbad as (r & Hr' & Hlt & Hd). unfold catch_add.
    rewrite Hr', Hd. apply Z.leb_gt in Hlt as ->. by eexists. }
  destruct Hrej as (e' & Hc1' & He').
  assert (Hs2 : s2 = rejected t' e' (set_pending rest s1)).
  { unfold s2. apply tick_skip; [by rewrite Hs1|by rewrite Hs1|done]. }
  rewrite rejected_eq in Hs2.
  assert (Hh : (handler t' e').2 = Fulfilled).
  { destruct t'; try done. unfold handler, catch_add. by rewrite He'. }
  assert (Htr : trace s2
                = (reverse (handler t' e').1
                   ++ reverse (handler (TAddTestRun cl) e).1 ++ [ERecv (Rejects e)])
                  ++ trace s).
  { rewrite Hs2, Hs1. cbn. by rewrite <- !app_assoc. }
  destruct (history_no_traffic _ s s2 Htr) as [Hsend Hupl].
  { repeat (apply Forall_app; split); try apply handler_no_traffic.
    by repeat constructor. }
  split_and!; [done|done|by rewrite Hs2|by rewrite Hs2|].
  eapply chain_snoc. rewrite Hs2. cbn. by rewrite Hh.
Qed.


(** ** Files *)

Lemma prepare_events (c : Client) (testId status : jsval) (td : TestData) :
  exists logs,
    (addTestRun_prepare env c testId status td).2
    = logs ++ ((fun f => EUpload f (interp (runId c)))
                 <$> (if truthy_str (runId c) then default [] (td_files td) else []))
    /\ Forall is_log logs.
Proof.
  unfold addTestRun_prepare.
  destruct (match td_error td with Some _ => _ | None => _ end)
    as [[m st] logs] eqn:E.
  cbn. exists logs. split; [done|].
  destruct (td_error td) as [err|]; [|by simplify_eq].
  unfold format_error in E. destruct (callsiteRecord env err); simplify_eq;
    by repeat constructor.
Qed.

Lemma prepare_closure (c : Client) (testId status : jsval) (td : TestData) :
  let cl := (addTestRun_prepare env c testId status td).1.1 in
  cl_files cl = default [] (td_files td) /\
  cl_uploadedFiles cl
  = (fun f => uploadFile env f (interp (runId c)))
      <$> (if truthy_str (runId c) then default [] (td_files td) else []) /\
  cl_status cl = status /\
  cl_test_id cl = td_test_id td /\
  cl_title cl = td_title td /\
  cl_steps cl = td_steps td /\
  cl_suite_title cl = td_suite_title td /\
  cl_suite_id cl = td_suite_id td /\
  cl_example cl = default_val JNull (td_example td) /\
  cl_time cl = default_val (JStr "") (td_time td).
Proof.
  unfold addTestRun_prepare.
  by destruct (match td_error td with Some _ => _ | None => _ end) as [[m st] logs].
Qed.

Lemma uploads_of_files (files : list jsval) (rid : string) :
  uploads ((fun f => EUpload f rid) <$> files) = (fun f => (f, rid)) <$> files.
Proof. induction files as [|f files IH]; [done|]. cbn. by rewrite <- IH. Qed.

(** X12.  With a run id at hand, [addTestRun] hands every file to the
    uploader during the call itself, once each, in the order of the list
    and under the current run id, whatever is still queued; nothing is
    sent to the transport by the call. *)
Theorem X12_files_uploaded_during_call
  (s : State) (testId status : jsval) (td : TestData) (rid : string) :
  runId (this s) = Some rid -> truthy_str (Some rid) = true ->
  let s1 := addTestRun env testId status td s in
  uploads (history s1)
  = uploads (history s) ++ ((fun f => (f, rid)) <$> default [] (td_files td)) /\
  sends (history s1) = sends (history s) /\
  exists cl,
    tasks_left s1 = tasks_left s ++ [TAddTestRun cl] /\
    cl_uploadedFiles cl = (fun f => uploadFile env f rid) <$> default [] (td_files td).
Proof.
  intros Hid Ht s1. unfold s1. rewrite addTestRun_eq.
  destruct (prepare_events (this s) testId status td) as (logs & Hev & Hlogs).
  destruct (prepare_closure (this s) testId status td) as (_ & Hup & _).
  rewrite Hid, Ht in Hev, Hup. cbn [interp] in Hev, Hup.
  match goal with |- context [history ?x] => set (s2 := x) end.
  assert (Htr : trace s2
                = reverse (addTestRun_prepare env (this s) testId status td).2 ++ trace s)
    by done.
  rewrite (history_emits _ s s2 Htr).
  rewrite reverse_involutive, Hev, sends_app, !uploads_app.
  rewrite (sends_quiet (logs ++ _)), (uploads_logs logs), uploads_of_files; [|done|].
  - split_and!; [done|by rewrite app_nil_r|]. eexists. split; [|exact Hup].
    unfold tasks_left. cbn. by destruct (running s) as [[]|].
  - apply Forall_app. split; [by apply is_log_quiet|].
    apply Forall_fmap, Forall_true. done.
Qed.

Lemma promise_all_resolves (l : list jsval) (up : jsval -> Settled jsval JsError)
  (v : jsval -> jsval) :
  Forall (fun f => up f = Resolves (v f)) l ->
  promise_all (up <$> l) = Resolves (v <$> l).
Proof. induction 1 as [|f l Hf Hl IH]; [done|]. cbn. by rewrite Hf, IH. Qed.

Lemma promise_all_some_rejects (l : list (Settled jsval JsError)) (e : JsError) :
  Rejects e ∈ l -> exists e', promise_all l = Rejects e'.
Proof.
  induction l as [|[a|e0] l IH]; intros Hin.
  - by apply elem_of_nil in Hin.
  - apply elem_of_cons in Hin as [?|Hin]; [done|].
    destruct (IH Hin) as [e' He']. exists e'. cbn. by rewrite He'.
  - by exists e0.
Qed.

(** A result reported on an idle client with a run id waits for its
    uploads after one turn. *)
Lemma add_started (s : State) (testId status : jsval) (td : TestData) (o : Outcome) :
  running s = None -> pending s = [] -> chain s = Fulfilled ->
  truthy_str (runId (this s)) = true ->
  tick env o (addTestRun env testId status td s)
  = {| this := this s; proc_runId := proc_runId s; results := results s;
       running :=
         Some (AwaitUploads (addTestRun_prepare env (this s) testId status td).1.1);
       pending := [];
       trace := reverse (addTestRun_prepare env (this s) testId status td).2 ++ trace s;
       returned := RetQueue (length (results s)) :: returned s |}.
Proof.
  intros Hr Hpd Hc Hid. rewrite addTestRun_eq.
  erewrite tick_start; [|exact Hr|cbn; rewrite Hpd; reflexivity|exact Hc].
  rewrite ntasks_idle by done. cbn. by rewrite Hid.
Qed.

(** X13.  When every upload succeeds, the payload that [addTestRun]
    posts lists the artifacts in the order of the files, one per file, and
    carries the fields of the result descriptor: the file list, [status],
    the title, [null] for a missing [example] and the empty string for a
    missing [time]. *)
Theorem X13_artifacts_follow_files
  (s : State) (testId result : jsval) (td : TestData) (rid : string)
  (v : jsval -> jsval) (o1 o2 : Outcome) :
  running s = None -> pending s = [] -> chain s = Fulfilled ->
  runId (this s) = Some rid -> truthy_str (Some rid) = true ->
  Forall (fun f => uploadFile env f rid = Resolves (v f)) (default [] (td_files td)) ->
  let s' := run env [Do (AddTestRun testId result td); Tick o1; Tick o2] s in
  exists body,
    sends (history s')
    = sends (history s) ++ [PostTestrun (testrun_url env (Some rid)) body] /\
    artifacts body = v <$> default [] (td_files td) /\
    files body = default [] (td_files td) /\
    api_key body = apiKey (this s) /\
    status body = result /\
    title body = td_title td /\
    example body = default_val JNull (td_example td) /\
    run_time body = default_val (JStr "") (td_time td).
Proof.
  intros Hr Hpd Hc Hid Ht Hup s'. unfold s'. cbn [run foldl step call].
  assert (Hid' : truthy_str (runId (this s)) = true) by (by rewrite Hid).
  rewrite add_started by done.
  destruct (prepare_events (this s) testId result td) as (logs & Hev & Hlogs).
  destruct (prepare_closure (this s) testId result td)
    as (Hf & Hu & Hst & Hti & Htt & _ & _ & _ & Hex & Htm).
  cbn zeta in *. rewrite Hid, Ht in Hev, Hu. cbn [interp] in Hev, Hu.
  erewrite tick_uploads; [|done]. unfold uploads_settled.
  rewrite Hu, (promise_all_resolves _ _ v Hup).
  cbn [send emit set_running this runId trace]. rewrite Hid.
  eexists. split.
  - erewrite (history_emits (_ :: _) s); [|cbn; reflexivity].
    rewrite reverse_cons, reverse_involutive, !sends_app, Hev.
    rewrite (sends_quiet (logs ++ _)); [done|].
    apply Forall_app. split; [by apply is_log_quiet|].
    apply Forall_fmap, Forall_true. done.
  - cbn. by rewrite Hf, Hst, Htt, Hex, Htm.
Qed.

(** X14.  When an upload fails, the result is not posted: the failure is
    met by the [catch] of [addTestRun], the future is fulfilled and the
    chain is free for the next task. *)
Theorem X14_failed_upload_drops_result
  (s : State) (testId status : jsval) (td : TestData) (rid : string)
  (e : JsError) (o1 o2 : Outcome) :
  running s = None -> pending s = [] -> chain s = Fulfilled ->
  runId (this s) = Some rid -> truthy_str (Some rid) = true ->
  (forall f, reporting_upload (uploadFile env f rid)) ->
  Rejects e ∈ ((fun f => uploadFile env f rid) <$> default [] (td_files td)) ->
  let s' := run env [Do (AddTestRun testId status td); Tick o1; Tick o2] s in
  sends (history s') = sends (history s) /\
  future_state s' (RetQueue (ntasks s)) = Some Fulfilled /\
  drained s'.
Proof.
  intros Hr Hpd Hc Hid Ht Hrep Hin s'. unfold s'. cbn [run foldl step call].
  assert (Hid' : truthy_str (runId (this s)) = true) by (by rewrite Hid).
  rewrite add_started by done.
  destruct (prepare_events (this s) testId status td) as (logs & Hev & Hlogs).
  destruct (prepare_closure (this s) testId status td) as (_ & Hu & _).
  cbn zeta in *. rewrite Hid, Ht in Hev, Hu. cbn [interp] in Hev, Hu.
  erewrite tick_uploads; [|done]. unfold uploads_settled. rewrite Hu.
  destruct (promise_all_some_rejects _ e Hin) as [e' He'].
  rewrite He', rejected_eq, ntasks_idle by done.
  assert (He'' : reporting_error e').
  { apply promise_all_rejects in He'. apply list_elem_of_fmap in He' as (f & Hf & _).
    specialize (Hrep f). by rewrite <- Hf in Hrep. }
  rewrite (handler_absorbs (TAddTestRun _) e' eq_refl He'').
  cbn -[history sends]. split_and!; [|by apply list_lookup_middle|done].
  eapply (sends_history_quiet
            (reverse (handler (TAddTestRun _) e').1
             ++ reverse (addTestRun_prepare env (this s) testId status td).2));
    [cbn; by rewrite <- app_assoc|].
  apply Forall_app. split; [apply quiet_no_send, handler_quiet|].
  apply Forall_reverse. rewrite Hev. apply Forall_app.
  split; [by apply quiet_no_send, is_log_quiet|].
  apply Forall_fmap, Forall_true. done.
Qed.

(** ** The diagnostic text without a diff *)

(** X15.  When the error lacks a truthy [actual] or a truthy [expected]
    value (a missing one, but also [0], [false] or the empty text), the
    diagnostic text has no diff block: with colours off it reads the step
    trace and the failure banner when there are steps, an empty line, the
    message, and the rendered stack.  The message is the result of
    [error.inspect()] when there is one, else the message of the result
    descriptor, else [error.message]. *)
Theorem X15_no_diff_without_both_values
  (c : Client) (testId status : jsval) (td : TestData) (error : ErrorObj) :
  chalk env = plain_chalk ->
  td_error td = Some error ->
  truthy (e_actual error) && truthy (e_expected error) = false ->
  let cl := (addTestRun_prepare env c testId status td).1.1 in
  cl_message cl = reported_message td error /\
  exists text,
    cl_stack cl = JStr text /\
    Str.lines text =
      (if truthy (td_steps td)
       then Str.lines (to_string env (td_steps td)) ++ [""; failure_banner]
       else [])
      ++ [""] ++ Str.lines (reported_message td error)
      ++ Str.lines (rendered (callsiteRecord env error)).
Proof.
  intros Hc Herr Hno. unfold addTestRun_prepare. rewrite Herr.
  unfold format_error. rewrite Hno, Hc.
  cbn [plain_chalk bold id].
  fold (reported_message td error).
  set (msg := reported_message td error).
  assert (Hstack : forall text,
    Str.lines (Str.nl +:+ msg +:+ Str.nl +:+ text)
    = [""] ++ Str.lines msg ++ Str.lines text).
  { intros text.
    change (Str.nl +:+ msg +:+ Str.nl +:+ text) with (Str.join Str.nl [""; msg; text]).
    rewrite lines_join by done. cbn [fmap list_fmap concat]. by rewrite app_nil_r. }
  assert (Hsteps : forall stack,
    String.eqb stack "" = false ->
    exists text,
      with_steps env (td_steps td) stack = JStr text /\
      Str.lines text
      = (if truthy (td_steps td)
         then Str.lines (to_string env (td_steps td)) ++ [""; failure_banner]
         else []) ++ Str.lines stack).
  { intros stack Hne. unfold with_steps. rewrite Hne, Hc.
    cbn [negb plain_chalk bold_red id]. destruct (truthy (td_steps td)).
    - eexists; split; [reflexivity|].
      change (to_string env (td_steps td) +:+ Str.nl +:+ Str.nl
              +:+ failure_banner +:+ Str.nl +:+ stack)
        with (Str.join Str.nl [to_string env (td_steps td); ""; failure_banner; stack]).
      rewrite lines_join by done. cbn [fmap list_fmap concat].
      by rewrite app_nil_r, <- !app_assoc.
    - by eexists. }
  assert (Hplain : Str.lines (Str.nl +:+ msg +:+ Str.nl) = [""] ++ Str.lines msg ++ [""]).
  { rewrite <- (append_nil_r (Str.nl +:+ msg +:+ Str.nl)), !append_assoc.
    exact (Hstack ""). }
  destruct (callsiteRecord env error) as [|text|e]; cbn [fst snd rendered cl_message cl_stack];
    (split; [done|]).
  - destruct (Hsteps (Str.nl +:+ msg +:+ Str.nl)) as (text & Hw & Hl); [done|].
    exists text. split; [done|]. by rewrite Hl, Hplain.
  - destruct (Hsteps ((Str.nl +:+ msg +:+ Str.nl) +:+ text)) as (t & Hw & Hl); [done|].
    exists t. split; [done|]. rewrite Hl. f_equal.
    rewrite <- (Hstack text). by rewrite !append_assoc.
  - destruct (Hsteps (Str.nl +:+ msg +:+ Str.nl)) as (text & Hw & Hl); [done|].
    exists text. split; [done|]. by rewrite Hl, Hplain.
Qed.

(** ** Every task settles *)

Lemma ntasks_tick (o : Outcome) (s : State) : ntasks (tick env o s) = ntasks s.
Proof.
  rewrite !ntasks_tasks_left.
  destruct (tick_shape env o s)
    as [[-> _]|[(-> & -> & _)|(t & rest & st & -> & -> & -> & _)]]; [done|done|].
  rewrite length_app. cbn. lia.
Qed.

Lemma results_tick (o : Outcome) (s : State) :
  exists new, results (tick env o s) = results s ++ new.
Proof.
  destruct (tick_shape env o s)
    as [[-> _]|[(-> & _)|(t & rest & st & _ & _ & -> & _)]].
  - exists []. by rewrite app_nil_r.
  - exists []. by rewrite app_nil_r.
  - by eexists.
Qed.

Lemma ticks_keep (outs : list Outcome) (s : State) :
  ntasks (run env (Tick <$> outs) s) = ntasks s /\
  exists new, results (run env (Tick <$> outs) s) = results s ++ new.
Proof.
  revert s. induction outs as [|o outs IH]; intros s.
  - split; [done|]. exists []. by rewrite app_nil_r.
  - cbn [fmap list_fmap run foldl step].
    destruct (IH (tick env o s)) as [Hn [new Hnew]]. unfold run in *.
    rewrite Hn, Hnew, ntasks_tick. split; [done|].
    destruct (results_tick o s) as [new' ->]. exists (new' ++ new).
    by rewrite app_assoc.
Qed.

(** X16.  The chain never gets stuck.  A task suspends at most twice, so
    three turns per queued task are enough, whatever the transport
    answers and whatever fails: then nothing is left suspended or queued,
    every task enqueued so far has settled exactly once, and what had
    settled before is unchanged. *)
Theorem X16_every_task_settles (s : State) (outs : list Outcome) :
  work s <= length outs ->
  let s' := run env (Tick <$> outs) s in
  drained s' /\
  length (results s') = ntasks s /\
  exists new, results s' = results s ++ new /\ length new = length (tasks_left s).
Proof.
  intros Hw s'. pose proof (drain env outs s Hw) as Hd. fold s' in Hd.
  destruct (ticks_keep outs s) as [Hn [new Hnew]]. fold s' in Hn, Hnew.
  assert (Hlen : length (results s') = ntasks s).
  { rewrite <- Hn, ntasks_tasks_left, Hd. cbn. lia. }
  split_and!; [|done|].
  - unfold tasks_left in Hd. split; by destruct (running s') as [[]|].
  - exists new. split; [done|].
    rewrite Hnew, length_app, ntasks_tasks_left in Hlen. lia.
Qed.

(** ** Calls behind a pending [createRun] *)

Lemma call_report (x : Call) (s : State) :
  is_report x = true ->
  exists t evs,
    call env x s
    = {| this := this s; proc_runId := proc_runId s; results := results s;
         running := running s; pending := pending s ++ [t];
         trace := evs ++ trace s;
         returned := RetQueue (ntasks s) :: returned s |}
    /\ report_task t = true /\ Forall quiet evs
    /\ task_of_call env (this s) x = Some t.
Proof.
  destruct x as [|testId status td|status par]; [done|..]; intros _; cbn [call].
  - rewrite addTestRun_eq. eexists _, _. split; [reflexivity|].
    split_and!; [done| |done]. apply Forall_reverse, prepare_quiet.
  - exists (TUpdateStatus status par), []. by split_and!.
Qed.

(** X18.  The resume request of [createRun] has no [catch].  When it
    fails, the call made next pays for it: its task finds the chain
    rejected, skips its request, and its own [catch] absorbs the error.
    Exactly the update request has been sent, the future of the next call
    is fulfilled all the same, and the chain is fulfilled again. *)
Theorem X18_failed_resume_costs_next_call
  (s : State) (key rid : string) (x : Call) (e : JsError) (o1 o2 : Outcome) :
  apiKey (this s) = Some key ->
  isValidUrl env (Str.trim (TESTOMAT_URL env)) = true ->
  proc_runId s = Some rid -> truthy_str (Some rid) = true ->
  running s = None -> pending s = [] -> chain s = Fulfilled ->
  is_report x = true -> reporting_error e ->
  let s' := run env [Do CreateRun; Do x; Tick o1; Tick (Rejects e); Tick o2] s in
  sends (history s')
  = sends (history s) ++ [PutRun (run_url env rid) (runParams_of env (this s) key)] /\
  returned s' = RetQueue (S (ntasks s)) :: RetResolved rid :: returned s /\
  future_state s' (RetQueue (S (ntasks s))) = Some Fulfilled /\
  chain s' = Fulfilled /\
  drained s'.
Proof.
  intros Hk Hu Hp Hrid Hr Hpd Hc Hx He s'. unfold s'. cbn [run foldl step].
  change (call env CreateRun s) with (createRun env s).
  set (rp := runParams_of env (this s) key).
  assert (Hs1 : createRun env s
                = {| this := with_runId (this s) (Some rid); proc_runId := proc_runId s;
                     results := results s; running := None;
                     pending := [TUpdateRun rid rp];
                     trace := trace s; returned := RetResolved rid :: returned s |}).
  { unfold createRun. rewrite Hk, Hu, Hp, Hrid. cbn [negb interp].
    unfold give, enqueue, set_pending, set_this. cbn. by rewrite Hr, Hpd, ?Hp. }
  rewrite Hs1. clear Hs1.
  match goal with |- context [call env x ?z] => set (s1 := z) end.
  destruct (call_report x s1 Hx) as (t & evs & Hs2 & Ht & Hq & _).
  assert (Hn1 : ntasks s1 = S (length (results s))).
  { unfold ntasks, s1. cbn. lia. }
  assert (Hs5 : tick env o2 (tick env (Rejects e) (tick env o1 (call env x s1)))
                = {| this := with_runId (this s) (Some rid);
                     proc_runId := proc_runId s;
                     results := (results s ++ [Rejected e]) ++ [Fulfilled];
                     running := None; pending := [];
                     trace := (reverse (handler t e).1
                               ++ [ERecv (Rejects e);
                                   ESend (PutRun (run_url env rid) rp)])
                              ++ evs ++ trace s;
                     returned := RetQueue (S (length (results s)))
                                   :: RetResolved rid :: returned s |}).
  { rewrite Hs2, Hn1. unfold s1.
    cbn [this proc_runId results running pending trace returned app].
    erewrite (tick_start o1); [|done|done|exact Hc].
    unfold reaction, send, set_running, emit, set_pending.
    cbn [this proc_runId results running pending trace returned].
    erewrite (tick_response (Rejects e)); [|done].
    unfold response_arrives, emit. rewrite rejected_eq.
    cbn [this proc_runId results running pending trace returned].
    erewrite (tick_skip o2 _ _ _ e); [|done|done|eapply (chain_snoc _ _ (results s)); reflexivity].
    rewrite rejected_eq. unfold set_pending.
    rewrite (handler_absorbs t e (report_task_has_catch t Ht) He).
    cbn [this proc_runId results running pending trace returned].
    f_equal. rewrite <- app_assoc. reflexivity. }
  rewrite Hs5. clear Hs5 Hs2. rewrite ntasks_idle by done.
  cbn [returned results running pending future_state].
  split_and!; [|done| |by eapply chain_snoc|done].
  - set (s2 := {| this := this s; proc_runId := proc_runId s; results := results s;
                  running := None; pending := [];
                  trace := evs ++ trace s; returned := returned s |}).
    match goal with |- sends (history ?z) = _ => set (s5 := z) end.
    assert (Htr : trace s5 = (reverse (handler t e).1
                               ++ [ERecv (Rejects e);
                                   ESend (PutRun (run_url env rid) rp)])
                              ++ trace s2) by done.
    rewrite (history_emits _ s2 s5 Htr), sends_app, reverse_app, sends_app.
    rewrite reverse_involutive.
    rewrite (sends_history_quiet evs s s2 eq_refl) by (by apply quiet_no_send).
    rewrite (sends_quiet (handler t e).1), app_nil_r; [done|].
    rewrite <- (reverse_involutive (handler t e).1). apply Forall_reverse, handler_quiet.
  - apply list_lookup_middle. rewrite length_app. cbn. lia.
Qed.

(** X19.  A result reported while the run is still being created waits
    behind the create request: once the run exists it is posted to that
    run.  Its files were handed over before any run id was known, so none
    of them is uploaded and the payload carries no artifacts. *)
Theorem X19_report_behind_create
  (s : State) (key uid url : string) (testId result : jsval) (td : TestData)
  (o1 o3 o4 : Outcome) (code : Z) :
  apiKey (this s) = Some key ->
  isValidUrl env (Str.trim (TESTOMAT_URL env)) = true ->
  truthy_str (proc_runId s) = false ->
  truthy_str (runId (this s)) = false ->
  running s = None -> pending s = [] -> chain s = Fulfilled ->
  truthy_str (Some uid) = true ->
  let s' := run env [Do CreateRun; Do (AddTestRun testId result td);
                     Tick o1; Tick (Resolves (run_created code uid url));
                     Tick o3; Tick o4] s in
  exists body,
    sends (history s')
    = sends (history s)
      ++ [PostRun (create_url env) (runParams_of env (this s) key);
          PostTestrun (testrun_url env (Some uid)) body] /\
    uploads (history s') = uploads (history s) /\
    files body = default [] (td_files td) /\
    artifacts body = [] /\
    status body = result.
Proof.
  intros Hk Hu Hp Hid Hr Hpd Hc Huid s'.
  destruct (prepare_no_run env (this s) testId result td Hid) as [Hlogs Hnone].
  destruct (prepare_closure (this s) testId result td) as (Hf & _ & Hst & _).
  cbn zeta in Hf, Hst.
  remember ((addTestRun_prepare env (this s) testId result td).1.1) as cl eqn:Hcl.
  remember ((addTestRun_prepare env (this s) testId result td).2) as evs eqn:Hevs.
  set (rp := runParams_of env (this s) key).
  set (resp := run_created code uid url).
  set (c' := with_runUrl (with_runId (this s) (Some uid))
               (Some (TESTOMAT_URL env +:+ "/"
                      +:+ Str.join "/" (Str.splice_from 3 (Str.split "/" url))))).
  assert (Hs' : s' = {| this := c'; proc_runId := Some uid;
                        results := results s ++ [Fulfilled];
                        running := Some (AwaitResponse (TAddTestRun cl));
                        pending := [];
                        trace := [ESend (PostTestrun (testrun_url env (Some uid))
                                           (payload_of c' cl []));
                                  ELog (LogReportCreated (Some uid));
                                  ERecv (Resolves resp);
                                  ESend (PostRun (create_url env) rp)]
                                 ++ reverse evs ++ trace s;
                        returned := RetQueue (S (length (results s)))
                                      :: RetQueue (length (results s)) :: returned s |}).
  { unfold s'. cbn [run foldl step call].
    rewrite (createRun_create s key) by done.
    rewrite addTestRun_eq, ntasks_give_enqueue, !ntasks_idle by done.
    unfold give, enqueue, set_pending.
    cbn [this proc_runId results running pending trace returned].
    rewrite <- Hcl, <- Hevs.
    rewrite Hpd. cbn [app].
    erewrite (tick_start o1); [|done|done|exact Hc].
    unfold reaction, send, set_running, emit, set_pending.
    cbn [this proc_runId results running pending trace returned].
    erewrite (tick_response (Resolves resp)); [|done].
    unfold response_arrives, fulfilled, created, resp, run_created.
    cbn [r_data rd_uid rd_url].
    unfold settle, set_proc_runId, emit, set_this.
    cbn [this proc_runId results running pending trace returned runId
         with_runId with_runUrl interp].
    erewrite (tick_start o3); [|done|done|eapply (chain_snoc _ _ (results s)); reflexivity].
    unfold reaction, set_running, set_pending.
    cbn [this proc_runId results running pending trace returned runId
         with_runId with_runUrl].
    rewrite Huid. cbn [negb].
    erewrite (tick_uploads o4); [|done]. unfold uploads_settled. rewrite Hnone.
    cbn [promise_all]. unfold send, set_running, emit.
    cbn [this proc_runId results running pending trace returned runId
         with_runId with_runUrl].
    reflexivity. }
  assert (Htr : trace s'
                = ([ESend (PostTestrun (testrun_url env (Some uid)) (payload_of c' cl []));
                    ELog (LogReportCreated (Some uid));
                    ERecv (Resolves resp);
                    ESend (PostRun (create_url env) rp)]
                   ++ reverse evs) ++ trace s).
  { rewrite Hs'. cbn [trace]. apply app_assoc. }
  exists (payload_of c' cl []).
  split_and!; [| |exact Hf|reflexivity|exact Hst].
  - rewrite (history_emits _ s s' Htr).
    rewrite sends_app, reverse_app, sends_app, reverse_involutive.
    rewrite (sends_quiet evs) by (by apply is_log_quiet). done.
  - rewrite (history_emits _ s s' Htr).
    rewrite uploads_app, reverse_app, uploads_app, reverse_involutive.
    rewrite (uploads_logs evs) by done. by rewrite app_nil_r.
Qed.


End Lifecycle.

(** ** The stack filter *)

(** X17.  The filter handed to the stack renderer drops every frame
    whose file name contains [node_modules] or [internal], wherever the
    word stands in the name, and every frame whose file name has no path
    separator; a frame without a file name makes it throw. *)
Theorem X17_stack_filter_drops (sep : string) :
  (forall a b, stackFilter sep (Some (a +:+ "node_modules" +:+ b)) = Resolves false) /\
  (forall a b, stackFilter sep (Some (a +:+ "internal" +:+ b)) = Resolves false) /\
  (forall c f, sep = String c "" -> Str.free_of c f ->
               stackFilter sep (Some f) = Resolves false) /\
  (exists e, stackFilter sep None = Rejects e).
Proof.
  split_and!.
  - intros a b. unfold stackFilter. rewrite (contains_app "node_modules").
    cbn [negb]. by rewrite andb_false_r.
  - intros a b. unfold stackFilter. rewrite (contains_app "internal").
    cbn [negb]. by rewrite andb_false_r.
  - intros c f -> Hf. unfold stackFilter. by rewrite contains_free.
  - by eexists.
Qed.

(** ** The first request *)

Section Beginning.
Context (env : Env).
#[local] Arguments handler : simpl never.

Lemma tick_trace (o : Outcome) (s : State) :
  exists evs, trace (tick env o s) = evs ++ trace s.
Proof.
  unfold tick. destruct (running s) as [[cl|t]|] eqn:Hr.
  - unfold uploads_settled. destruct (promise_all _) as [arts|e].
    + by exists [ESend (PostTestrun (testrun_url env (runId (this s)))
                          (payload_of (this s) cl arts))].
    + rewrite rejected_eq. by eexists.
  - unfold response_arrives. destruct o as [resp|e].
    + destruct (fulfilled_eq env t resp (emit (ERecv (Resolves resp)) s))
        as (c' & p' & logs & -> & _).
      exists (logs ++ [ERecv (Resolves resp)]). cbn. by rewrite <- app_assoc.
    + rewrite rejected_eq. eexists (_ ++ [_]). cbn. by rewrite <- app_assoc.
  - destruct (pending s) as [|t rest]; [by exists []|].
    unfold start_task. destruct (chain _) as [|e].
    + destruct t as [rid rp|rp|cl|st par]; cbn [reaction]; repeat case_match;
        try (by exists []); by eexists [_].
    + rewrite rejected_eq. by eexists.
Qed.

Lemma call_trace (x : Call) (s : State) :
  exists evs, trace (call env x s) = evs ++ trace s.
Proof.
  destruct x as [|testId status td|status par]; cbn [call].
  - unfold createRun. repeat case_match; try (by exists []). by exists [ELog LogInvalidUrl].
  - unfold addTestRun.
    destruct (addTestRun_prepare env (this s) testId status td) as [[cl td'] evs].
    rewrite emit_all_eq. by eexists.
  - by exists [].
Qed.

Lemma create_first_step (x : Step) (s : State) :
  create_first env s -> create_first env (step env s x).
Proof.
  intros (rp & rest & Hs).
  assert (exists evs, trace (step env s x) = evs ++ trace s) as [evs Htr].
  { destruct x; [apply call_trace|apply tick_trace]. }
  exists rp, (rest ++ sends (reverse evs)).
  by rewrite (history_emits evs s _ Htr), sends_app, Hs.
Qed.

Lemma unstarted_step (x : Step) (s : State) :
  unstarted s -> unstarted (step env s x) \/ create_first env (step env s x).
Proof.
  intros (Hid & Hp & Hr & Hc & Hpd & Hlog). destruct x as [c|o]; cbn [step].
  - left. destruct c as [|testId status td|status par]; cbn [call].
    + unfold createRun. destruct (apiKey (this s)); [|by split_and!].
      destruct (negb _).
      * split_and!; try done. cbn. by constructor.
      * rewrite Hp. split_and!; try done. cbn.
        apply Forall_app. split; [done|by repeat constructor].
    + unfold addTestRun.
      destruct (prepare_no_run env (this s) testId status td Hid) as [Hl _].
      destruct (addTestRun_prepare env (this s) testId status td) as [[cl td'] evs].
      cbn [snd] in Hl. rewrite emit_all_eq.
      split_and!; try done; cbn.
      * apply Forall_app. split; [done|by repeat constructor].
      * apply Forall_app. split; [by apply Forall_reverse|done].
    + unfold updateRunStatus. split_and!; try done. cbn.
      apply Forall_app. split; [done|by repeat constructor].
  - unfold tick. rewrite Hr. destruct (pending s) as [|t rest] eqn:Hq.
    + left. unfold unstarted. by rewrite Hq.
    + apply Forall_cons in Hpd as [Ht Hpd]. unfold start_task.
      replace (chain (set_pending rest s)) with (chain s) by done. rewrite Hc.
      destruct t as [rid rp|rp|cl|st par]; [done|..]; cbn [reaction].
      * right. exists rp, [].
        rewrite (sends_history_send (PostRun (create_url env) rp) s) by done.
        rewrite (sends_quiet (history s)); [done|].
        by apply is_log_quiet, Forall_reverse.
      * left. replace (this (set_pending rest s)) with (this s) by done.
        rewrite Hid. cbn [negb]. split_and!; try done.
        eapply chain_settle_fulfilled. reflexivity.
      * left. replace (this (set_pending rest s)) with (this s) by done.
        rewrite Hid. split_and!; try done.
        eapply chain_settle_fulfilled. reflexivity.
Qed.

(** X20.  A client launched without an external run id reports nothing
    before it has asked for a run: whatever is called and however the
    event loop takes its turns, either nothing has been sent or uploaded
    yet, or the first request handed to the transport is the create
    request of [createRun]. *)
Theorem X20_create_request_comes_first (params : Params) (sched : list Step) :
  truthy_str (loaded_runId env) = false ->
  let s' := run env sched (new_client env params) in
  (sends (history s') = [] /\ uploads (history s') = [])
  \/ exists rp rest, sends (history s') = PostRun (create_url env) rp :: rest.
Proof.
  intros Hid s'.
  assert (Hinv : unstarted s' \/ create_first env s').
  { unfold s'.
    assert (H0 : unstarted (new_client env params) \/ create_first env (new_client env params)).
    { left. split_and!; try done; constructor. }
    revert H0. generalize (new_client env params).
    induction sched as [|x sched IH]; intros s Hs; [done|].
    cbn [run foldl]. apply IH. destruct Hs as [Hs|Hs].
    - by apply unstarted_step.
    - right. by apply create_first_step. }
  destruct Hinv as [(_ & _ & _ & _ & _ & Hlog)|Hfirst]; [left|by right].
  assert (Hh : Forall is_log (history s')) by (by apply Forall_reverse).
  split; [by apply sends_quiet, is_log_quiet|by apply uploads_logs].
Qed.

End Beginning.

(** ** Two calls of [createRun] at once *)

Section TwoCreates.
Context (env : Env).
#[local] Arguments handler : simpl never.

(** X21.  [createRun] called twice before the first answer creates two
    runs: both calls find [process.env.runId] empty, both create requests
    are sent, one after the other, and the client ends with the id of the
    second run. *)
Theorem X21_create_run_twice_at_once
  (s : State) (key uid1 url1 uid2 url2 : string) (o1 o3 : Outcome) (code1 code2 : Z) :
  apiKey (this s) = Some key ->
  isValidUrl env (Str.trim (TESTOMAT_URL env)) = true ->
  truthy_str (proc_runId s) = false ->
  running s = None -> pending s = [] -> chain s = Fulfilled ->
  let s' := run env [Do CreateRun; Do CreateRun;
                     Tick o1; Tick (Resolves (run_created code1 uid1 url1));
                     Tick o3; Tick (Resolves (run_created code2 uid2 url2))] s in
  sends (history s')
  = sends (history s)
    ++ [PostRun (create_url env) (runParams_of env (this s) key);
        PostRun (create_url env) (runParams_of env (this s) key)] /\
  runId (this s') = Some uid2 /\
  proc_runId s' = Some uid2 /\
  returned s' = RetQueue (S (ntasks s)) :: RetQueue (ntasks s) :: returned s /\
  drained s'.
Proof.
  intros Hk Hu Hp Hr Hpd Hc s'.
  set (rp := runParams_of env (this s) key).
  set (r1 := run_created code1 uid1 url1).
  set (r2 := run_created code2 uid2 url2).
  assert (Hs' : exists c',
    s' = {| this := c'; proc_runId := Some uid2;
            results := (results s ++ [Fulfilled]) ++ [Fulfilled];
            running := None; pending := [];
            trace := [ELog (LogReportCreated (Some uid2)); ERecv (Resolves r2);
                      ESend (PostRun (create_url env) rp);
                      ELog (LogReportCreated (Some uid1)); ERecv (Resolves r1);
                      ESend (PostRun (create_url env) rp)] ++ trace s;
            returned := RetQueue (S (length (results s)))
                          :: RetQueue (length (results s)) :: returned s |}
    /\ runId c' = Some uid2).
  { unfold s'. cbn [run foldl step call].
    rewrite (createRun_create env s key) by done.
    rewrite (createRun_create env _ key) by done.
    rewrite ntasks_give_enqueue, !ntasks_idle by done.
    unfold give, enqueue, set_pending.
    cbn [this proc_runId results running pending trace returned].
    rewrite Hpd. cbn [app].
    erewrite (tick_start env o1); [|done|done|exact Hc].
    unfold reaction, send, set_running, emit, set_pending.
    cbn [this proc_runId results running pending trace returned].
    erewrite (tick_response env (Resolves r1)); [|done].
    unfold response_arrives, fulfilled, created, r1, run_created.
    cbn [r_data rd_uid rd_url].
    unfold settle, set_proc_runId, emit, set_this.
    cbn [this proc_runId results running pending trace returned runId
         with_runId with_runUrl interp].
    erewrite (tick_start env o3);
      [|done|done|eapply (chain_snoc _ _ (results s)); reflexivity].
    unfold reaction, send, set_running, emit, set_pending.
    cbn [this proc_runId results running pending trace returned].
    erewrite (tick_response env (Resolves r2)); [|done].
    unfold response_arrives, fulfilled, created, r2, run_created.
    cbn [r_data rd_uid rd_url].
    unfold settle, set_proc_runId, emit, set_this.
    cbn [this proc_runId results running pending trace returned runId
         with_runId with_runUrl interp].
    eexists. split; reflexivity. }
  destruct Hs' as (c' & Hs' & Hc').
  rewrite ntasks_idle by done. rewrite Hs'.
  cbn [this proc_runId returned]. split_and!; [|done|done|done|done].
  rewrite <- Hs'.
  rewrite (history_emits [_; _; _; _; _; _] s s') by (by rewrite Hs').
  by rewrite sends_app.
Qed.

End TwoCreates.

(* ================================================================== *)
(** * The further results at sample inputs *)
(* ================================================================== *)

(** X1 on a new client: the run [u1] is created and adopted. *)
Lemma X1_witness :
  truthy_str (proc_runId (new_client Sample.env Sample.params)) = false
  /\ runId (this (run Sample.env
                    [Do CreateRun; Tick Sample.ok;
                     Tick (Resolves (run_created 200 "u1" Cases.u1_address))]
                    (new_client Sample.env Sample.params)))
     = Some "u1".
Proof.
  split; [reflexivity|].
  refine (proj1 (proj2 (proj2 (proj2
            (X1_create_run_creates Sample.env (new_client Sample.env Sample.params)
               "key" "u1" Cases.u1_address Sample.ok 200 _ _ _ _ _ _)))));
    reflexivity.
Defined.

(** X2: the path of the returned address behind the endpoint. *)
Lemma X2_witness :
  Str.free_of "/" "https:"
  /\ runUrl (this (run Sample.env
                     [Do CreateRun; Tick Sample.ok;
                      Tick (Resolves (run_created 200 "u1" Cases.u1_address))]
                     (new_client Sample.env Sample.params)))
     = Some (TESTOMAT_URL Sample.env +:+ "/" +:+ "projects/p/runs/u1").
Proof.
  split; [reflexivity|].
  refine (proj1 (X2_run_url_is_endpoint_and_path Sample.env
                   (new_client Sample.env Sample.params)
                   "key" "u1" Cases.u1_address Sample.ok 200 _ _ _ _ _ _)
            "https:" "" "app.testomat.io" "projects/p/runs/u1" _ _ _ _);
    reflexivity.
Defined.

(** X3: after a refused create request a result sends nothing. *)
Lemma X3_witness :
  truthy_str (runId (this (new_client Sample.env Sample.params))) = false
  /\ uploads (history (run Sample.env
                         [Do (AddTestRun (JStr "T1") PASSED Sample.with_file);
                          Tick Sample.ok]
                         (run Sample.env
                            [Do CreateRun; Tick Sample.ok; Tick (Sample.http 401)]
                            (new_client Sample.env Sample.params))))
     = uploads (history (new_client Sample.env Sample.params)).
Proof.
  split; [reflexivity|].
  refine (proj2 (proj2 (proj2 (proj2
            (X3_create_failure_silences_reports Sample.env
               (new_client Sample.env Sample.params) "key" Sample.ok
               (AxiosError (Some {| er_status := 401; er_data := Some "denied" |}))
               [Do (AddTestRun (JStr "T1") PASSED Sample.with_file); Tick Sample.ok]
               _ _ _ _ _ _ _ _))))); try reflexivity.
  repeat (constructor; [reflexivity|]). constructor.
Defined.

(** X4: a create response that names the run but not its address. *)
Lemma X4_witness :
  chain (new_client Sample.env Sample.params) = Fulfilled
  /\ runId (this (run Sample.env
                    [Do CreateRun; Tick Sample.ok;
                     Tick (Resolves {| r_status := 200;
                                       r_data := Some {| rd_uid := Some "u1";
                                                         rd_url := None |} |})]
                    (new_client Sample.env Sample.params)))
     = Some "u1".
Proof.
  split; [reflexivity|].
  refine (proj1 (proj2 (proj2 (proj2
            (X4_create_response_malformed Sample.env
               (new_client Sample.env Sample.params) "key" (Some "u1") Sample.ok 200
               _ _ _ _ _ _))))); reflexivity.
Defined.

(** X5: the second [createRun] updates the run [u1]. *)
Lemma X5_witness :
  truthy_str (Some "u1") = true
  /\ returned (run Sample.env [Do CreateRun; Tick Sample.ok] Sample.ready)
     = RetResolved "u1" :: returned Sample.ready.
Proof.
  split; [reflexivity|].
  refine (proj1 (X5_create_run_twice_creates_once Sample.env
                   (new_client Sample.env Sample.params) "key" "u1"
                   Cases.u1_address Sample.ok Sample.ok 200 _ _ _ _ _ _ _));
    reflexivity.
Defined.

(** X6: without any API key the call throws. *)
Lemma X6_witness :
  (truthy_str (p_apiKey Cases.no_key) = false /\ TESTOMATIO Sample.env = None)
  /\ exists e,
       returned (createRun Sample.env (new_client Sample.env Cases.no_key))
       = [RetThrows e].
Proof.
  split; [split; reflexivity|].
  apply (proj1 (X6_create_run_needs_api_key Sample.env Cases.no_key)).
  split; reflexivity.
Defined.

(** X7: an endpoint without a scheme. *)
Lemma X7_witness :
  isValidUrl Cases.bad_endpoint (Str.trim (TESTOMAT_URL Cases.bad_endpoint)) = false
  /\ sends (history (run Cases.bad_endpoint
                       [Do CreateRun; Tick Sample.ok;
                        Do (AddTestRun (JStr "T1") PASSED Sample.with_file);
                        Tick Sample.ok; Do (UpdateRunStatus PASSED (JBool false));
                        Tick Sample.ok]
                       (new_client Cases.bad_endpoint Sample.params)))
     = [].
Proof.
  split; [reflexivity|].
  refine (proj1 (proj2 (X7_invalid_endpoint_sends_nothing Cases.bad_endpoint
                          Sample.params _ _ _))); reflexivity.
Defined.

(** X8: the same endpoint inside the run [r1]. *)
Lemma X8_witness :
  truthy_str (loaded_runId Cases.bad_endpoint_resumed) = true
  /\ returned (run Cases.bad_endpoint_resumed
                 [Do CreateRun; Do (UpdateRunStatus PASSED (JBool false)); Tick Sample.ok]
                 (new_client Cases.bad_endpoint_resumed Sample.params))
     = [RetQueue 0; RetUndefined].
Proof.
  split; [reflexivity|].
  refine (proj1 (X8_endpoint_check_covers_create_only Cases.bad_endpoint_resumed
                   Sample.params PASSED (JBool false) Sample.ok _ _ _));
    [reflexivity|reflexivity|by eexists].
Defined.

(** X9: the status [skipped] of a parallel run. *)
Lemma X9_witness :
  JStr "skipped" <> PASSED
  /\ sends (history (run Sample.env
                       [Do (UpdateRunStatus (JStr "skipped") (JBool true)); Tick Sample.ok]
                       Sample.ready))
     = sends (history Sample.ready)
       ++ [status_request Sample.env Sample.ready (JStr "skipped") "undefined_parallel"].
Proof.
  split; [done|].
  rewrite (X9_status_event_of_other_status Sample.env Sample.ready (JStr "skipped")
             (JBool true) Sample.ok);
    [|vm_compute; reflexivity|vm_compute; reflexivity|vm_compute; reflexivity
     |vm_compute; reflexivity|done|done].
  unfold sends. rewrite omap_app. reflexivity.
Defined.

(** X10: a refused status update leaves the chain idle. *)
Lemma X10_witness :
  truthy_str (runId (this Sample.ready)) = true
  /\ drained (run Sample.env
                [Do (UpdateRunStatus PASSED (JBool false)); Tick Sample.ok;
                 Tick (Sample.http 500)]
                Sample.ready).
Proof.
  split; [vm_compute; reflexivity|].
  refine (proj2 (proj2 (proj1 (X10_update_run_status_settles Sample.env Sample.ready
                                 PASSED (JBool false) Sample.ok _ _ _ _)
                          (AxiosError (Some {| er_status := 500;
                                               er_data := Some "denied" |})))));
    vm_compute; reflexivity.
Defined.

(** X11: a redirect without a body while a result is being posted. *)
Lemma X11_witness :
  unreadable_failure Cases.redirected
  /\ sends (history (tick Sample.env Sample.ok
                       (tick Sample.env (Rejects Cases.redirected) Cases.posting)))
     = sends (history Cases.posting).
Proof.
  assert (Hbad : unreadable_failure Cases.redirected).
  { eexists. split; [reflexivity|]. split; [cbn; lia|reflexivity]. }
  split; [exact Hbad|].
  refine (proj1 (proj2 (X11_add_test_run_catch_escape Sample.env Cases.posting
                          (addTestRun_prepare Sample.env (this Sample.ready)
                             (JStr "T1") PASSED Sample.with_file).1.1
                          (TUpdateStatus PASSED (JBool false)) []
                          Cases.redirected Sample.ok _ _ _) Hbad));
    vm_compute; reflexivity.
Defined.

(** X12: the file of the sample result is handed over during the call. *)
Lemma X12_witness :
  runId (this Sample.ready) = Some "u1"
  /\ uploads (history (addTestRun Sample.env (JStr "T1") PASSED Sample.with_file
                         Sample.ready))
     = uploads (history Sample.ready) ++ [(JStr "shot.png", "u1")].
Proof.
  split; [vm_compute; reflexivity|].
  refine (proj1 (X12_files_uploaded_during_call Sample.env Sample.ready (JStr "T1")
                   PASSED Sample.with_file "u1" _ _)); vm_compute; reflexivity.
Defined.

(** X13: the artifact of the sample result. *)
Lemma X13_witness :
  Forall (fun f => uploadFile Sample.env f "u1" = Resolves (JStr "s3://u1"))
    (default [] (td_files Sample.with_file))
  /\ exists body,
       sends (history (run Sample.env
                         [Do (AddTestRun (JStr "T1") PASSED Sample.with_file);
                          Tick Sample.ok; Tick Sample.ok]
                         Sample.ready))
       = sends (history Sample.ready)
         ++ [PostTestrun (testrun_url Sample.env (Some "u1")) body]
       /\ artifacts body = [JStr "s3://u1"].
Proof.
  assert (Hup : Forall (fun f => uploadFile Sample.env f "u1" = Resolves (JStr "s3://u1"))
                  (default [] (td_files Sample.with_file))).
  { repeat constructor. }
  split; [exact Hup|].
  destruct (X13_artifacts_follow_files Sample.env Sample.ready (JStr "T1") PASSED
              Sample.with_file "u1" (fun _ => JStr "s3://u1") Sample.ok Sample.ok)
    as (body & Hs & Ha & _); [vm_compute; reflexivity..|exact Hup|].
  exists body. split; [exact Hs|exact Ha].
Defined.

(** X14: the file cannot be read, the result is not posted. *)
Lemma X14_witness :
  Rejects (OtherError "ENOENT")
    ∈ ((fun f => uploadFile Cases.no_storage f "u1")
         <$> default [] (td_files Sample.with_file))
  /\ sends (history (run Cases.no_storage
                       [Do (AddTestRun (JStr "T1") PASSED Sample.with_file);
                        Tick Sample.ok; Tick Sample.ok]
                       Cases.no_storage_ready))
     = sends (history Cases.no_storage_ready).
Proof.
  assert (Hin : Rejects (OtherError "ENOENT")
                  ∈ ((fun f => uploadFile Cases.no_storage f "u1")
                       <$> default [] (td_files Sample.with_file))).
  { left. }
  split; [exact Hin|].
  refine (proj1 (X14_failed_upload_drops_result Cases.no_storage Cases.no_storage_ready
                   (JStr "T1") PASSED Sample.with_file "u1" (OtherError "ENOENT")
                   Sample.ok Sample.ok _ _ _ _ _ _ Hin));
    try (vm_compute; reflexivity).
Defined.

(** X15: the text for an actual value of [0]. *)
Lemma X15_witness :
  truthy (e_actual Cases.zero_one) && truthy (e_expected Cases.zero_one) = false
  /\ cl_message (addTestRun_prepare Sample.env (this Sample.ready) (JStr "T1") FAILED
                   Cases.failed_zero).1.1
     = "expected 1".
Proof.
  split; [reflexivity|].
  refine (proj1 (X15_no_diff_without_both_values Sample.env (this Sample.ready)
                   (JStr "T1") FAILED Cases.failed_zero Cases.zero_one _ _ _));
    reflexivity.
Defined.

(** X16: a result and the final status settle within six turns. *)
Lemma X16_witness :
  work Cases.backlog <= 6
  /\ drained (run Sample.env
                (Tick <$> [Sample.ok; Sample.ok; Sample.http 500;
                           Sample.ok; Sample.ok; Sample.ok])
                Cases.backlog).
Proof.
  assert (Hw : work Cases.backlog <= 6) by (vm_compute; lia).
  split; [exact Hw|].
  exact (proj1 (X16_every_task_settles Sample.env Cases.backlog
                  [Sample.ok; Sample.ok; Sample.http 500;
                   Sample.ok; Sample.ok; Sample.ok] Hw)).
Defined.

(** X17: a file name without a directory. *)
Lemma X17_witness :
  Str.free_of "/" "index.js"
  /\ stackFilter "/" (Some "index.js") = Resolves false.
Proof.
  split; [reflexivity|].
  exact (proj1 (proj2 (proj2 (X17_stack_filter_drops "/"))) "/"%char "index.js"
           eq_refl eq_refl).
Defined.

(** X18: the update of run [r1] is refused, the result behind it is lost. *)
Lemma X18_witness :
  reporting_error (AxiosError (Some {| er_status := 500; er_data := Some "denied" |}))
  /\ chain (run Sample.resumed
              [Do CreateRun; Do (AddTestRun (JStr "T1") PASSED Sample.with_file);
               Tick Sample.ok; Tick (Sample.http 500); Tick Sample.ok]
              (new_client Sample.resumed Sample.params))
     = Fulfilled.
Proof.
  assert (He : reporting_error
                 (AxiosError (Some {| er_status := 500; er_data := Some "denied" |})))
    by (cbn; lia).
  split; [exact He|].
  refine (proj1 (proj2 (proj2 (proj2
            (X18_failed_resume_costs_next_call Sample.resumed
               (new_client Sample.resumed Sample.params) "key" "r1"
               (AddTestRun (JStr "T1") PASSED Sample.with_file)
               (AxiosError (Some {| er_status := 500; er_data := Some "denied" |}))
               Sample.ok Sample.ok _ _ _ _ _ _ _ _ He))))); reflexivity.
Defined.

(** X19: a result reported before the create request has been answered. *)
Lemma X19_witness :
  truthy_str (runId (this (new_client Sample.env Sample.params))) = false
  /\ exists body,
       sends (history (run Sample.env
                         [Do CreateRun;
                          Do (AddTestRun (JStr "T1") PASSED Sample.with_file);
                          Tick Sample.ok;
                          Tick (Resolves (run_created 200 "u1" Cases.u1_address));
                          Tick Sample.ok; Tick Sample.ok]
                         (new_client Sample.env Sample.params)))
       = sends (history (new_client Sample.env Sample.params))
         ++ [PostRun (create_url Sample.env)
               (runParams_of Sample.env (this (new_client Sample.env Sample.params)) "key");
             PostTestrun (testrun_url Sample.env (Some "u1")) body]
       /\ artifacts body = [].
Proof.
  split; [reflexivity|].
  destruct (X19_report_behind_create Sample.env (new_client Sample.env Sample.params)
              "key" "u1" Cases.u1_address (JStr "T1") PASSED Sample.with_file
              Sample.ok Sample.ok Sample.ok 200)
    as (body & Hs & _ & _ & Ha & _); [reflexivity..|].
  exists body. split; [exact Hs|exact Ha].
Defined.

(** X20: the first request of the sample client. *)
Lemma X20_witness :
  truthy_str (loaded_runId Sample.env) = false
  /\ ((sends (history Sample.ready) = [] /\ uploads (history Sample.ready) = [])
      \/ exists rp rest,
           sends (history Sample.ready) = PostRun (create_url Sample.env) rp :: rest).
Proof.
  split; [reflexivity|].
  exact (X20_create_request_comes_first Sample.env Sample.params
           [Do CreateRun; Tick Sample.ok; Tick Sample.ok] eq_refl).
Defined.

(** X21: two runs, [u1] and then [u2]. *)
Lemma X21_witness :
  truthy_str (proc_runId (new_client Sample.env Sample.params)) = false
  /\ runId (this (run Sample.env
                    [Do CreateRun; Do CreateRun; Tick Sample.ok;
                     Tick (Resolves (run_created 200 "u1" Cases.u1_address));
                     Tick Sample.ok;
                     Tick (Resolves (run_created 200 "u2" Cases.u1_address))]
                    (new_client Sample.env Sample.params)))
     = Some "u2".
Proof.
  split; [reflexivity|].
  refine (proj1 (proj2 (X21_create_run_twice_at_once Sample.env
                          (new_client Sample.env Sample.params) "key"
                          "u1" Cases.u1_address "u2" Cases.u1_address
                          Sample.ok Sample.ok 200 200 _ _ _ _ _ _))); reflexivity.
Defined.

